(** * Mariolike: a shallow embedding of the platformer core

    The development follows [src/app.py] (tile query, player controller,
    items, enemies, camera, session callbacks), [src/level_io.py] (level
    persistence) and [src/level_editor.py] (the editor's state and input
    handlers).

    Modelling conventions.
    - Python [int] is [Z]; Python [float] is modelled by exact rationals [Q]
      (no rounding, no signed zero, no NaN).
    - [pygame.Rect] is a record of four integers with pygame's own
      [inflate] and [colliderect].
    - The tile grid is a list of rows of characters; Python's [IndexError]
      is the [None] of an option result.  The generator [tiles_in_aabb] is
      consumed to the end here, so a grid whose rows are too short yields
      [None] for the whole query.
    - Particles are decorative, write-only and driven by [random]; they are
      left out together with rendering. *)

From Stdlib Require Import ZArith QArith Qabs Qround Lia Lqa List Bool Ascii String.
Import ListNotations.

Open Scope Z_scope.

(** ** The error monad used for [IndexError] *)

Definition bind {A B : Type} (o : option A) (f : A -> option B) : option B :=
  match o with
  | Some a => f a
  | None => None
  end.

Notation "'let*' x ':=' e 'in' k" := (bind e (fun x => k))
  (at level 10, x pattern, e at level 100, k at level 200).

(** ** Python numerics *)

(** [int(q)] on a float: truncation toward zero. *)
Definition py_int (q : Q) : Z := Z.quot (Qnum q) (Zpos (Qden q)).

Definition Qlt_bool (a b : Q) : bool := negb (Qle_bool b a).

(** [clamp(v, a, b)], app.py line 107. *)
Definition clamp (v a b : Q) : Q :=
  if Qlt_bool v a then a else if Qlt_bool b v then b else v.

(** [math.copysign(m, s)]: magnitude of [m], sign of [s]. *)
Definition copysign (m s : Q) : Q :=
  if Qlt_bool s 0 then Qopp (Qabs m) else Qabs m.

Definition Qmax (a b : Q) : Q := if Qlt_bool a b then b else a.
Definition Qmin (a b : Q) : Q := if Qlt_bool b a then b else a.

(** ** Python sequences *)

(** [l[i]] with Python's negative indices; [None] is [IndexError]. *)
Definition py_index {A : Type} (l : list A) (i : Z) : option A :=
  let n := Z.of_nat (List.length l) in
  if (0 <=? i) && (i <? n) then nth_error l (Z.to_nat i)
  else if (- n <=? i) && (i <? 0) then nth_error l (Z.to_nat (n + i))
  else None.

Fixpoint set_nth {A : Type} (l : list A) (n : nat) (v : A) : list A :=
  match l, n with
  | [], _ => []
  | _ :: t, O => v :: t
  | a :: t, S n' => a :: set_nth t n' v
  end.

(** [l[i] = v]; [None] is [IndexError]. *)
Definition py_setitem {A : Type} (l : list A) (i : Z) (v : A) : option (list A) :=
  let n := Z.of_nat (List.length l) in
  if (0 <=? i) && (i <? n) then Some (set_nth l (Z.to_nat i) v)
  else if (- n <=? i) && (i <? 0) then Some (set_nth l (Z.to_nat (n + i)) v)
  else None.

(** [range(a, b)]. *)
Definition py_range (a b : Z) : list Z :=
  map (fun k => a + Z.of_nat k) (seq 0 (Z.to_nat (b - a))).

(** ** pygame.Rect *)

Record Rect : Type := mkRect { rx : Z; ry : Z; rw : Z; rh : Z }.

Definition left (r : Rect) : Z := rx r.
Definition right (r : Rect) : Z := rx r + rw r.
Definition top (r : Rect) : Z := ry r.
Definition bottom (r : Rect) : Z := ry r + rh r.

(** [Rect.inflate(dx, dy)]: grows around the centre, C integer division. *)
Definition inflate (r : Rect) (dx dy : Z) : Rect :=
  mkRect (rx r - Z.quot dx 2) (ry r - Z.quot dy 2) (rw r + dx) (rh r + dy).

(** [Rect.colliderect]: strict overlap; a rectangle of zero width or height
    collides with nothing. *)
Definition colliderect (a b : Rect) : bool :=
  if (rw a =? 0) || (rh a =? 0) || (rw b =? 0) || (rh b =? 0) then false
  else (Z.min (rx a) (rx a + rw a) <? Z.max (rx b) (rx b + rw b))
    && (Z.min (ry a) (ry a + rh a) <? Z.max (ry b) (ry b + rh b))
    && (Z.max (rx a) (rx a + rw a) >? Z.min (rx b) (rx b + rw b))
    && (Z.max (ry a) (ry a + rh a) >? Z.min (ry b) (ry b + rh b)).

(** ** Constants, app.py lines 17-64 *)

Definition TILE : Z := 48.

Definition GRAVITY : Q := 2500.
Definition MAX_FALL : Q := 1600.
Definition ACCEL : Q := 4200.
Definition AIR_ACCEL : Q := 2600.
Definition FRICTION : Q := 2800.
Definition MAX_SPEED : Q := 360.

Definition JUMP_VEL : Q := - (900).
Definition JUMP_CUT : Q := 42 # 100.
Definition COYOTE_TIME : Q := 12 # 100.
Definition JUMP_BUFFER : Q := 12 # 100.

Definition DASH_SPEED : Q := 1150.
Definition DASH_TIME : Q := 14 # 100.
Definition DASH_COOLDOWN : Q := 11 # 10.
Definition INVINCIBLE_ON_DASH : Q := 12 # 100.

Definition SPRINT_SPEED_MULT : Q := 135 # 100.
Definition SPRINT_ACCEL_MULT : Q := 125 # 100.
Definition SPRINT_JUMP_MULT : Q := 115 # 100.

Definition SKID_TRIGGER_SPEED : Q := MAX_SPEED * SPRINT_SPEED_MULT * (60 # 100).
Definition SKID_TIME : Q := 18 # 100.
Definition SKID_ACCEL_MULT : Q := 25 # 100.
Definition SKID_FRICTION_MULT : Q := 110 # 100.
Definition SKID_TILT_DEG : Q := 12.

Definition CROUCH_SPEED_MULT : Q := 55 # 100.
Definition CROUCH_ACCEL_MULT : Q := 60 # 100.
Definition H_STAND : Z := 52.
Definition H_CROUCH : Z := 34.
Definition H_STAND_BIG : Z := 70.
Definition H_CROUCH_BIG : Z := 46.

Definition CROUCH_SLIDE_TRIGGER_SPEED : Q := MAX_SPEED * SPRINT_SPEED_MULT * (65 # 100).
Definition CROUCH_SLIDE_TIME_BASE : Q := 28 # 100.
Definition CROUCH_SLIDE_DECEL_BASE : Q := 5200.
Definition CROUCH_SLIDE_MIN_DIST : Q := 90.

(** ** World helpers, app.py lines 130-142 *)

Definition Tilemap : Type := list (list ascii).

Definition tile_rect (tx ty : Z) : Rect := mkRect (tx * TILE) (ty * TILE) TILE TILE.

(** Inner loop of [tiles_in_aabb]: one row, columns [txs]. *)
Fixpoint scan_row (row : list ascii) (ty : Z) (txs : list Z)
  : option (list (Z * Z * ascii)) :=
  match txs with
  | [] => Some []
  | tx :: txs' =>
      let* ch := py_index row tx in
      let* rest := scan_row row ty txs' in
      Some (if Ascii.eqb ch " " then rest else (tx, ty, ch) :: rest)
  end.

(** Outer loop of [tiles_in_aabb]: rows [tys]. *)
Fixpoint scan_rows (tilemap : Tilemap) (tys txs : list Z)
  : option (list (Z * Z * ascii)) :=
  match tys with
  | [] => Some []
  | ty :: tys' =>
      let* row := py_index tilemap ty in
      let* here := scan_row row ty txs in
      let* rest := scan_rows tilemap tys' txs in
      Some (here ++ rest)
  end.

Definition tiles_in_aabb (tilemap : Tilemap) (rect : Rect)
  : option (list (Z * Z * ascii)) :=
  let* row0 := py_index tilemap 0 in
  let min_tx := Z.max 0 (left rect / TILE) in
  let max_tx := Z.min (Z.of_nat (List.length row0) - 1) (right rect / TILE) in
  let min_ty := Z.max 0 (top rect / TILE) in
  let max_ty := Z.min (Z.of_nat (List.length tilemap) - 1) (bottom rect / TILE) in
  scan_rows tilemap (py_range min_ty (max_ty + 1)) (py_range min_tx (max_tx + 1)).

Definition solid (ch : ascii) : bool :=
  existsb (Ascii.eqb ch) ["X"; "="; "B"; "S"; "Q"]%char.

(** ** Input snapshot handed to [Player.update] (the [keys] dictionary) *)

Record Keys : Type := mkKeys {
  K_a : bool;
  K_d : bool;
  K_LEFT : bool;
  K_RIGHT : bool;
  shift_held : bool;
  dash_pressed : bool;
  jump_pressed : bool;
  jump_released : bool;
  crouch_held : bool;
  crouch_pressed : bool
}.

(** The player's form, ["small"] or ["big"]. *)
Inductive Form : Type := small | big.

Definition Form_eqb (a b : Form) : bool :=
  match a, b with
  | small, small | big, big => true
  | _, _ => false
  end.

(** [collections.deque(maxlen=n).append]: a full deque drops its oldest entry. *)
Definition deque_append {A : Type} (maxlen : nat) (d : list A) (a : A) : list A :=
  let d' := d ++ [a] in
  if (maxlen <? List.length d')%nat then tl d' else d'.

(** Tiles that stop a hitbox from fitting: [ch in ('|','^','F') or solid(ch)]. *)
Definition blocks (ch : ascii) : bool :=
  existsb (Ascii.eqb ch) ["|"; "^"; "F"]%char || solid ch.

(** ** class Player, app.py lines 166-329 *)

Module Player.

Record t : Type := mk {
  x : Q;
  y : Q;
  w : Z;
  h_stand : Z;
  h_crouch : Z;
  h : Z;
  form : Form;
  vx : Q;
  vy : Q;
  on_ground : bool;
  since_ground : Q;
  jump_buf : Q;
  facing : Z;
  trail : list (Q * Q * Q);
  dash_t : Q;
  dash_cd : Q;
  inv : Q;
  dash_dir : Z;
  sprint : bool;
  crouch : bool;
  dash_lock : bool;
  shift_held_prev : bool;
  dash_unlocked : bool;
  skid_t : Q;
  skid_dir : Z;
  visual_tilt : Q;
  crouch_slide_t : Q;
  crouch_slide_decel : Q;
  crouch_slide_dir : Z;
  coins : Z;
  power_flash : Q
}.

(** Attribute assignment [self.f = v], one setter per assigned attribute. *)

Definition with_x (v : Q) (p : t) : t :=
  mk v (p.(y)) (p.(w)) (p.(h_stand)) (p.(h_crouch)) (p.(h)) (p.(form)) (p.(vx)) (p.(vy))
     (p.(on_ground)) (p.(since_ground)) (p.(jump_buf)) (p.(facing)) (p.(trail)) (p.(dash_t))
     (p.(dash_cd)) (p.(inv)) (p.(dash_dir)) (p.(sprint)) (p.(crouch)) (p.(dash_lock))
     (p.(shift_held_prev)) (p.(dash_unlocked)) (p.(skid_t)) (p.(skid_dir)) (p.(visual_tilt))
     (p.(crouch_slide_t)) (p.(crouch_slide_decel)) (p.(crouch_slide_dir)) (p.(coins))
     (p.(power_flash)).
Definition with_y (v : Q) (p : t) : t :=
  mk (p.(x)) v (p.(w)) (p.(h_stand)) (p.(h_crouch)) (p.(h)) (p.(form)) (p.(vx)) (p.(vy))
     (p.(on_ground)) (p.(since_ground)) (p.(jump_buf)) (p.(facing)) (p.(trail)) (p.(dash_t))
     (p.(dash_cd)) (p.(inv)) (p.(dash_dir)) (p.(sprint)) (p.(crouch)) (p.(dash_lock))
     (p.(shift_held_prev)) (p.(dash_unlocked)) (p.(skid_t)) (p.(skid_dir)) (p.(visual_tilt))
     (p.(crouch_slide_t)) (p.(crouch_slide_decel)) (p.(crouch_slide_dir)) (p.(coins))
     (p.(power_flash)).
Definition with_h_stand (v : Z) (p : t) : t :=
  mk (p.(x)) (p.(y)) (p.(w)) v (p.(h_crouch)) (p.(h)) (p.(form)) (p.(vx)) (p.(vy)) (p.(on_ground))
     (p.(since_ground)) (p.(jump_buf)) (p.(facing)) (p.(trail)) (p.(dash_t)) (p.(dash_cd))
     (p.(inv)) (p.(dash_dir)) (p.(sprint)) (p.(crouch)) (p.(dash_lock)) (p.(shift_held_prev))
     (p.(dash_unlocked)) (p.(skid_t)) (p.(skid_dir)) (p.(visual_tilt)) (p.(crouch_slide_t))
     (p.(crouch_slide_decel)) (p.(crouch_slide_dir)) (p.(coins)) (p.(power_flash)).
Definition with_h_crouch (v : Z) (p : t) : t :=
  mk (p.(x)) (p.(y)) (p.(w)) (p.(h_stand)) v (p.(h)) (p.(form)) (p.(vx)) (p.(vy)) (p.(on_ground))
     (p.(since_ground)) (p.(jump_buf)) (p.(facing)) (p.(trail)) (p.(dash_t)) (p.(dash_cd))
     (p.(inv)) (p.(dash_dir)) (p.(sprint)) (p.(crouch)) (p.(dash_lock)) (p.(shift_held_prev))
     (p.(dash_unlocked)) (p.(skid_t)) (p.(skid_dir)) (p.(visual_tilt)) (p.(crouch_slide_t))
     (p.(crouch_slide_decel)) (p.(crouch_slide_dir)) (p.(coins)) (p.(power_flash)).
Definition with_h (v : Z) (p : t) : t :=
  mk (p.(x)) (p.(y)) (p.(w)) (p.(h_stand)) (p.(h_crouch)) v (p.(form)) (p.(vx)) (p.(vy))
     (p.(on_ground)) (p.(since_ground)) (p.(jump_buf)) (p.(facing)) (p.(trail)) (p.(dash_t))
     (p.(dash_cd)) (p.(inv)) (p.(dash_dir)) (p.(sprint)) (p.(crouch)) (p.(dash_lock))
     (p.(shift_held_prev)) (p.(dash_unlocked)) (p.(skid_t)) (p.(skid_dir)) (p.(visual_tilt))
     (p.(crouch_slide_t)) (p.(crouch_slide_decel)) (p.(crouch_slide_dir)) (p.(coins))
     (p.(power_flash)).
Definition with_form (v : Form) (p : t) : t :=
  mk (p.(x)) (p.(y)) (p.(w)) (p.(h_stand)) (p.(h_crouch)) (p.(h)) v (p.(vx)) (p.(vy))
     (p.(on_ground)) (p.(since_ground)) (p.(jump_buf)) (p.(facing)) (p.(trail)) (p.(dash_t))
     (p.(dash_cd)) (p.(inv)) (p.(dash_dir)) (p.(sprint)) (p.(crouch)) (p.(dash_lock))
     (p.(shift_held_prev)) (p.(dash_unlocked)) (p.(skid_t)) (p.(skid_dir)) (p.(visual_tilt))
     (p.(crouch_slide_t)) (p.(crouch_slide_decel)) (p.(crouch_slide_dir)) (p.(coins))
     (p.(power_flash)).
Definition with_vx (v : Q) (p : t) : t :=
  mk (p.(x)) (p.(y)) (p.(w)) (p.(h_stand)) (p.(h_crouch)) (p.(h)) (p.(form)) v (p.(vy))
     (p.(on_ground)) (p.(since_ground)) (p.(jump_buf)) (p.(facing)) (p.(trail)) (p.(dash_t))
     (p.(dash_cd)) (p.(inv)) (p.(dash_dir)) (p.(sprint)) (p.(crouch)) (p.(dash_lock))
     (p.(shift_held_prev)) (p.(dash_unlocked)) (p.(skid_t)) (p.(skid_dir)) (p.(visual_tilt))
     (p.(crouch_slide_t)) (p.(crouch_slide_decel)) (p.(crouch_slide_dir)) (p.(coins))
     (p.(power_flash)).
Definition with_vy (v : Q) (p : t) : t :=
  mk (p.(x)) (p.(y)) (p.(w)) (p.(h_stand)) (p.(h_crouch)) (p.(h)) (p.(form)) (p.(vx)) v
     (p.(on_ground)) (p.(since_ground)) (p.(jump_buf)) (p.(facing)) (p.(trail)) (p.(dash_t))
     (p.(dash_cd)) (p.(inv)) (p.(dash_dir)) (p.(sprint)) (p.(crouch)) (p.(dash_lock))
     (p.(shift_held_prev)) (p.(dash_unlocked)) (p.(skid_t)) (p.(skid_dir)) (p.(visual_tilt))
     (p.(crouch_slide_t)) (p.(crouch_slide_decel)) (p.(crouch_slide_dir)) (p.(coins))
     (p.(power_flash)).
Definition with_on_ground (v : bool) (p : t) : t :=
  mk (p.(x)) (p.(y)) (p.(w)) (p.(h_stand)) (p.(h_crouch)) (p.(h)) (p.(form)) (p.(vx)) (p.(vy)) v
     (p.(since_ground)) (p.(jump_buf)) (p.(facing)) (p.(trail)) (p.(dash_t)) (p.(dash_cd))
     (p.(inv)) (p.(dash_dir)) (p.(sprint)) (p.(crouch)) (p.(dash_lock)) (p.(shift_held_prev))
     (p.(dash_unlocked)) (p.(skid_t)) (p.(skid_dir)) (p.(visual_tilt)) (p.(crouch_slide_t))
     (p.(crouch_slide_decel)) (p.(crouch_slide_dir)) (p.(coins)) (p.(power_flash)).
Definition with_since_ground (v : Q) (p : t) : t :=
  mk (p.(x)) (p.(y)) (p.(w)) (p.(h_stand)) (p.(h_crouch)) (p.(h)) (p.(form)) (p.(vx)) (p.(vy))
     (p.(on_ground)) v (p.(jump_buf)) (p.(facing)) (p.(trail)) (p.(dash_t)) (p.(dash_cd))
     (p.(inv)) (p.(dash_dir)) (p.(sprint)) (p.(crouch)) (p.(dash_lock)) (p.(shift_held_prev))
     (p.(dash_unlocked)) (p.(skid_t)) (p.(skid_dir)) (p.(visual_tilt)) (p.(crouch_slide_t))
     (p.(crouch_slide_decel)) (p.(crouch_slide_dir)) (p.(coins)) (p.(power_flash)).
Definition with_jump_buf (v : Q) (p : t) : t :=
  mk (p.(x)) (p.(y)) (p.(w)) (p.(h_stand)) (p.(h_crouch)) (p.(h)) (p.(form)) (p.(vx)) (p.(vy))
     (p.(on_ground)) (p.(since_ground)) v (p.(facing)) (p.(trail)) (p.(dash_t)) (p.(dash_cd))
     (p.(inv)) (p.(dash_dir)) (p.(sprint)) (p.(crouch)) (p.(dash_lock)) (p.(shift_held_prev))
     (p.(dash_unlocked)) (p.(skid_t)) (p.(skid_dir)) (p.(visual_tilt)) (p.(crouch_slide_t))
     (p.(crouch_slide_decel)) (p.(crouch_slide_dir)) (p.(coins)) (p.(power_flash)).
Definition with_facing (v : Z) (p : t) : t :=
  mk (p.(x)) (p.(y)) (p.(w)) (p.(h_stand)) (p.(h_crouch)) (p.(h)) (p.(form)) (p.(vx)) (p.(vy))
     (p.(on_ground)) (p.(since_ground)) (p.(jump_buf)) v (p.(trail)) (p.(dash_t)) (p.(dash_cd))
     (p.(inv)) (p.(dash_dir)) (p.(sprint)) (p.(crouch)) (p.(dash_lock)) (p.(shift_held_prev))
     (p.(dash_unlocked)) (p.(skid_t)) (p.(skid_dir)) (p.(visual_tilt)) (p.(crouch_slide_t))
     (p.(crouch_slide_decel)) (p.(crouch_slide_dir)) (p.(coins)) (p.(power_flash)).
Definition with_trail (v : list (Q * Q * Q)) (p : t) : t :=
  mk (p.(x)) (p.(y)) (p.(w)) (p.(h_stand)) (p.(h_crouch)) (p.(h)) (p.(form)) (p.(vx)) (p.(vy))
     (p.(on_ground)) (p.(since_ground)) (p.(jump_buf)) (p.(facing)) v (p.(dash_t)) (p.(dash_cd))
     (p.(inv)) (p.(dash_dir)) (p.(sprint)) (p.(crouch)) (p.(dash_lock)) (p.(shift_held_prev))
     (p.(dash_unlocked)) (p.(skid_t)) (p.(skid_dir)) (p.(visual_tilt)) (p.(crouch_slide_t))
     (p.(crouch_slide_decel)) (p.(crouch_slide_dir)) (p.(coins)) (p.(power_flash)).
Definition with_dash_t (v : Q) (p : t) : t :=
  mk (p.(x)) (p.(y)) (p.(w)) (p.(h_stand)) (p.(h_crouch)) (p.(h)) (p.(form)) (p.(vx)) (p.(vy))
     (p.(on_ground)) (p.(since_ground)) (p.(jump_buf)) (p.(facing)) (p.(trail)) v (p.(dash_cd))
     (p.(inv)) (p.(dash_dir)) (p.(sprint)) (p.(crouch)) (p.(dash_lock)) (p.(shift_held_prev))
     (p.(dash_unlocked)) (p.(skid_t)) (p.(skid_dir)) (p.(visual_tilt)) (p.(crouch_slide_t))
     (p.(crouch_slide_decel)) (p.(crouch_slide_dir)) (p.(coins)) (p.(power_flash)).
Definition with_dash_cd (v : Q) (p : t) : t :=
  mk (p.(x)) (p.(y)) (p.(w)) (p.(h_stand)) (p.(h_crouch)) (p.(h)) (p.(form)) (p.(vx)) (p.(vy))
     (p.(on_ground)) (p.(since_ground)) (p.(jump_buf)) (p.(facing)) (p.(trail)) (p.(dash_t)) v
     (p.(inv)) (p.(dash_dir)) (p.(sprint)) (p.(crouch)) (p.(dash_lock)) (p.(shift_held_prev))
     (p.(dash_unlocked)) (p.(skid_t)) (p.(skid_dir)) (p.(visual_tilt)) (p.(crouch_slide_t))
     (p.(crouch_slide_decel)) (p.(crouch_slide_dir)) (p.(coins)) (p.(power_flash)).
Definition with_inv (v : Q) (p : t) : t :=
  mk (p.(x)) (p.(y)) (p.(w)) (p.(h_stand)) (p.(h_crouch)) (p.(h)) (p.(form)) (p.(vx)) (p.(vy))
     (p.(on_ground)) (p.(since_ground)) (p.(jump_buf)) (p.(facing)) (p.(trail)) (p.(dash_t))
     (p.(dash_cd)) v (p.(dash_dir)) (p.(sprint)) (p.(crouch)) (p.(dash_lock))
     (p.(shift_held_prev)) (p.(dash_unlocked)) (p.(skid_t)) (p.(skid_dir)) (p.(visual_tilt))
     (p.(crouch_slide_t)) (p.(crouch_slide_decel)) (p.(crouch_slide_dir)) (p.(coins))
     (p.(power_flash)).
Definition with_dash_dir (v : Z) (p : t) : t :=
  mk (p.(x)) (p.(y)) (p.(w)) (p.(h_stand)) (p.(h_crouch)) (p.(h)) (p.(form)) (p.(vx)) (p.(vy))
     (p.(on_ground)) (p.(since_ground)) (p.(jump_buf)) (p.(facing)) (p.(trail)) (p.(dash_t))
     (p.(dash_cd)) (p.(inv)) v (p.(sprint)) (p.(crouch)) (p.(dash_lock)) (p.(shift_held_prev))
     (p.(dash_unlocked)) (p.(skid_t)) (p.(skid_dir)) (p.(visual_tilt)) (p.(crouch_slide_t))
     (p.(crouch_slide_decel)) (p.(crouch_slide_dir)) (p.(coins)) (p.(power_flash)).
Definition with_sprint (v : bool) (p : t) : t :=
  mk (p.(x)) (p.(y)) (p.(w)) (p.(h_stand)) (p.(h_crouch)) (p.(h)) (p.(form)) (p.(vx)) (p.(vy))
     (p.(on_ground)) (p.(since_ground)) (p.(jump_buf)) (p.(facing)) (p.(trail)) (p.(dash_t))
     (p.(dash_cd)) (p.(inv)) (p.(dash_dir)) v (p.(crouch)) (p.(dash_lock)) (p.(shift_held_prev))
     (p.(dash_unlocked)) (p.(skid_t)) (p.(skid_dir)) (p.(visual_tilt)) (p.(crouch_slide_t))
     (p.(crouch_slide_decel)) (p.(crouch_slide_dir)) (p.(coins)) (p.(power_flash)).
Definition with_crouch (v : bool) (p : t) : t :=
  mk (p.(x)) (p.(y)) (p.(w)) (p.(h_stand)) (p.(h_crouch)) (p.(h)) (p.(form)) (p.(vx)) (p.(vy))
     (p.(on_ground)) (p.(since_ground)) (p.(jump_buf)) (p.(facing)) (p.(trail)) (p.(dash_t))
     (p.(dash_cd)) (p.(inv)) (p.(dash_dir)) (p.(sprint)) v (p.(dash_lock)) (p.(shift_held_prev))
     (p.(dash_unlocked)) (p.(skid_t)) (p.(skid_dir)) (p.(visual_tilt)) (p.(crouch_slide_t))
     (p.(crouch_slide_decel)) (p.(crouch_slide_dir)) (p.(coins)) (p.(power_flash)).
Definition with_dash_lock (v : bool) (p : t) : t :=
  mk (p.(x)) (p.(y)) (p.(w)) (p.(h_stand)) (p.(h_crouch)) (p.(h)) (p.(form)) (p.(vx)) (p.(vy))
     (p.(on_ground)) (p.(since_ground)) (p.(jump_buf)) (p.(facing)) (p.(trail)) (p.(dash_t))
     (p.(dash_cd)) (p.(inv)) (p.(dash_dir)) (p.(sprint)) (p.(crouch)) v (p.(shift_held_prev))
     (p.(dash_unlocked)) (p.(skid_t)) (p.(skid_dir)) (p.(visual_tilt)) (p.(crouch_slide_t))
     (p.(crouch_slide_decel)) (p.(crouch_slide_dir)) (p.(coins)) (p.(power_flash)).
Definition with_dash_unlocked (v : bool) (p : t) : t :=
  mk (p.(x)) (p.(y)) (p.(w)) (p.(h_stand)) (p.(h_crouch)) (p.(h)) (p.(form)) (p.(vx)) (p.(vy))
     (p.(on_ground)) (p.(since_ground)) (p.(jump_buf)) (p.(facing)) (p.(trail)) (p.(dash_t))
     (p.(dash_cd)) (p.(inv)) (p.(dash_dir)) (p.(sprint)) (p.(crouch)) (p.(dash_lock))
     (p.(shift_held_prev)) v (p.(skid_t)) (p.(skid_dir)) (p.(visual_tilt)) (p.(crouch_slide_t))
     (p.(crouch_slide_decel)) (p.(crouch_slide_dir)) (p.(coins)) (p.(power_flash)).
Definition with_skid_t (v : Q) (p : t) : t :=
  mk (p.(x)) (p.(y)) (p.(w)) (p.(h_stand)) (p.(h_crouch)) (p.(h)) (p.(form)) (p.(vx)) (p.(vy))
     (p.(on_ground)) (p.(since_ground)) (p.(jump_buf)) (p.(facing)) (p.(trail)) (p.(dash_t))
     (p.(dash_cd)) (p.(inv)) (p.(dash_dir)) (p.(sprint)) (p.(crouch)) (p.(dash_lock))
     (p.(shift_held_prev)) (p.(dash_unlocked)) v (p.(skid_dir)) (p.(visual_tilt))
     (p.(crouch_slide_t)) (p.(crouch_slide_decel)) (p.(crouch_slide_dir)) (p.(coins))
     (p.(power_flash)).
Definition with_skid_dir (v : Z) (p : t) : t :=
  mk (p.(x)) (p.(y)) (p.(w)) (p.(h_stand)) (p.(h_crouch)) (p.(h)) (p.(form)) (p.(vx)) (p.(vy))
     (p.(on_ground)) (p.(since_ground)) (p.(jump_buf)) (p.(facing)) (p.(trail)) (p.(dash_t))
     (p.(dash_cd)) (p.(inv)) (p.(dash_dir)) (p.(sprint)) (p.(crouch)) (p.(dash_lock))
     (p.(shift_held_prev)) (p.(dash_unlocked)) (p.(skid_t)) v (p.(visual_tilt))
     (p.(crouch_slide_t)) (p.(crouch_slide_decel)) (p.(crouch_slide_dir)) (p.(coins))
     (p.(power_flash)).
Definition with_visual_tilt (v : Q) (p : t) : t :=
  mk (p.(x)) (p.(y)) (p.(w)) (p.(h_stand)) (p.(h_crouch)) (p.(h)) (p.(form)) (p.(vx)) (p.(vy))
     (p.(on_ground)) (p.(since_ground)) (p.(jump_buf)) (p.(facing)) (p.(trail)) (p.(dash_t))
     (p.(dash_cd)) (p.(inv)) (p.(dash_dir)) (p.(sprint)) (p.(crouch)) (p.(dash_lock))
     (p.(shift_held_prev)) (p.(dash_unlocked)) (p.(skid_t)) (p.(skid_dir)) v (p.(crouch_slide_t))
     (p.(crouch_slide_decel)) (p.(crouch_slide_dir)) (p.(coins)) (p.(power_flash)).
Definition with_crouch_slide_t (v : Q) (p : t) : t :=
  mk (p.(x)) (p.(y)) (p.(w)) (p.(h_stand)) (p.(h_crouch)) (p.(h)) (p.(form)) (p.(vx)) (p.(vy))
     (p.(on_ground)) (p.(since_ground)) (p.(jump_buf)) (p.(facing)) (p.(trail)) (p.(dash_t))
     (p.(dash_cd)) (p.(inv)) (p.(dash_dir)) (p.(sprint)) (p.(crouch)) (p.(dash_lock))
     (p.(shift_held_prev)) (p.(dash_unlocked)) (p.(skid_t)) (p.(skid_dir)) (p.(visual_tilt)) v
     (p.(crouch_slide_decel)) (p.(crouch_slide_dir)) (p.(coins)) (p.(power_flash)).
Definition with_crouch_slide_decel (v : Q) (p : t) : t :=
  mk (p.(x)) (p.(y)) (p.(w)) (p.(h_stand)) (p.(h_crouch)) (p.(h)) (p.(form)) (p.(vx)) (p.(vy))
     (p.(on_ground)) (p.(since_ground)) (p.(jump_buf)) (p.(facing)) (p.(trail)) (p.(dash_t))
     (p.(dash_cd)) (p.(inv)) (p.(dash_dir)) (p.(sprint)) (p.(crouch)) (p.(dash_lock))
     (p.(shift_held_prev)) (p.(dash_unlocked)) (p.(skid_t)) (p.(skid_dir)) (p.(visual_tilt))
     (p.(crouch_slide_t)) v (p.(crouch_slide_dir)) (p.(coins)) (p.(power_flash)).
Definition with_crouch_slide_dir (v : Z) (p : t) : t :=
  mk (p.(x)) (p.(y)) (p.(w)) (p.(h_stand)) (p.(h_crouch)) (p.(h)) (p.(form)) (p.(vx)) (p.(vy))
     (p.(on_ground)) (p.(since_ground)) (p.(jump_buf)) (p.(facing)) (p.(trail)) (p.(dash_t))
     (p.(dash_cd)) (p.(inv)) (p.(dash_dir)) (p.(sprint)) (p.(crouch)) (p.(dash_lock))
     (p.(shift_held_prev)) (p.(dash_unlocked)) (p.(skid_t)) (p.(skid_dir)) (p.(visual_tilt))
     (p.(crouch_slide_t)) (p.(crouch_slide_decel)) v (p.(coins)) (p.(power_flash)).
Definition with_coins (v : Z) (p : t) : t :=
  mk (p.(x)) (p.(y)) (p.(w)) (p.(h_stand)) (p.(h_crouch)) (p.(h)) (p.(form)) (p.(vx)) (p.(vy))
     (p.(on_ground)) (p.(since_ground)) (p.(jump_buf)) (p.(facing)) (p.(trail)) (p.(dash_t))
     (p.(dash_cd)) (p.(inv)) (p.(dash_dir)) (p.(sprint)) (p.(crouch)) (p.(dash_lock))
     (p.(shift_held_prev)) (p.(dash_unlocked)) (p.(skid_t)) (p.(skid_dir)) (p.(visual_tilt))
     (p.(crouch_slide_t)) (p.(crouch_slide_decel)) (p.(crouch_slide_dir)) v (p.(power_flash)).
Definition with_power_flash (v : Q) (p : t) : t :=
  mk (p.(x)) (p.(y)) (p.(w)) (p.(h_stand)) (p.(h_crouch)) (p.(h)) (p.(form)) (p.(vx)) (p.(vy))
     (p.(on_ground)) (p.(since_ground)) (p.(jump_buf)) (p.(facing)) (p.(trail)) (p.(dash_t))
     (p.(dash_cd)) (p.(inv)) (p.(dash_dir)) (p.(sprint)) (p.(crouch)) (p.(dash_lock))
     (p.(shift_held_prev)) (p.(dash_unlocked)) (p.(skid_t)) (p.(skid_dir)) (p.(visual_tilt))
     (p.(crouch_slide_t)) (p.(crouch_slide_decel)) (p.(crouch_slide_dir)) (p.(coins)) v.

(** [Player.__init__], lines 167-204. *)
Definition init (x0 y0 : Q) : t :=
  mk x0 y0 36 H_STAND H_CROUCH H_STAND small
     0 0 false 0 0 1 []
     0 0 0 0 false false false false false
     0 0 0 0 CROUCH_SLIDE_DECEL_BASE 0 0 0.

(** The [rect] property, line 208. *)
Definition rect (p : t) : Rect :=
  mkRect (py_int (p.(x) - inject_Z p.(w) / 2)) (py_int (p.(y) - inject_Z p.(h)))
         p.(w) p.(h).

(** [add_trail], line 210. *)
Definition add_trail (p : t) : t :=
  with_trail (deque_append 12 p.(trail) (p.(x), p.(y), 7 # 10)) p.

(** [input_axis], lines 212-217: returns the axis and updates [facing]. *)
Definition input_axis (keys : Keys) (p : t) : Q * t :=
  let go_left := K_a keys || K_LEFT keys in
  let go_right := K_d keys || K_RIGHT keys in
  let ax := ((if go_left then - (1) else 0) + (if go_right then 1 else 0))%Q in
  (ax, if negb (Qeq_bool ax 0)
       then with_facing (if Qlt_bool 0 ax then 1 else -1) p
       else p).

(** The hitbox of the given height at the player's feet (lines 220 and 230). *)
Definition rect_of_height (height : Z) (p : t) : Rect :=
  mkRect (py_int (p.(x) - inject_Z p.(w) / 2)) (py_int (p.(y) - inject_Z height))
         p.(w) height.

(** The loop shared by [_can_stand] and [_rect_fits]: no tile of the query
    both blocks and collides with the hitbox. *)
Definition no_blocker (box : Rect) (tiles : list (Z * Z * ascii)) : bool :=
  negb (existsb (fun '(tx, ty, ch) => blocks ch && colliderect box (tile_rect tx ty)) tiles).

(** [_can_stand], lines 219-225. *)
Definition _can_stand (tilemap : Tilemap) (p : t) : option bool :=
  let stand_rect := rect_of_height p.(h_stand) p in
  let* tiles := tiles_in_aabb tilemap (inflate stand_rect (-8) (-2)) in
  Some (no_blocker stand_rect tiles).

(** [_rect_fits], lines 227-235; [tilemap] may be Python's [None]. *)
Definition _rect_fits (tilemap : option Tilemap) (height : Z) (p : t) : option bool :=
  match tilemap with
  | None => Some true
  | Some tm =>
      let box := rect_of_height height p in
      let* tiles := tiles_in_aabb tm (inflate box (-8) (-2)) in
      Some (no_blocker box tiles)
  end.

(** [set_form], lines 237-262: the returned flag and the updated player. *)
Definition set_form (new_form : Form) (tilemap : option Tilemap) (p : t)
  : option (bool * t) :=
  if Form_eqb new_form p.(form) then Some (true, p)
  else match new_form with
  | big =>
      let* can_stand := _rect_fits tilemap H_STAND_BIG p in
      let* fits_low := (if can_stand then Some true
                        else _rect_fits tilemap H_CROUCH_BIG p) in
      if negb can_stand && negb fits_low then Some (false, p)
      else
        let p1 := with_h_crouch H_CROUCH_BIG (with_h_stand H_STAND_BIG (with_form big p)) in
        if can_stand && negb p1.(crouch)
        then Some (true, with_h p1.(h_stand) p1)
        else Some (true, with_h p1.(h_crouch) (with_crouch true p1))
  | small =>
      let p1 := with_h_crouch H_CROUCH (with_h_stand H_STAND (with_form small p)) in
      let* p2 := (if p1.(crouch)
                  then let* fits := _rect_fits tilemap p1.(h_crouch) p1 in
                       Some (if negb fits then with_crouch false p1 else p1)
                  else Some p1) in
      let* p3 := (if negb p2.(crouch)
                  then let* fits := _rect_fits tilemap p2.(h_stand) p2 in
                       Some (if negb fits then with_crouch true p2 else p2)
                  else Some p2) in
      Some (true, with_h (if p3.(crouch) then p3.(h_crouch) else p3.(h_stand)) p3)
  end.

(** [collect_powerup], lines 264-279. *)
Definition collect_powerup (kind : string) (tilemap : Tilemap) (p : t)
  : option (bool * t) :=
  if String.eqb kind "mushroom" then
    let already_big := Form_eqb p.(form) big in
    let* (grew, p1) := set_form big (Some tilemap) p in
    if grew then
      let p2 := with_power_flash (if negb already_big then 6 # 10 else 3 # 10) p1 in
      Some (grew, with_inv (Qmax p2.(inv) (4 # 10)) p2)
    else Some (grew, p1)
  else Some (false, p).

(** [take_damage], lines 281-296: [true] means the hit is lethal. *)
Definition take_damage (tilemap : Tilemap) (p : t) : option (bool * t) :=
  if Qlt_bool 0 p.(inv) then Some (false, p)
  else if Form_eqb p.(form) big then
    let* (_, p1) := set_form small (Some tilemap) p in
    let p2 := with_inv (Qmax p1.(inv) (12 # 10)) p1 in
    let p3 := with_power_flash 0 p2 in
    Some (false, with_vy (Qmin p3.(vy) (- (260))) p3)
  else Some (true, p).

(** [_set_crouch], lines 298-305. *)
Definition _set_crouch (want_crouch : bool) (tilemap : Tilemap) (p : t) : option t :=
  if want_crouch && negb p.(crouch) then
    Some (with_crouch true (with_h p.(h_crouch) p))
  else if negb want_crouch && p.(crouch) then
    let* ok := _can_stand tilemap p in
    if ok then Some (with_crouch false (with_h p.(h_stand) p))
    else Some (with_crouch true p)
  else Some p.

(** [try_jump], lines 307-312. *)
Definition try_jump (p : t) : bool * t :=
  if (p.(on_ground) || Qle_bool p.(since_ground) COYOTE_TIME) && Qlt_bool 0 p.(jump_buf)
  then
    let p1 := with_vy (JUMP_VEL * (if p.(sprint) then SPRINT_JUMP_MULT else 1)) p in
    (true, with_jump_buf 0 (with_since_ground 999 (with_on_ground false p1)))
  else (false, p).

(** [start_dash], lines 314-319. *)
Definition start_dash (p : t) : t :=
  let p1 := with_inv INVINCIBLE_ON_DASH (with_dash_cd DASH_COOLDOWN (with_dash_t DASH_TIME p)) in
  let p2 := with_dash_dir (if negb (p1.(facing) =? 0) then p1.(facing) else 1) p1 in
  let p3 := with_vx (inject_Z p2.(dash_dir) * DASH_SPEED) p2 in
  let p4 := if Qlt_bool 0 p3.(vy) then with_vy 0 p3 else p3 in
  with_sprint false p4.

End Player.

(** ** class MushroomItem, app.py lines 546-566 (constructor and hitbox) *)

Inductive ItemState : Type := emerging | active.

Module MushroomItem.

Record t : Type := mk {
  x : Q;
  w : Z;
  h : Z;
  target_y : Q;
  y : Q;
  vx : Q;
  vy : Q;
  direction : Z;
  state : ItemState;
  remove : bool
}.

(** [MushroomItem.__init__], lines 552-562. *)
Definition init (x0 : Q) (block_top : Z) (dir : Z) : t :=
  mk x0 40 40 (inject_Z block_top) (inject_Z (block_top + 40)) 0 0
     (if 0 <=? dir then 1 else -1) emerging false.

Definition with_remove (v : bool) (i : t) : t :=
  mk i.(x) i.(w) i.(h) i.(target_y) i.(y) i.(vx) i.(vy) i.(direction) i.(state) v.

(** The [rect] property, line 566. *)
Definition rect (i : t) : Rect :=
  mkRect (py_int (i.(x) - inject_Z i.(w) / 2)) (py_int (i.(y) - inject_Z i.(h)))
         i.(w) i.(h).

End MushroomItem.

(** ** class Game: session state and the two grid callbacks *)

Inductive SessionState : Type := RUN | DEAD | WIN.

(** [tilemap[ty][tx]]. *)
Definition grid_get (tm : Tilemap) (tx ty : Z) : option ascii :=
  let* row := py_index tm ty in
  py_index row tx.

(** [tilemap[ty][tx] = v]; every row is a list of its own. *)
Definition grid_set (tm : Tilemap) (tx ty : Z) (v : ascii) : option Tilemap :=
  let* row := py_index tm ty in
  let* row' := py_setitem row tx v in
  py_setitem tm ty row'.

Module Game.

(** The attributes of [Game] that the modelled code reads or writes. *)
Record t : Type := mk {
  tilemap : Tilemap;
  player : Player.t;
  items : list MushroomItem.t;
  coins_got : Z;
  state : SessionState;
  _jp_last : bool;
  _sh_last : bool;
  _cr_last : bool
}.

Definition with_tilemap (v : Tilemap) (g : t) : t :=
  mk v g.(player) g.(items) g.(coins_got) g.(state) g.(_jp_last) g.(_sh_last) g.(_cr_last).
Definition with_player (v : Player.t) (g : t) : t :=
  mk g.(tilemap) v g.(items) g.(coins_got) g.(state) g.(_jp_last) g.(_sh_last) g.(_cr_last).
Definition with_items (v : list MushroomItem.t) (g : t) : t :=
  mk g.(tilemap) g.(player) v g.(coins_got) g.(state) g.(_jp_last) g.(_sh_last) g.(_cr_last).
Definition with_coins_got (v : Z) (g : t) : t :=
  mk g.(tilemap) g.(player) g.(items) v g.(state) g.(_jp_last) g.(_sh_last) g.(_cr_last).
Definition with_state (v : SessionState) (g : t) : t :=
  mk g.(tilemap) g.(player) g.(items) g.(coins_got) v g.(_jp_last) g.(_sh_last) g.(_cr_last).
Definition with_last (jp sh cr : bool) (g : t) : t :=
  mk g.(tilemap) g.(player) g.(items) g.(coins_got) g.(state) jp sh cr.

(** [destroy_gate], lines 831-833.  The indices are not range-checked. *)
Definition destroy_gate (tx ty : Z) (g : t) : option t :=
  let* current := grid_get g.(tilemap) tx ty in
  if Ascii.eqb current "|" then
    let* tm := grid_set g.(tilemap) tx ty " " in
    Some (with_tilemap tm g)
  else Some g.

(** [hit_block], lines 835-879.  Its [player] argument is the session's own
    player (the only call site passes [self] of [Game.player.update]). *)
Definition hit_block (tx ty : Z) (ch : ascii) (g : t) : option t :=
  if (ty <? 0) || (ty >=? Z.of_nat (List.length g.(tilemap))) then Some g
  else
    let* row0 := py_index g.(tilemap) 0 in
    if (tx <? 0) || (tx >=? Z.of_nat (List.length row0)) then Some g
    else
      let* current := grid_get g.(tilemap) tx ty in
      if negb (Ascii.eqb current ch) then Some g
      else
        let spawn_x := (inject_Z (tx * TILE) + inject_Z TILE / 2)%Q in
        let block_top := ty * TILE in
        if Ascii.eqb ch "B" then
          let* tm := grid_set g.(tilemap) tx ty "X" in
          let dir := if Qle_bool spawn_x (Player.x g.(player)) then -1 else 1 in
          Some (with_items (g.(items) ++ [MushroomItem.init spawn_x block_top dir])
                  (with_tilemap tm g))
        else if Ascii.eqb ch "Q" then
          let* tm := grid_set g.(tilemap) tx ty "X" in
          let g1 := with_coins_got (g.(coins_got) + 1) (with_tilemap tm g) in
          Some (with_player (Player.with_coins (Player.coins g1.(player) + 1) g1.(player)) g1)
        else if Ascii.eqb ch "S" then
          if negb (Form_eqb (Player.form g.(player)) big) then Some g
          else
            let* tm := grid_set g.(tilemap) tx ty " " in
            Some (with_tilemap tm g)
        else Some g.

End Game.

(** ** Player.update, app.py lines 330-508

    The method is cut into its commented stages; [Player_update] chains them
    in source order.  The callbacks are bound as at the call site (line 912):
    [destroy_gate_cb = Game.destroy_gate], [hit_block_cb = Game.hit_block],
    and [tilemap] is the session's grid. *)

Local Open Scope Q_scope.

(** Lines 339-347: fade the dash trail. *)
Definition decay_trail (dt : Q) (p : Player.t) : Player.t :=
  match Player.trail p with
  | [] => p
  | _ :: _ =>
      let decay := (35 # 10) * dt in
      Player.with_trail
        (fold_left
           (fun acc '(tx, ty, alpha) =>
              let alpha' := alpha - decay in
              if Qlt_bool 0 alpha' then deque_append 12 acc (tx, ty, alpha') else acc)
           (Player.trail p) [])
        p
  end.

(** Lines 331-347: timers. *)
Definition tick_timers (dt : Q) (p : Player.t) : Player.t :=
  let p := if Qlt_bool (Player.since_ground p) 10
           then Player.with_since_ground (Player.since_ground p + dt) p else p in
  let p := if Qlt_bool 0 (Player.jump_buf p)
           then Player.with_jump_buf (Player.jump_buf p - dt) p else p in
  let p := if Qlt_bool 0 (Player.dash_t p)
           then Player.with_dash_t (Player.dash_t p - dt) p else p in
  let p := if Qlt_bool 0 (Player.dash_cd p)
           then Player.with_dash_cd (Player.dash_cd p - dt) p else p in
  let p := if Qlt_bool 0 (Player.inv p)
           then Player.with_inv (Player.inv p - dt) p else p in
  let p := if Qlt_bool 0 (Player.skid_t p)
           then Player.with_skid_t (Player.skid_t p - dt) p else p in
  let p := if Qlt_bool 0 (Player.crouch_slide_t p)
           then Player.with_crouch_slide_t (Player.crouch_slide_t p - dt) p else p in
  let p := if Qlt_bool 0 (Player.power_flash p)
           then Player.with_power_flash (Qmax 0 (Player.power_flash p - dt)) p else p in
  decay_trail dt p.

(** Lines 361-364: crouch, including the forced crouch under a ceiling. *)
Definition resolve_crouch (keys : Keys) (tilemap : Tilemap) (p : Player.t)
  : option Player.t :=
  let want_crouch := Qle_bool (Player.dash_t p) 0 && crouch_held keys in
  let* want_crouch :=
    (if negb want_crouch && Player.crouch p
     then let* ok := Player._can_stand tilemap p in
          Some (if negb ok then true else want_crouch)
     else Some want_crouch) in
  Player._set_crouch want_crouch tilemap p.

(** The condition of lines 367-368. *)
Definition slide_triggers (keys : Keys) (prev_crouch prev_sprint : bool) (p : Player.t)
  : bool :=
  crouch_pressed keys && negb prev_crouch && Player.crouch p && Player.on_ground p
  && prev_sprint && Qle_bool (Player.dash_t p) 0
  && Qle_bool CROUCH_SLIDE_TRIGGER_SPEED (Qabs (Player.vx p)).

(** Lines 369-374: the body of the trigger. *)
Definition start_slide (p : Player.t) : Player.t :=
  let v0 := Qabs (Player.vx p) in
  let a_req := (v0 * v0) / (2 * Qmax 1 CROUCH_SLIDE_MIN_DIST) in
  let p := Player.with_crouch_slide_decel (Qmin CROUCH_SLIDE_DECEL_BASE a_req) p in
  let t_stop := v0 / Qmax 1 (Player.crouch_slide_decel p) in
  let p := Player.with_crouch_slide_t (Qmax CROUCH_SLIDE_TIME_BASE t_stop) p in
  Player.with_crouch_slide_dir (if Qle_bool 0 (Player.vx p) then 1 else -1)%Z p.

(** Lines 367-383: crouch-slide trigger, then the slide forces the crouch. *)
Definition crouch_slide (keys : Keys) (prev_crouch prev_sprint : bool) (p : Player.t)
  : Player.t :=
  let p := if slide_triggers keys prev_crouch prev_sprint p then start_slide p else p in
  if Qlt_bool 0 (Player.crouch_slide_t p)
  then Player.with_crouch true (Player.with_h (Player.h_crouch p) p)
  else p.

(** The condition of lines 386-387; [_can_stand] is evaluated last. *)
Definition dash_triggers (keys : Keys) (tilemap : Tilemap) (p : Player.t) : option bool :=
  if Player.dash_unlocked p && dash_pressed keys && Qle_bool (Player.dash_cd p) 0
     && Qle_bool (Player.dash_t p) 0 && negb (Player.dash_lock p) && negb (Player.crouch p)
  then Player._can_stand tilemap p
  else Some false.

(** Lines 386-388. *)
Definition dash_trigger (keys : Keys) (tilemap : Tilemap) (p : Player.t)
  : option Player.t :=
  let* go := dash_triggers keys tilemap p in
  Some (if go then Player.with_dash_lock true (Player.start_dash p) else p).

(** Lines 391-395: sprint and the release of the dash lock. *)
Definition sprint_hold (keys : Keys) (p : Player.t) : Player.t :=
  let p := if Qle_bool (Player.dash_t p) 0 && shift_held keys && negb (Player.crouch p)
           then Player.with_sprint true p
           else if negb (shift_held keys) || Player.crouch p
                then Player.with_sprint false p else p in
  if negb (shift_held keys) then Player.with_dash_lock false p else p.

(** Lines 398-402: skid on a reversal while sprinting. *)
Definition skid_trigger (input_dir moving_dir : Z) (p : Player.t) : Player.t :=
  if Player.on_ground p && Player.sprint p && Qle_bool (Player.dash_t p) 0
     && negb (input_dir =? 0)%Z && negb (moving_dir =? 0)%Z
     && negb (input_dir =? moving_dir)%Z
     && Qle_bool SKID_TRIGGER_SPEED (Qabs (Player.vx p))
     && Qle_bool (Player.skid_t p) 0
  then Player.with_facing input_dir
         (Player.with_skid_dir moving_dir (Player.with_skid_t SKID_TIME p))
  else p.

(** Lines 405-437: horizontal control. *)
Definition horizontal_control (dt ax : Q) (p : Player.t) : Player.t :=
  if Qlt_bool 0 (Player.dash_t p) then Player.add_trail p
  else
    let accel_base := if Player.on_ground p then ACCEL else AIR_ACCEL in
    let accel_mult := 1 in
    let accel_mult := if Player.sprint p then accel_mult * SPRINT_ACCEL_MULT
                      else accel_mult in
    let accel_mult := if Player.crouch p && Qle_bool (Player.crouch_slide_t p) 0
                      then accel_mult * CROUCH_ACCEL_MULT else accel_mult in
    let accel := accel_base * accel_mult in
    let skidding := Qlt_bool 0 (Player.skid_t p) && Player.on_ground p in
    let accel := if skidding then accel * SKID_ACCEL_MULT else accel in
    let p := if skidding
             then Player.with_vx
                    (Player.vx p
                     - copysign (FRICTION * SKID_FRICTION_MULT * dt) (Player.vx p)) p
             else p in
    if Qlt_bool 0 (Player.crouch_slide_t p) && Player.on_ground p then
      let dec := Player.crouch_slide_decel p * dt in
      if Qle_bool (Qabs (Player.vx p)) dec then Player.with_vx 0 p
      else Player.with_vx (Player.vx p - copysign dec (Player.vx p)) p
    else
      let p := Player.with_vx (Player.vx p + accel * ax * dt) p in
      if Qlt_bool (Qabs ax) (1 # 100) && Player.on_ground p then
        if Qle_bool (Qabs (Player.vx p)) (FRICTION * dt) then Player.with_vx 0 p
        else Player.with_vx
               (Player.vx p - FRICTION * dt * (if Qlt_bool 0 (Player.vx p) then 1 else - (1)))
               p
      else p.

(** Lines 440-444: speed clamp, skipped while dashing. *)
Definition clamp_speed (p : Player.t) : Player.t :=
  let max_speed := MAX_SPEED in
  if Qle_bool (Player.dash_t p) 0 then
    let max_speed := if Player.sprint p then max_speed * SPRINT_SPEED_MULT
                     else max_speed in
    let max_speed := if Player.crouch p && Qle_bool (Player.crouch_slide_t p) 0
                     then max_speed * CROUCH_SPEED_MULT else max_speed in
    Player.with_vx (clamp (Player.vx p) (- max_speed) max_speed) p
  else p.

(** Lines 447-450: gravity, jump buffer, jump cut. *)
Definition gravity_and_jump_input (dt : Q) (keys : Keys) (p : Player.t) : Player.t :=
  let p := Player.with_vy (Player.vy p + GRAVITY * dt) p in
  let p := Player.with_vy (clamp (Player.vy p) (- (9999)) MAX_FALL) p in
  let p := if jump_pressed keys then Player.with_jump_buf JUMP_BUFFER p else p in
  if jump_released keys && Qlt_bool (Player.vy p) 0
  then Player.with_vy (Player.vy p * JUMP_CUT) p else p.

(** Lines 466-468 and 471-473: wall response against one tile. *)
Definition block_x (r tile_r : Rect) (p : Player.t) : Player.t :=
  if colliderect r tile_r then
    let p := if Qlt_bool 0 (Player.vx p)
             then Player.with_x (inject_Z (left tile_r) - inject_Z (Player.w p) / 2) p
             else if Qlt_bool (Player.vx p) 0
                  then Player.with_x (inject_Z (right tile_r) + inject_Z (Player.w p) / 2) p
                  else p in
    Player.with_vx 0 p
  else p.

(** Lines 459-473: the body of the horizontal tile loop. *)
Definition horizontal_tile (r : Rect) (acc : Player.t * option (Z * Z))
  (tile : Z * Z * ascii) : Player.t * option (Z * Z) :=
  let '(p, collided_gate) := acc in
  let '(tx, ty, ch) := tile in
  let tile_r := tile_rect tx ty in
  let '(p, collided_gate) :=
    if Ascii.eqb ch "|" then
      if Qlt_bool 0 (Player.dash_t p) then (p, Some (tx, ty))
      else (block_x r tile_r p, collided_gate)
    else (p, collided_gate) in
  if solid ch then (block_x r tile_r p, collided_gate) else (p, collided_gate).

(** Lines 456-482: horizontal move and collision. *)
Definition move_horizontal (dt : Q) (g : Game.t) : option Game.t :=
  let p := Game.player g in
  let p := Player.with_x (Player.x p + Player.vx p * dt) p in
  let r := Player.rect p in
  let* tiles := tiles_in_aabb (Game.tilemap g) (inflate r 2 (-2)) in
  let '(p, collided_gate) := fold_left (horizontal_tile r) tiles (p, None) in
  let g := Game.with_player p g in
  match collided_gate with
  | Some (gx, gy) => Game.destroy_gate gx gy g
  | None => Some g
  end.

(** Lines 493-504: the body of the vertical tile loop; [r] is the current
    hitbox, refreshed after each snap. *)
Definition vertical_tile (step_dy : Q) (prev_rect : Rect) (acc : Game.t * Rect)
  (tile : Z * Z * ascii) : option (Game.t * Rect) :=
  let '(g, r) := acc in
  let '(tx, ty, ch) := tile in
  let p := Game.player g in
  if Ascii.eqb ch "|" && Qlt_bool 0 (Player.dash_t p) then Some (g, r)
  else if Ascii.eqb ch "|" || solid ch then
    let tile_r := tile_rect tx ty in
    if negb (colliderect r tile_r) then Some (g, r)
    else if Qlt_bool 0 step_dy then
      if (bottom prev_rect <=? top tile_r)%Z && (bottom r >=? top tile_r)%Z then
        let p := Player.with_y (inject_Z (top tile_r)) p in
        let p := Player.with_vy 0 p in
        let p := Player.with_on_ground true p in
        let p := Player.with_since_ground 0 p in
        Some (Game.with_player p g, Player.rect p)
      else Some (g, r)
    else if Qlt_bool step_dy 0 then
      if (top prev_rect >=? bottom tile_r)%Z && (top r <=? bottom tile_r)%Z then
        let p := Player.with_y (inject_Z (bottom tile_r + Player.h p)) p in
        let p := Player.with_vy 0 p in
        let g := Game.with_player p g in
        let r := Player.rect p in
        if existsb (Ascii.eqb ch) ["B"; "S"; "Q"]%char then
          let* g := Game.hit_block tx ty ch g in
          Some (g, r)
        else Some (g, r)
      else Some (g, r)
    else Some (g, r)
  else Some (g, r).

Fixpoint vertical_tiles (step_dy : Q) (prev_rect : Rect) (acc : Game.t * Rect)
  (tiles : list (Z * Z * ascii)) : option (Game.t * Rect) :=
  match tiles with
  | [] => Some acc
  | tile :: rest =>
      let* acc := vertical_tile step_dy prev_rect acc tile in
      vertical_tiles step_dy prev_rect acc rest
  end.

(** Lines 489-504: one vertical sub-step. *)
Definition vertical_substep (step_dy : Q) (g : Game.t) : option Game.t :=
  let p := Game.player g in
  let prev_rect := Player.rect p in
  let p := Player.with_y (Player.y p + step_dy) p in
  let g := Game.with_player p g in
  let r := Player.rect p in
  let* tiles := tiles_in_aabb (Game.tilemap g) (inflate r (-8) 0) in
  let* (g, _) := vertical_tiles step_dy prev_rect (g, r) tiles in
  Some g.

Fixpoint vertical_substeps (n : nat) (step_dy : Q) (g : Game.t) : option Game.t :=
  match n with
  | O => Some g
  | S n' =>
      let* g := vertical_substep step_dy g in
      vertical_substeps n' step_dy g
  end.

(** Lines 485-504: vertical move in sub-steps of at most a sixth of a tile. *)
Definition move_vertical (dt : Q) (g : Game.t) : option Game.t :=
  let total_dy := Player.vy (Game.player g) * dt in
  let steps := Z.max 1 (Qfloor (Qabs total_dy / inject_Z (Z.max 1 (TILE / 6))) + 1) in
  let step_dy := total_dy / inject_Z steps in
  vertical_substeps (Z.to_nat steps) step_dy g.

(** Lines 507-508: visual tilt.  The stored fraction is kept in lowest terms
    ([Qred] does not change its value): the update mentions the old tilt
    twice, and unreduced denominators would square at every frame. *)
Definition tilt (dt : Q) (p : Player.t) : Player.t :=
  let tilt_target := if Qlt_bool 0 (Player.skid_t p)
                     then - SKID_TILT_DEG * inject_Z (Player.skid_dir p) else 0 in
  Player.with_visual_tilt
    (Qred (Player.visual_tilt p
           + (tilt_target - Player.visual_tilt p) * Qmin 1 (14 * dt))) p.

(** Lines 331-450: everything before the move, on the player alone. *)
Definition control (dt : Q) (keys : Keys) (tilemap : Tilemap) (p : Player.t)
  : option Player.t :=
  let p := tick_timers dt p in
  let '(ax, p) := Player.input_axis keys p in
  let input_dir := (if Qlt_bool 0 ax then 1 else if Qlt_bool ax 0 then -1 else 0)%Z in
  let moving_dir := (if Qlt_bool 20 (Player.vx p) then 1
                     else if Qlt_bool (Player.vx p) (- (20)) then -1 else 0)%Z in
  let prev_crouch := Player.crouch p in
  let prev_sprint := Player.sprint p in
  let* p := resolve_crouch keys tilemap p in
  let p := crouch_slide keys prev_crouch prev_sprint p in
  let* p := dash_trigger keys tilemap p in
  let p := sprint_hold keys p in
  let p := skid_trigger input_dir moving_dir p in
  let p := horizontal_control dt ax p in
  let p := clamp_speed p in
  Some (gravity_and_jump_input dt keys p).

(** [Player.update], lines 330-508. *)
Definition Player_update (dt : Q) (keys : Keys) (g : Game.t) : option Game.t :=
  let* p := control dt keys (Game.tilemap g) (Game.player g) in
  let p := Player.with_on_ground false p in
  let* g := move_horizontal dt (Game.with_player p g) in
  let* g := move_vertical dt g in
  Some (Game.with_player (tilt dt (Game.player g)) g).

Local Close Scope Q_scope.

(** ** Game.update, the stages that involve the player and the grid *)

(** [pygame.key.get_pressed()], the keys the session reads. *)
Record Pressed : Type := mkPressed {
  key_SPACE : bool;
  key_LSHIFT : bool;
  key_s : bool;
  key_DOWN : bool;
  key_a : bool;
  key_d : bool;
  key_LEFT : bool;
  key_RIGHT : bool
}.

(** Lines 898-909: the edge-triggered input snapshot. *)
Definition make_keys (keys_raw : Pressed) (g : Game.t) : Keys :=
  let jp := key_SPACE keys_raw in
  let sh := key_LSHIFT keys_raw in
  let cr := key_s keys_raw || key_DOWN keys_raw in
  mkKeys (key_a keys_raw) (key_d keys_raw) (key_LEFT keys_raw) (key_RIGHT keys_raw)
         sh
         (sh && negb (Game._sh_last g))
         (jp && negb (Game._jp_last g))
         (negb jp && Game._jp_last g)
         cr
         (cr && negb (Game._cr_last g)).

(** Line 913: [if keys["jump_pressed"]: self.player.try_jump()]. *)
Definition jump_stage (keys : Keys) (g : Game.t) : Game.t :=
  if jump_pressed keys
  then Game.with_player (snd (Player.try_jump (Game.player g))) g
  else g.

(** Lines 889-913: input, player update, jump. *)
Definition Game_update_player (dt : Q) (keys_raw : Pressed) (g : Game.t) : option Game.t :=
  match Game.state g with
  | RUN =>
      let keys := make_keys keys_raw g in
      let g := Game.with_last (key_SPACE keys_raw) (key_LSHIFT keys_raw)
                 (key_s keys_raw || key_DOWN keys_raw) g in
      let* g := Player_update dt keys g in
      Some (jump_stage keys g)
  | _ => Some g
  end.

(** Lines 919-936: the body of the pickup loop for one item. *)
Definition collect_item (player_rect : Rect) (tilemap : Tilemap)
  (acc : Player.t * list MushroomItem.t) (item : MushroomItem.t)
  : option (Player.t * list MushroomItem.t) :=
  let '(p, seen) := acc in
  if MushroomItem.remove item
     || negb (match MushroomItem.state item with active => true | emerging => false end)
  then Some (p, seen ++ [item])
  else if colliderect player_rect (MushroomItem.rect item) then
    let* (got, p) := Player.collect_powerup "mushroom" tilemap p in
    if got then Some (p, seen ++ [MushroomItem.with_remove true item])
    else Some (p, seen ++ [MushroomItem.with_remove true item])
  else Some (p, seen ++ [item]).

Fixpoint collect_loop (player_rect : Rect) (tilemap : Tilemap)
  (acc : Player.t * list MushroomItem.t) (todo : list MushroomItem.t)
  : option (Player.t * list MushroomItem.t) :=
  match todo with
  | [] => Some acc
  | item :: rest =>
      let* acc := collect_item player_rect tilemap acc item in
      collect_loop player_rect tilemap acc rest
  end.

(** Lines 918-938: player-item overlap, then the removed items are dropped. *)
Definition Game_collect_items (g : Game.t) : option Game.t :=
  let player_rect := Player.rect (Game.player g) in
  let* (p, marked) :=
    collect_loop player_rect (Game.tilemap g) (Game.player g, []) (Game.items g) in
  Some (Game.with_items (filter (fun i => negb (MushroomItem.remove i)) marked)
          (Game.with_player p g)).

(** Lines 1027-1056: the body of the tile scan for one tile; the flag says
    whether the loop goes on ([false] is the [break] of the goal tile). *)
Definition touch_tile (r : Rect) (g : Game.t) (tile : Z * Z * ascii)
  : option (Game.t * bool) :=
  let '(tx, ty, ch) := tile in
  if Ascii.eqb ch "C" then
    let* tm := grid_set (Game.tilemap g) tx ty " " in
    let g := Game.with_coins_got (Game.coins_got g + 1) (Game.with_tilemap tm g) in
    let p := Game.player g in
    Some (Game.with_player (Player.with_coins (Player.coins p + 1) p) g, true)
  else if Ascii.eqb ch "D" then
    let* tm := grid_set (Game.tilemap g) tx ty " " in
    let g := Game.with_tilemap tm g in
    Some (Game.with_player (Player.with_dash_unlocked true (Game.player g)) g, true)
  else if Ascii.eqb ch "M" then
    let* (got, p) := Player.collect_powerup "mushroom" (Game.tilemap g) (Game.player g) in
    let g := Game.with_player p g in
    if got then
      let* tm := grid_set (Game.tilemap g) tx ty " " in
      Some (Game.with_tilemap tm g, true)
    else
      let* tm := grid_set (Game.tilemap g) tx ty " " in
      Some (Game.with_tilemap tm g, true)
  else if Ascii.eqb ch "^" then
    if colliderect r (tile_rect tx ty) then
      let* (lethal, p) := Player.take_damage (Game.tilemap g) (Game.player g) in
      let g := Game.with_player p g in
      Some (if lethal then Game.with_state DEAD g else g, true)
    else Some (g, true)
  else if Ascii.eqb ch "F" then
    if colliderect r (tile_rect tx ty) then Some (Game.with_state WIN g, false)
    else Some (g, true)
  else Some (g, true).

Fixpoint scan_loop (r : Rect) (g : Game.t) (tiles : list (Z * Z * ascii))
  : option Game.t :=
  match tiles with
  | [] => Some g
  | tile :: rest =>
      let* (g, go_on) := touch_tile r g tile in
      if go_on then scan_loop r g rest else Some g
  end.

(** Lines 1025-1056: pickups, spikes and the goal under the player. *)
Definition Game_scan_tiles (g : Game.t) : option Game.t :=
  let r := Player.rect (Game.player g) in
  let* tiles := tiles_in_aabb (Game.tilemap g) (inflate r 8 8) in
  scan_loop r g tiles.

(** ** level_io.py: level persistence

    A Python [str] is a list of characters here, so a row given as a string
    and a row given as a list of one-character cells are the same value and
    joining the cells of a row is the identity.  The file system maps a path to the
    text of the file (its characters, as [open(..., encoding="utf-8")] hands
    them out) and accepts every write.  [json] is Python's library,
    not code of this repository: it is modelled on the documents built from
    strings, lists of strings and objects, with the writer of
    [json.dump(..., ensure_ascii=False, indent=2)] and a reader for that
    fragment ([None] stands for [JSONDecodeError], and for documents outside
    the fragment).  Statements about loading whatever a disk holds are
    therefore made for files inside the fragment only ([modelled_file]
    below); a file that is not valid UTF-8, on which the code raises
    [UnicodeDecodeError], has no text and is no file of a disk here. *)

Module LevelIO.

Definition text : Type := list ascii.

Definition DEFAULT_LEVEL_FILE : string := "custom_level.json".
Definition FIRST_PLATFORM_IS_LOW : bool := true.

(** *** make_default_level, lines 13-98 *)

(** [grid[y][x] = ch] at constant indices inside the grid. *)
Definition put (y x : nat) (ch : ascii) (grid : list (list ascii)) : list (list ascii) :=
  set_nth grid y (set_nth (nth y grid []) x ch).

(** [for x in range(x0, x1): grid[y][x] = ch]. *)
Definition put_run (y x0 x1 : nat) (ch : ascii) (grid : list (list ascii))
  : list (list ascii) :=
  fold_left (fun g x => put y x ch g) (seq x0 (x1 - x0)) grid.

(** [for x in range(x0, x1): grid[y][x] = ch; grid[y - 1][x] = ch']. *)
Definition put_run2 (y x0 x1 : nat) (ch ch' : ascii) (grid : list (list ascii))
  : list (list ascii) :=
  fold_left (fun g x => put (y - 1) x ch' (put y x ch g)) (seq x0 (x1 - x0)) grid.

Definition make_default_level : list text :=
  let width := 180%nat in
  let height := 14%nat in
  let grid := repeat (repeat " "%char width) height in
  let ground_y := (height - 1)%nat in
  let grid := put_run ground_y 0 width "X" grid in
  let y1 := (if FIRST_PLATFORM_IS_LOW then ground_y - 2 else ground_y - 3)%nat in
  let grid := put_run y1 6 14 "=" grid in
  let grid := put (y1 - 1) 10 "G" grid in
  let grid := put (y1 - 1) 7 "M" grid in
  let y2 := (ground_y - 4)%nat in
  let grid := put_run y2 18 28 "=" grid in
  let grid := put (y2 - 1) 22 "G" grid in
  let grid := put (y2 - 2) 24 "M" grid in
  let grid := put_run ground_y 34 37 " " grid in
  let grid := put (ground_y - 1) 42 "^" grid in
  let grid := put_run2 (ground_y - 4) 44 50 "=" "C" grid in
  let grid := put_run (ground_y - 3) 52 56 "=" grid in
  let grid := put_run2 (ground_y - 5) 58 62 "=" "C" grid in
  let grid := put_run (ground_y - 2) 68 72 "=" grid in
  let grid := put_run (ground_y - 3) 76 80 "=" grid in
  let grid := put (ground_y - 1) 78 "G" grid in
  let grid := put_run (ground_y - 2) 94 102 "=" grid in
  let grid := put (ground_y - 3) 98 "D" grid in
  let grid := put_run (ground_y - 3) 122 132 "=" grid in
  let grid := put_run (ground_y - 1) 118 122 "=" grid in
  let gx := 128%nat in
  let grid := put (ground_y - 1) gx "|" grid in
  let grid := put (ground_y - 2) gx "|" grid in
  let grid := put_run2 (ground_y - 2) 130 136 "=" "C" grid in
  let grid := put (ground_y - 3) 124 "M" grid in
  let grid := put_run ground_y 144 152 " " grid in
  let grid := put_run (ground_y - 1) 138 142 "=" grid in
  let grid := put_run (ground_y - 1) 152 158 "=" grid in
  let grid := put_run (ground_y - 3) 154 157 "C" grid in
  let grid := put (ground_y - 1) 160 "^" grid in
  let grid := put (ground_y - 1) 161 "^" grid in
  let grid := put_run (ground_y - 4) 164 169 "=" grid in
  let grid := put_run (ground_y - 5) 165 169 "C" grid in
  let grid := put (ground_y - 4) 172 "F" grid in
  fold_left (fun g y => put y 172 "X" g) (seq (ground_y - 3) 4) grid.

(** *** _normalise_rows, lines 101-110 *)

(** [row.ljust(width)]. *)
Definition ljust (width : nat) (row : text) : text :=
  row ++ repeat " "%char (width - List.length row).

Definition _normalise_rows (rows : list text) : option (list text) :=
  match rows with
  | [] => None
  | _ :: _ =>
      let width := fold_right Nat.max 0%nat (map (@List.length ascii) rows) in
      if (width =? 0)%nat then None
      else Some (map (ljust width) rows)
  end.

(** *** The JSON library on the modelled fragment *)

#[warnings="-register-all"]
Inductive json : Type :=
| JString (s : text)
| JStrings (items : list text)
| JObject (members : list (text * json)).

Definition quote : ascii := "034"%char.
Definition backslash : ascii := "\"%char.
Definition newline : ascii := "010"%char.

Definition hex_digit (n : nat) : ascii :=
  nth n (list_ascii_of_string "0123456789abcdef") "0"%char.

(** The escapes of [json.dumps] with [ensure_ascii=False]. *)
Definition escape_char (c : ascii) : text :=
  if Ascii.eqb c quote then [backslash; quote]
  else if Ascii.eqb c backslash then [backslash; backslash]
  else if Ascii.eqb c "008" then [backslash; "b"%char]
  else if Ascii.eqb c "009" then [backslash; "t"%char]
  else if Ascii.eqb c "010" then [backslash; "n"%char]
  else if Ascii.eqb c "012" then [backslash; "f"%char]
  else if Ascii.eqb c "013" then [backslash; "r"%char]
  else if (nat_of_ascii c <? 32)%nat
       then [backslash; "u"; "0"; "0";
             hex_digit (nat_of_ascii c / 16); hex_digit (nat_of_ascii c mod 16)]%char
       else [c].

Definition dump_string (s : text) : text :=
  quote :: flat_map escape_char s ++ [quote].

(** A line break followed by the indentation of nesting level [lvl]. *)
Definition break (lvl : nat) : text := newline :: repeat " "%char (2 * lvl).

(** The items of a list or object, one per line. *)
Fixpoint lines_of (lvl : nat) (items : list text) : text :=
  match items with
  | [] => []
  | [item] => item
  | item :: rest => item ++ ","%char :: break lvl ++ lines_of lvl rest
  end.

Fixpoint dump (lvl : nat) (j : json) : text :=
  match j with
  | JString s => dump_string s
  | JStrings [] => list_ascii_of_string "[]"
  | JStrings items =>
      "["%char :: break (S lvl) ++ lines_of (S lvl) (map dump_string items)
        ++ break lvl ++ ["]"%char]
  | JObject [] => list_ascii_of_string "{}"
  | JObject members =>
      "{"%char :: break (S lvl)
        ++ lines_of (S lvl)
             (map (fun kv => dump_string (fst kv) ++ ":"%char :: " "%char :: dump (S lvl) (snd kv))
                  members)
        ++ break lvl ++ ["}"%char]
  end.

(** [json.dumps(data, ensure_ascii=False, indent=2)]. *)
Definition json_dumps (j : json) : text := dump 0 j.

Definition is_ws (c : ascii) : bool :=
  existsb (Ascii.eqb c) [" "; "009"; "010"; "013"]%char.

Fixpoint skip_ws (s : text) : text :=
  match s with
  | c :: rest => if is_ws c then skip_ws rest else s
  | [] => []
  end.

Definition hex_value (c : ascii) : option nat :=
  let n := nat_of_ascii c in
  if (48 <=? n)%nat && (n <=? 57)%nat then Some (n - 48)%nat
  else if (97 <=? n)%nat && (n <=? 102)%nat then Some (n - 87)%nat
  else if (65 <=? n)%nat && (n <=? 70)%nat then Some (n - 55)%nat
  else None.

(** The text of a string literal after its opening quote. *)
Fixpoint parse_string_body (s : text) : option (text * text) :=
  match s with
  | [] => None
  | c :: rest =>
      if Ascii.eqb c quote then Some ([], rest)
      else if Ascii.eqb c backslash then
        match rest with
        | e :: rest' =>
            if Ascii.eqb e "u" then
              match rest' with
              | z1 :: z2 :: h :: l :: rest'' =>
                  if Ascii.eqb z1 "0" && Ascii.eqb z2 "0" then
                    let* hi := hex_value h in
                    let* lo := hex_value l in
                    let* (body, tail) := parse_string_body rest'' in
                    Some (ascii_of_nat (16 * hi + lo) :: body, tail)
                  else None
              | _ => None
              end
            else
              let* d := (if Ascii.eqb e quote then Some quote
                         else if Ascii.eqb e backslash then Some backslash
                         else if Ascii.eqb e "/" then Some "/"%char
                         else if Ascii.eqb e "b" then Some "008"%char
                         else if Ascii.eqb e "t" then Some "009"%char
                         else if Ascii.eqb e "n" then Some "010"%char
                         else if Ascii.eqb e "f" then Some "012"%char
                         else if Ascii.eqb e "r" then Some "013"%char
                         else None) in
              let* (body, tail) := parse_string_body rest' in
              Some (d :: body, tail)
        | [] => None
        end
      else if (nat_of_ascii c <? 32)%nat then None
      else
        let* (body, tail) := parse_string_body rest in
        Some (c :: body, tail)
  end.

Definition parse_string (s : text) : option (text * text) :=
  match s with
  | c :: rest => if Ascii.eqb c quote then parse_string_body rest else None
  | [] => None
  end.

(** The items of a list of strings, after the opening bracket and the
    first item's leading white space. *)
Fixpoint parse_items (fuel : nat) (s : text) : option (list text * text) :=
  match fuel with
  | O => None
  | S fuel' =>
      let* (item, rest) := parse_string s in
      match skip_ws rest with
      | c :: rest' =>
          if Ascii.eqb c "," then
            let* (items, tail) := parse_items fuel' (skip_ws rest') in
            Some (item :: items, tail)
          else if Ascii.eqb c "]" then Some ([item], rest')
          else None
      | [] => None
      end
  end.

Fixpoint parse_value (fuel : nat) (s : text) : option (json * text) :=
  match fuel with
  | O => None
  | S fuel' =>
      match skip_ws s with
      | c :: rest =>
          if Ascii.eqb c quote then
            let* (str, tail) := parse_string_body rest in
            Some (JString str, tail)
          else if Ascii.eqb c "[" then
            match skip_ws rest with
            | c' :: rest' =>
                if Ascii.eqb c' "]" then Some (JStrings [], rest')
                else
                  let* (items, tail) := parse_items fuel' (c' :: rest') in
                  Some (JStrings items, tail)
            | [] => None
            end
          else if Ascii.eqb c "{" then
            match skip_ws rest with
            | c' :: rest' =>
                if Ascii.eqb c' "}" then Some (JObject [], rest')
                else
                  let* (members, tail) := parse_members fuel' (c' :: rest') in
                  Some (JObject members, tail)
            | [] => None
            end
          else None
      | [] => None
      end
  end
with parse_members (fuel : nat) (s : text) : option (list (text * json) * text) :=
  match fuel with
  | O => None
  | S fuel' =>
      let* (key, rest) := parse_string s in
      match skip_ws rest with
      | c :: rest' =>
          if Ascii.eqb c ":" then
            let* (value, rest'') := parse_value fuel' rest' in
            match skip_ws rest'' with
            | c' :: tail =>
                if Ascii.eqb c' "," then
                  let* (members, tail') := parse_members fuel' (skip_ws tail) in
                  Some ((key, value) :: members, tail')
                else if Ascii.eqb c' "}" then Some ([(key, value)], tail)
                else None
            | [] => None
            end
          else None
      | [] => None
      end
  end.

(** [json.loads]: one value, then nothing but white space. *)
Definition json_loads (s : text) : option json :=
  let* (j, rest) := parse_value (S (List.length s)) s in
  match skip_ws rest with
  | [] => Some j
  | _ :: _ => None
  end.

(** How deep a document is nested: a list counts one level, an object one
    more than its deepest member. *)
Fixpoint depth (j : json) : nat :=
  match j with
  | JString _ => 0%nat
  | JStrings _ => 1%nat
  | JObject members =>
      S ((fix deepest (l : list (text * json)) : nat :=
            match l with
            | [] => 0%nat
            | (_, v) :: rest => Nat.max (depth v) (deepest rest)
            end) members)
  end.

(** *** Python on the loaded data *)

(** Truthiness of a loaded value. *)
Definition truthy (j : json) : bool :=
  match j with
  | JString [] | JStrings [] | JObject [] => false
  | _ => true
  end.

(** [data.get(key)]; with duplicate keys the last one wins on loading. *)
Fixpoint dict_get (key : text) (members : list (text * json)) : option json :=
  match members with
  | [] => None
  | (k, v) :: rest =>
      match dict_get key rest with
      | Some v' => Some v'
      | None => if list_eq_dec ascii_dec k key then Some v else None
      end
  end.

(** [a or b] on values that may be [None]. *)
Definition py_or (a b : option json) : option json :=
  match a with
  | Some j => if truthy j then a else b
  | None => b
  end.

Definition is_line_break (c : ascii) : bool :=
  existsb (Ascii.eqb c) ["010"; "011"; "012"; "013"; "028"; "029"; "030"; "133"]%char.

(** [str.splitlines()]; a carriage return followed by a line feed is one
    break, and a final break opens no further line. *)
Fixpoint splitlines_from (current : text) (s : text) : list text :=
  match s with
  | [] => match current with [] => [] | _ :: _ => [current] end
  | c :: rest =>
      if is_line_break c then
        current ::
        match c, rest with
        | "013"%char, "010"%char :: rest' => splitlines_from [] rest'
        | _, _ => splitlines_from [] rest
        end
      else splitlines_from (current ++ [c]) rest
  end.

Definition splitlines (s : text) : list text := splitlines_from [] s.

(** The keys of the dictionary built from the members of a document, in
    the order of the document: a repeated key keeps its first place. *)
Fixpoint distinct_keys (seen keys : list text) : list text :=
  match keys with
  | [] => []
  | k :: rest =>
      if in_dec (list_eq_dec ascii_dec) k seen then distinct_keys seen rest
      else k :: distinct_keys (k :: seen) rest
  end.

(** Iterating the loaded rows with [str(r) for r in rows]: a list gives its
    strings, a string its characters, a dictionary its keys. *)
Definition iterate (rows : json) : list text :=
  match rows with
  | JStrings items => items
  | JString s => map (fun c => [c]) s
  | JObject members => distinct_keys [] (map fst members)
  end.

(** [c.lower()] on a character. *)
Definition lower (c : ascii) : ascii :=
  let n := nat_of_ascii c in
  if (65 <=? n)%nat && (n <=? 90)%nat then ascii_of_nat (n + 32) else c.

(** [path.lower().endswith(".json")]. *)
Definition is_json_path (path : string) : bool :=
  let p := map lower (list_ascii_of_string path) in
  let n := List.length p in
  (5 <=? n)%nat
  && if list_eq_dec ascii_dec (skipn (n - 5) p) (list_ascii_of_string ".json")
     then true else false.

Definition FS : Type := string -> option text.

Definition write_file (fs : FS) (path : string) (content : text) : FS :=
  fun p => if String.eqb p path then Some content else fs p.

(** *** _load_level_file, lines 113-135

    [None] is the [None] of the code: a file that cannot be opened, a
    document that is not JSON, or data without rows.  On data outside the
    modelled fragment (numbers, booleans, [null], nested lists) the code
    goes on to load or to raise [TypeError]; the reader below answers [None]
    for such a document, and no statement is made about it. *)
Definition _load_level_file (fs : FS) (path : string) : option (list text) :=
  let* content := fs path in
  let* data := (if is_json_path path then json_loads content
                else Some (JString content)) in
  let* rows :=
    match data with
    | JObject members =>
        py_or (py_or (dict_get (list_ascii_of_string "tiles") members)
                     (dict_get (list_ascii_of_string "level") members))
              (dict_get (list_ascii_of_string "rows") members)
    | JStrings _ => Some data
    | JString s => Some (JStrings (splitlines s))
    end in
  _normalise_rows (iterate rows).

(** *** save_level, lines 170-178 *)
Definition save_level (fs : FS) (level : list text) (path : string) : FS :=
  let rows := level in
  let rows := match _normalise_rows rows with
              | Some normal => normal
              | None => make_default_level
              end in
  let data := JObject [(list_ascii_of_string "tiles", JStrings rows)] in
  write_file fs path (json_dumps data).

End LevelIO.

(** * Predicates and fixtures used by the statements *)

(** The data-model invariant: every row has the same length. *)
Definition equal_rows (tm : Tilemap) : Prop :=
  exists width : nat, Forall (fun row => List.length row = width) tm.

(** The half-open square of tile [(tx, ty)] meets the closed rectangle
    spanned by the corners of [rect]. *)
Definition tile_meets (rect : Rect) (tx ty : Z) : Prop :=
  TILE * tx <= right rect /\ left rect < TILE * (tx + 1) /\
  TILE * ty <= bottom rect /\ top rect < TILE * (ty + 1).

(** The guard of [hit_block]: the target cell holds the reported code, the
    code is a block code, and a breakable block needs the big form. *)
Definition hit_guard (g : Game.t) (tx ty : Z) (ch : ascii) : Prop :=
  0 <= tx /\ 0 <= ty /\ grid_get (Game.tilemap g) tx ty = Some ch /\
  (ch = "B"%char \/ ch = "Q"%char \/
   (ch = "S"%char /\ Player.form (Game.player g) = big)).

(** A corridor one tile high: ceiling row, one row of air, floor row. *)
Definition corridor : Tilemap :=
  [ ["X"; "X"; "X"; "X"]; [" "; " "; " "; " "]; ["X"; "X"; "X"; "X"] ]%char.

(** A small player crouching in the corridor, feet on the floor. *)
Definition crouched_in_corridor : Player.t :=
  Player.with_crouch true (Player.with_h H_CROUCH (Player.init 96 96)).


(** An open floor: two rows of air above a row of ground. *)
Definition flat_floor : Tilemap :=
  [ [" "; " "; " "; " "; " "; " "]; [" "; " "; " "; " "; " "; " "];
    ["X"; "X"; "X"; "X"; "X"; "X"] ]%char.

(** A running session on the given grid with the given player. *)
Definition session (tm : Tilemap) (p : Player.t) : Game.t :=
  Game.mk tm p [] 0 RUN false false false.

Definition no_keys : Pressed := mkPressed false false false false false false false false.
Definition space_down : Pressed := mkPressed true false false false false false false false.

(** Six pixels above the floor, falling, long after the last ground contact. *)
Definition falling_player : Player.t :=
  Player.with_since_ground 999 (Player.with_vy 300 (Player.init 96 90)).

(** [moved p q]: [q] is [p] up to the attributes that the move-and-collide
    part of a frame may write (position, velocity, ground contact, coins). *)
Definition moved (p q : Player.t) : Prop :=
  q = Player.with_coins (Player.coins q)
        (Player.with_since_ground (Player.since_ground q)
           (Player.with_on_ground (Player.on_ground q)
              (Player.with_vy (Player.vy q)
                 (Player.with_vx (Player.vx q)
                    (Player.with_y (Player.y q) (Player.with_x (Player.x q) p)))))).

(** A grid the session can work on: at least one row, rows of equal length. *)
Definition grid_wf (tm : Tilemap) : Prop := tm <> [] /\ equal_rows tm.

(** One guarded assignment, [if c(self): self = u(self)]. *)
Definition step_if (c : Player.t -> bool) (u : Player.t -> Player.t) (p : Player.t)
  : Player.t :=
  if c p then u p else p.

(** The player as it enters the crouch stage of a frame (after lines
    331-358 of [Player.update]). *)
Definition at_crouch_stage (dt : Q) (keys : Keys) (p : Player.t) : Player.t :=
  snd (Player.input_axis keys (tick_timers dt p)).

(** The player as it enters the dash stage of a frame (after lines 331-383). *)
Definition at_dash_stage (dt : Q) (keys : Keys) (tilemap : Tilemap) (p : Player.t)
  : option Player.t :=
  let p := at_crouch_stage dt keys p in
  let prev_crouch := Player.crouch p in
  let prev_sprint := Player.sprint p in
  let* p := resolve_crouch keys tilemap p in
  Some (crouch_slide keys prev_crouch prev_sprint p).

(** Whether the dash stage of the coming frame starts a dash. *)
Definition dash_starts (dt : Q) (keys_raw : Pressed) (g : Game.t) : option bool :=
  let keys := make_keys keys_raw g in
  let* q := at_dash_stage dt keys (Game.tilemap g) (Game.player g) in
  dash_triggers keys (Game.tilemap g) q.

(** A run of frames of the player stage of the session. *)
Fixpoint run_frames (frames : list (Q * Pressed)) (g : Game.t) : option Game.t :=
  match frames with
  | [] => Some g
  | (dt, keys_raw) :: rest =>
      let* g := Game_update_player dt keys_raw g in
      run_frames rest g
  end.

(** The time that a run of frames takes. *)
Definition elapsed (frames : list (Q * Pressed)) : Q :=
  fold_right (fun f acc => (fst f + acc)%Q) 0%Q frames.

(** Dash newly pressed, nothing else. *)
Definition dash_keys : Keys :=
  mkKeys false false false false true true false false false false.

(** A player standing on [flat_floor] with the dash unlocked. *)
Definition dasher : Player.t :=
  Player.with_on_ground true (Player.with_dash_unlocked true (Player.init 96 96)).

(** The same player in the air, moving upward at jump speed. *)
Definition rising_dasher : Player.t :=
  Player.with_vy JUMP_VEL (Player.with_dash_unlocked true (Player.init 96 60)).

(** The standing hitbox of the player (what [_can_stand] tests). *)
Definition stand_rect (p : Player.t) : Rect :=
  Player.rect_of_height (Player.h_stand p) p.

(** No blocking tile among the cells that the shrunk standing hitbox meets
    collides with the standing hitbox: the test that [_can_stand] performs. *)
Definition stand_probe_clear (tm : Tilemap) (p : Player.t) : Prop :=
  forall tx ty ch,
    0 <= tx -> 0 <= ty -> grid_get tm tx ty = Some ch -> blocks ch = true ->
    tile_meets (inflate (stand_rect p) (-8) (-2)) tx ty ->
    colliderect (stand_rect p) (tile_rect tx ty) = false.

(** No blocking tile of the grid collides with the standing hitbox. *)
Definition stand_rect_free (tm : Tilemap) (p : Player.t) : Prop :=
  forall tx ty ch,
    0 <= tx -> 0 <= ty -> grid_get tm tx ty = Some ch -> blocks ch = true ->
    colliderect (stand_rect p) (tile_rect tx ty) = false.

(** At the start of every frame of the run the standing probe fails. *)
Fixpoint obstructed_throughout (frames : list (Q * Pressed)) (g : Game.t) : Prop :=
  match frames with
  | [] => True
  | (dt, keys_raw) :: rest =>
      Player._can_stand (Game.tilemap g) (Game.player g) = Some false /\
      forall g1, Game_update_player dt keys_raw g = Some g1 ->
                 obstructed_throughout rest g1
  end.

(** A ledge: a ground tile up on the left, open air to its right, a floor. *)
Definition ledge : Tilemap :=
  [ ["X"; " "; " "]; [" "; " "; " "]; ["X"; "X"; "X"] ]%char.

(** A small player crouching on the floor of [ledge], its hitbox reaching
    four pixels under the raised tile. *)
Definition under_ledge : Player.t :=
  Player.with_on_ground true
    (Player.with_crouch true (Player.with_h H_CROUCH (Player.init 62 96))).

(** No control held or pressed. *)
Definition no_control : Keys :=
  mkKeys false false false false false false false false false false.

(** The last gate tile of a query, in the order of the query. *)
Definition last_gate_from (c : option (Z * Z)) (tiles : list (Z * Z * ascii))
  : option (Z * Z) :=
  fold_left (fun acc '(tx, ty, ch) => if Ascii.eqb ch "|" then Some (tx, ty) else acc)
            tiles c.

Definition last_gate (tiles : list (Z * Z * ascii)) : option (Z * Z) :=
  last_gate_from None tiles.

(** The wall response of the horizontal loop against the tiles selected by
    [is_wall]. *)
Definition walls_only (is_wall : ascii -> bool) (r : Rect) (p : Player.t)
  (tiles : list (Z * Z * ascii)) : Player.t :=
  fold_left (fun q '(tx, ty, ch) => if is_wall ch then block_x r (tile_rect tx ty) q else q)
            tiles p.

(** Two gate tiles on top of each other, as in the gate corridor of the
    default level, above a floor. *)
Definition stacked_gates : Tilemap :=
  [ [" "; " "; "|"; " "]; [" "; " "; "|"; " "]; ["X"; "X"; "X"; "X"] ]%char.

(** A standing small player in mid-dash, one frame away from the gates. *)
Definition dashing_at_gates : Player.t :=
  Player.with_dash_t (10 # 100)
    (Player.with_vx DASH_SPEED (Player.with_dash_unlocked true (Player.init 70 96))).

(** Neither big hitbox fits at the player's position. *)
Definition cannot_grow (tm : Tilemap) (p : Player.t) : Prop :=
  Player.form p = small /\
  Player._rect_fits (Some tm) H_STAND_BIG p = Some false /\
  Player._rect_fits (Some tm) H_CROUCH_BIG p = Some false.



(** A mushroom tile next to a spike, above a floor. *)
Definition spike_nook : Tilemap :=
  [ [" "; " "; " "]; ["M"; "^"; " "]; ["X"; "X"; "X"] ]%char.

(** A small player on the floor, just hurt and still invulnerable, standing
    in the spike and touching the mushroom tile: the spike is in the way of
    both big hitboxes. *)
Definition in_nook : Player.t :=
  Player.with_inv (1 # 2) (Player.with_on_ground true (Player.init 60 96)).

(** An active mushroom item overlapping that player. *)
Definition loose_mushroom : MushroomItem.t :=
  MushroomItem.mk 72 40 40 48 96 160 0 1 active false.

(** Full sprint speed, [MAX_SPEED * SPRINT_SPEED_MULT]. *)
Definition SPRINT_TOP_SPEED : Q := 486.

(** A player sprinting to the right at top speed on [flat_floor]. *)
Definition sprinter : Player.t :=
  Player.with_sprint true
    (Player.with_on_ground true (Player.with_vx SPRINT_TOP_SPEED (Player.init 48 96))).

(** SHIFT held all along and the crouch key going down. *)
Definition shift_and_crouch : Pressed :=
  mkPressed false true true false false false false false.

(** The sprinting session; SHIFT was already down in the frame before. *)
Definition sprint_session : Game.t :=
  Game.mk flat_floor sprinter [] 0 RUN false true false.

(** The same keys with LEFT held as well, against the motion. *)
Definition shift_crouch_left : Pressed :=
  mkPressed false true true false false false true false.

(** [n] frames of length [dt] with the same keys. *)
Definition hold (dt : Q) (n : nat) (keys_raw : Pressed) : list (Q * Pressed) :=
  repeat (dt, keys_raw) n.

(** How far to the right of its start the sprinter is after [n] such frames,
    and how fast it still moves. *)
Definition slide_progress (dt : Q) (keys_raw : Pressed) (n : nat) : option (Q * Q) :=
  let* g := run_frames (hold dt n keys_raw) sprint_session in
  Some ((Player.x (Game.player g) - Player.x sprinter)%Q, Player.vx (Game.player g)).

(** ** Level files *)

(** Nothing on disk. *)
Definition empty_disk : LevelIO.FS := fun _ => None.

(** A grid is rectangular when its rows share one positive length. *)
Definition rectangular (grid : list LevelIO.text) : Prop :=
  exists width : nat, (0 < width)%nat /\ Forall (fun row => List.length row = width) grid.

Definition small_level : list LevelIO.text :=
  map list_ascii_of_string ["  M "; "?B| "; "XXXX"]%string.

(** [s] between double quotes. *)
Definition quoted (s : string) : string :=
  String LevelIO.quote (s ++ String LevelIO.quote EmptyString).

(** The document [save_level] writes for the rows [rows]. *)
Definition tiles_document (rows : list LevelIO.text) : LevelIO.json :=
  LevelIO.JObject [(list_ascii_of_string "tiles", LevelIO.JStrings rows)].

(** ** The tile scan and its early end *)





(** ** Fitting a hitbox *)





(** ** level_io.py: choosing the level to load *)

(** [load_level], lines 150-159: the files to try, in order.  [path] is the
    argument and [env_path] the value of [PLATFORMER_LEVEL_FILE]; [None]
    and the empty string are both skipped. *)
Definition level_candidates (path env_path : option string) : list string :=
  let candidates := [] in
  let candidates := match path with
                    | Some p => if String.eqb p EmptyString then candidates
                                else candidates ++ [p]
                    | None => candidates
                    end in
  let candidates := match env_path with
                    | Some p => if String.eqb p EmptyString then candidates
                                else candidates ++ [p]
                    | None => candidates
                    end in
  if existsb (String.eqb LevelIO.DEFAULT_LEVEL_FILE) candidates then candidates
  else candidates ++ [LevelIO.DEFAULT_LEVEL_FILE].

(** Lines 161-167: the first candidate that loads to a non-empty level,
    else the built-in level without a source. *)
Fixpoint first_level (fs : LevelIO.FS) (candidates : list string)
  : list LevelIO.text * option string :=
  match candidates with
  | [] => (LevelIO.make_default_level, None)
  | candidate :: rest =>
      match LevelIO._load_level_file fs candidate with
      | Some (row :: rows) => (row :: rows, Some candidate)
      | _ => first_level fs rest
      end
  end.

(** [load_level(path, return_source=True)], lines 138-167; faithful when
    the candidate files are inside the modelled fragment ([modelled_file]
    below). *)
Definition load_level (fs : LevelIO.FS) (env_path path : option string)
  : list LevelIO.text * option string :=
  first_level fs (level_candidates path env_path).

(** A candidate file inside the fragment of level files that this
    development models.  A missing file and a text file (a name that does
    not end in [.json]) always are; a file with a [.json] name is when it
    holds a JSON document made of strings only (a string, a list of strings,
    or an object whose members are such values), which [json_loads] reads,
    nested at most 64 levels deep (far below the depth at which the
    library gives up with [RecursionError]).  On the other [.json] files
    [level_io.py] skips the file (not a JSON document), loads it (numbers
    among the rows are turned into text) or raises (rows that are not
    iterable), and nothing is stated here. *)
Definition modelled_file (fs : LevelIO.FS) (path : string) : Prop :=
  forall content,
    fs path = Some content -> LevelIO.is_json_path path = true ->
    exists data, LevelIO.json_loads content = Some data /\ (LevelIO.depth data <= 64)%nat.

(** A disk that holds one level, saved under the default name. *)
Definition saved_disk : LevelIO.FS :=
  LevelIO.save_level empty_disk small_level LevelIO.DEFAULT_LEVEL_FILE.

(** The rows [save_level] writes for [grid]: line 174. *)
Definition saved_rows (grid : list LevelIO.text) : list LevelIO.text :=
  match LevelIO._normalise_rows grid with
  | Some normal => normal
  | None => LevelIO.make_default_level
  end.

(** A row of the result is the row given, followed by spaces only. *)
Definition padded (row out : LevelIO.text) : Prop :=
  exists k : nat, out = row ++ repeat " "%char k.

(** A text without line boundaries of [str.splitlines]. *)
Definition one_line (row : LevelIO.text) : Prop :=
  Forall (fun c => LevelIO.is_line_break c = false) row.

(** The rows joined with line feeds: a level as a text file holds it. *)
Fixpoint join_lines (rows : list LevelIO.text) : LevelIO.text :=
  match rows with
  | [] => []
  | [row] => row
  | row :: rest => row ++ LevelIO.newline :: join_lines rest
  end.

(** ** level_editor.py: the editor state and its handlers

    Rendering, fonts and the text of the status message are display; the
    state below is what the handlers read and write. *)

Module LevelEditor.

Definition WINDOW_WIDTH : Z := 1280.
Definition WINDOW_HEIGHT : Z := 800.
Definition PALETTE_HEIGHT : Z := 140.
Definition TILE_SIZE : Z := 32.
Definition CAMERA_SPEED : Q := 600.

(** The tile codes of [PALETTE], lines 16-26. *)
Definition PALETTE : list ascii := [" "; "X"; "="; "^"; "C"; "G"; "|"; "D"; "F"]%char.

(** [self.work_area], line 236. *)
Definition work_area : Rect := mkRect 0 0 WINDOW_WIDTH (WINDOW_HEIGHT - PALETTE_HEIGHT).

Record t : Type := mk {
  level_path : string;
  grid : list (list ascii);
  height : Z;
  width : Z;
  camera_x : Q;
  camera_y : Q;
  selected_index : Z;
  dragging : bool;
  drag_start : Z * Z;
  camera_start : Q * Q;
  message_timer : Q
}.

Definition with_grid (v : list (list ascii)) (e : t) : t :=
  mk e.(level_path) v e.(height) e.(width) e.(camera_x) e.(camera_y) e.(selected_index)
     e.(dragging) e.(drag_start) e.(camera_start) e.(message_timer).
Definition with_size (rows cols : Z) (e : t) : t :=
  mk e.(level_path) e.(grid) rows cols e.(camera_x) e.(camera_y) e.(selected_index)
     e.(dragging) e.(drag_start) e.(camera_start) e.(message_timer).
Definition with_camera (cx cy : Q) (e : t) : t :=
  mk e.(level_path) e.(grid) e.(height) e.(width) cx cy e.(selected_index)
     e.(dragging) e.(drag_start) e.(camera_start) e.(message_timer).
Definition with_selected_index (v : Z) (e : t) : t :=
  mk e.(level_path) e.(grid) e.(height) e.(width) e.(camera_x) e.(camera_y) v
     e.(dragging) e.(drag_start) e.(camera_start) e.(message_timer).
Definition with_dragging (v : bool) (e : t) : t :=
  mk e.(level_path) e.(grid) e.(height) e.(width) e.(camera_x) e.(camera_y)
     e.(selected_index) v e.(drag_start) e.(camera_start) e.(message_timer).
Definition with_drag (start : Z * Z) (camera : Q * Q) (e : t) : t :=
  mk e.(level_path) e.(grid) e.(height) e.(width) e.(camera_x) e.(camera_y)
     e.(selected_index) e.(dragging) start camera e.(message_timer).
Definition with_message_timer (v : Q) (e : t) : t :=
  mk e.(level_path) e.(grid) e.(height) e.(width) e.(camera_x) e.(camera_y)
     e.(selected_index) e.(dragging) e.(drag_start) e.(camera_start) v.

(** [len(self.grid[0]) if self.grid else 0]. *)
Definition first_width (rows : list (list ascii)) : Z :=
  match rows with
  | [] => 0
  | row :: _ => Z.of_nat (List.length row)
  end.

(** [_show_message], lines 159-161. *)
Definition _show_message (e : t) : t := with_message_timer 3 e.

(** [__init__], lines 111-129. *)
Definition init (fs : LevelIO.FS) (env_path level_path : option string) : t :=
  let '(level_data, source) := load_level fs env_path level_path in
  let chosen :=
    match level_path with
    | Some p => if String.eqb p EmptyString then None else Some p
    | None => None
    end in
  let chosen :=
    match chosen with
    | Some p => p
    | None => match source with
              | Some s => if String.eqb s EmptyString then LevelIO.DEFAULT_LEVEL_FILE else s
              | None => LevelIO.DEFAULT_LEVEL_FILE
              end
    end in
  _show_message
    (mk chosen level_data (Z.of_nat (List.length level_data)) (first_width level_data)
        0 0 1 false (0, 0) (0%Q, 0%Q) 0).

(** [_clamp_camera], lines 132-136. *)
Definition _clamp_camera (e : t) : t :=
  let max_x := Z.max 0 (e.(width) * TILE_SIZE - rw work_area) in
  let max_y := Z.max 0 (e.(height) * TILE_SIZE - rh work_area) in
  with_camera (Qmax 0 (Qmin e.(camera_x) (inject_Z max_x)))
              (Qmax 0 (Qmin e.(camera_y) (inject_Z max_y))) e.

(** [Rect.collidepoint]: the left and top edges are inside, the right and
    bottom edges are not. *)
Definition collidepoint (r : Rect) (px py : Z) : bool :=
  (left r <=? px) && (px <? right r) && (top r <=? py) && (py <? bottom r).

(** [_tile_at_pos], lines 138-150. *)
Definition _tile_at_pos (pos : Z * Z) (e : t) : option (Z * Z) :=
  match e.(grid) with
  | [] => None
  | _ :: _ =>
      let '(mx, my) := pos in
      if negb (collidepoint work_area mx my) then None
      else
        let world_x := (inject_Z mx + e.(camera_x) - inject_Z (rx work_area))%Q in
        let world_y := (inject_Z my + e.(camera_y) - inject_Z (ry work_area))%Q in
        let tx := Qfloor (world_x / inject_Z TILE_SIZE) in
        let ty := Qfloor (world_y / inject_Z TILE_SIZE) in
        if (0 <=? tx) && (tx <? e.(width)) && (0 <=? ty) && (ty <? e.(height))
        then Some (tx, ty) else None
  end.

(** [_set_tile], lines 152-154; [None] is [IndexError]. *)
Definition _set_tile (tx ty : Z) (char : ascii) (e : t) : option t :=
  let* current := grid_get e.(grid) tx ty in
  if negb (Ascii.eqb current char) then
    let* rows := grid_set e.(grid) tx ty char in
    Some (with_grid rows e)
  else Some e.

(** [_cycle_selection], lines 156-157; [%] is Python's, never negative here. *)
Definition _cycle_selection (direction : Z) (e : t) : t :=
  with_selected_index ((e.(selected_index) + direction) mod Z.of_nat (List.length PALETTE)) e.

(** [pygame.mouse.get_pressed()]. *)
Record Buttons : Type := mkButtons { button_left : bool; button_middle : bool; button_right : bool }.

(** [_handle_mouse], lines 163-192. *)
Definition _handle_mouse (buttons : Buttons) (mouse_pos : Z * Z) (e : t) : option t :=
  let e := if button_middle buttons then
             if negb e.(dragging)
             then with_drag mouse_pos (e.(camera_x), e.(camera_y)) (with_dragging true e)
             else e
           else with_dragging false e in
  if e.(dragging) then
    let dx := fst e.(drag_start) - fst mouse_pos in
    let dy := snd e.(drag_start) - snd mouse_pos in
    Some (_clamp_camera
            (with_camera (fst e.(camera_start) + inject_Z dx)%Q
                         (snd e.(camera_start) + inject_Z dy)%Q e))
  else
    match _tile_at_pos mouse_pos e with
    | None => Some e
    | Some (tx, ty) =>
        if button_left buttons then
          let* char := py_index PALETTE e.(selected_index) in
          _set_tile tx ty char e
        else if button_right buttons then _set_tile tx ty " " e
        else Some e
    end.

(** [pygame.key.get_pressed()], the keys the editor polls. *)
Record Held : Type := mkHeld {
  held_d : bool; held_RIGHT : bool; held_a : bool; held_LEFT : bool;
  held_s : bool; held_DOWN : bool; held_w : bool; held_UP : bool;
  held_LSHIFT : bool; held_RSHIFT : bool
}.

(** [_handle_keys], lines 194-217. *)
Definition _handle_keys (dt : Q) (keys : Held) (e : t) : t :=
  let move_x := 0 in
  let move_x := if held_d keys || held_RIGHT keys then move_x + 1 else move_x in
  let move_x := if held_a keys || held_LEFT keys then move_x - 1 else move_x in
  let move_y := 0 in
  let move_y := if held_s keys || held_DOWN keys then move_y + 1 else move_y in
  let move_y := if held_w keys || held_UP keys then move_y - 1 else move_y in
  let speed := (CAMERA_SPEED * dt)%Q in
  let speed := if held_LSHIFT keys || held_RSHIFT keys then (speed * (18 # 10))%Q else speed in
  let e := if negb (move_x =? 0)
           then with_camera (e.(camera_x) + speed * inject_Z move_x)%Q e.(camera_y) e else e in
  let e := if negb (move_y =? 0)
           then with_camera e.(camera_x) (e.(camera_y) + speed * inject_Z move_y)%Q e else e in
  _clamp_camera e.

(** [_save], lines 219-221: the file system after the save. *)
Definition _save (fs : LevelIO.FS) (e : t) : LevelIO.FS :=
  LevelIO.save_level fs e.(grid) e.(level_path).

(** [_reload], lines 223-231. *)
Definition _reload (fs : LevelIO.FS) (env_path : option string) (e : t) : t :=
  let '(data, source) := load_level fs env_path (Some e.(level_path)) in
  _show_message (with_size (Z.of_nat (List.length data)) (first_width data) (with_grid data e)).

End LevelEditor.

(** The editor's grid has rows, all of one positive length, and the recorded
    size is the size of the grid. *)
Definition editor_wf (e : LevelEditor.t) : Prop :=
  LevelEditor.grid e <> []
  /\ LevelEditor.height e = Z.of_nat (List.length (LevelEditor.grid e))
  /\ (0 < LevelEditor.width e)%Z
  /\ Forall (fun row => Z.of_nat (List.length row) = LevelEditor.width e) (LevelEditor.grid e).

(** The camera lies inside the level. *)
Definition camera_inside (e : LevelEditor.t) : Prop :=
  (0 <= LevelEditor.camera_x e
   <= inject_Z (Z.max 0 (LevelEditor.width e * LevelEditor.TILE_SIZE
                         - rw LevelEditor.work_area)))%Q
  /\ (0 <= LevelEditor.camera_y e
      <= inject_Z (Z.max 0 (LevelEditor.height e * LevelEditor.TILE_SIZE
                            - rh LevelEditor.work_area)))%Q.

(** ** Vertical sub-steps, app.py lines 485-487 (and 601-603, 698-700)

    The step count and step size that [Player.update], [MushroomItem.update]
    and [Goomba.update] compute from the distance to fall or rise. *)

Definition substep_count (total_dy : Q) : Z :=
  Z.max 1 (Qfloor (Qabs total_dy / inject_Z (Z.max 1 (TILE / 6))) + 1).

Definition substep_size (total_dy : Q) : Q :=
  (total_dy / inject_Z (substep_count total_dy))%Q.

(** ** MushroomItem.update, app.py lines 568-628 *)

Definition MUSHROOM_SPEED : Q := 160.
Definition MUSHROOM_EMERGE_SPEED : Q := 180.

Definition item_with_x (v : Q) (i : MushroomItem.t) : MushroomItem.t :=
  MushroomItem.mk v (MushroomItem.w i) (MushroomItem.h i) (MushroomItem.target_y i)
    (MushroomItem.y i) (MushroomItem.vx i) (MushroomItem.vy i) (MushroomItem.direction i)
    (MushroomItem.state i) (MushroomItem.remove i).
Definition item_with_y (v : Q) (i : MushroomItem.t) : MushroomItem.t :=
  MushroomItem.mk (MushroomItem.x i) (MushroomItem.w i) (MushroomItem.h i)
    (MushroomItem.target_y i) v (MushroomItem.vx i) (MushroomItem.vy i)
    (MushroomItem.direction i) (MushroomItem.state i) (MushroomItem.remove i).
Definition item_with_vx (v : Q) (i : MushroomItem.t) : MushroomItem.t :=
  MushroomItem.mk (MushroomItem.x i) (MushroomItem.w i) (MushroomItem.h i)
    (MushroomItem.target_y i) (MushroomItem.y i) v (MushroomItem.vy i)
    (MushroomItem.direction i) (MushroomItem.state i) (MushroomItem.remove i).
Definition item_with_vy (v : Q) (i : MushroomItem.t) : MushroomItem.t :=
  MushroomItem.mk (MushroomItem.x i) (MushroomItem.w i) (MushroomItem.h i)
    (MushroomItem.target_y i) (MushroomItem.y i) (MushroomItem.vx i) v
    (MushroomItem.direction i) (MushroomItem.state i) (MushroomItem.remove i).
Definition item_with_state (v : ItemState) (i : MushroomItem.t) : MushroomItem.t :=
  MushroomItem.mk (MushroomItem.x i) (MushroomItem.w i) (MushroomItem.h i)
    (MushroomItem.target_y i) (MushroomItem.y i) (MushroomItem.vx i) (MushroomItem.vy i)
    (MushroomItem.direction i) v (MushroomItem.remove i).

(** Lines 587-588 and 609-610: gates and the goal count as ground. *)
Definition as_ground (ch : ascii) : ascii :=
  if existsb (Ascii.eqb ch) ["|"; "F"]%char then "X"%char else ch.

(** Lines 586-597: the body of the item's wall loop. *)
Definition item_wall (acc : MushroomItem.t * Rect * bool) (tile : Z * Z * ascii)
  : MushroomItem.t * Rect * bool :=
  let '(i, r, hit_wall) := acc in
  let '(tx, ty, ch) := tile in
  if solid (as_ground ch) then
    let tile_r := tile_rect tx ty in
    if colliderect r tile_r then
      let i := if Qlt_bool 0 (MushroomItem.vx i)
               then item_with_x (inject_Z (left tile_r) - inject_Z (MushroomItem.w i) / 2)%Q i
               else if Qlt_bool (MushroomItem.vx i) 0
                    then item_with_x
                           (inject_Z (right tile_r) + inject_Z (MushroomItem.w i) / 2)%Q i
                    else i in
      (i, MushroomItem.rect i, true)
    else (i, r, hit_wall)
  else (i, r, hit_wall).

(** Lines 608-624: the body of the item's floor and ceiling loop. *)
Definition item_floor (step_dy : Q) (prev_rect : Rect) (acc : MushroomItem.t * Rect)
  (tile : Z * Z * ascii) : MushroomItem.t * Rect :=
  let '(i, r) := acc in
  let '(tx, ty, ch) := tile in
  if solid (as_ground ch) then
    let tile_r := tile_rect tx ty in
    if negb (colliderect r tile_r) then (i, r)
    else if Qlt_bool 0 step_dy then
      if (bottom prev_rect <=? top tile_r) && (bottom r >=? top tile_r) then
        let i := item_with_vy 0 (item_with_y (inject_Z (top tile_r)) i) in
        (i, MushroomItem.rect i)
      else (i, r)
    else if Qlt_bool step_dy 0 then
      if (top prev_rect >=? bottom tile_r) && (top r <=? bottom tile_r) then
        let i := item_with_vy 0
                   (item_with_y (inject_Z (bottom tile_r + MushroomItem.h i)) i) in
        (i, MushroomItem.rect i)
      else (i, r)
    else (i, r)
  else (i, r).

(** Lines 604-624: the item's vertical sub-steps. *)
Fixpoint item_substeps (n : nat) (step_dy : Q) (tilemap : Tilemap) (i : MushroomItem.t)
  : option MushroomItem.t :=
  match n with
  | O => Some i
  | S n' =>
      let prev_rect := MushroomItem.rect i in
      let i := item_with_y (MushroomItem.y i + step_dy)%Q i in
      let r := MushroomItem.rect i in
      let* tiles := tiles_in_aabb tilemap r in
      let '(i, _) := fold_left (item_floor step_dy prev_rect) tiles (i, r) in
      item_substeps n' step_dy tilemap i
  end.

(** [MushroomItem.update], lines 568-628. *)
Definition MushroomItem_update (dt : Q) (tilemap : Tilemap) (i : MushroomItem.t)
  : option MushroomItem.t :=
  if MushroomItem.remove i then Some i
  else match MushroomItem.state i with
  | emerging =>
      let i := item_with_y (MushroomItem.y i - MUSHROOM_EMERGE_SPEED * dt)%Q i in
      if Qle_bool (MushroomItem.y i) (MushroomItem.target_y i) then
        let i := item_with_state active (item_with_y (MushroomItem.target_y i) i) in
        Some (item_with_vx (inject_Z (MushroomItem.direction i) * MUSHROOM_SPEED)%Q i)
      else Some i
  | active =>
      let i := item_with_vy (MushroomItem.vy i + GRAVITY * dt)%Q i in
      let i := item_with_vy (clamp (MushroomItem.vy i) (- (9999)) MAX_FALL) i in
      let i := item_with_x (MushroomItem.x i + MushroomItem.vx i * dt)%Q i in
      let r := MushroomItem.rect i in
      let* tiles := tiles_in_aabb tilemap (inflate r 2 (-4)) in
      let '(i, _, hit_wall) := fold_left item_wall tiles (i, r, false) in
      let i := if hit_wall then item_with_vx (MushroomItem.vx i * - (1))%Q i else i in
      let total_dy := (MushroomItem.vy i * dt)%Q in
      let* i := item_substeps (Z.to_nat (substep_count total_dy)) (substep_size total_dy)
                  tilemap i in
      let level_h := Z.of_nat (List.length tilemap) * TILE in
      Some (if Qlt_bool (inject_Z (level_h + 200)) (MushroomItem.y i)
            then MushroomItem.with_remove true i else i)
  end.

(** ** class Goomba, app.py lines 643-748 *)

Module Goomba.

Definition SPEED : Q := 110.

Record t : Type := mk {
  x : Q;
  y : Q;
  w : Z;
  h : Z;
  vx : Q;
  vy : Q;
  facing : Z;
  alive : bool;
  remove : bool;
  squish_timer : Q
}.

Definition with_x (v : Q) (e : t) : t :=
  mk v e.(y) e.(w) e.(h) e.(vx) e.(vy) e.(facing) e.(alive) e.(remove) e.(squish_timer).
Definition with_y (v : Q) (e : t) : t :=
  mk e.(x) v e.(w) e.(h) e.(vx) e.(vy) e.(facing) e.(alive) e.(remove) e.(squish_timer).
Definition with_vx (v : Q) (e : t) : t :=
  mk e.(x) e.(y) e.(w) e.(h) v e.(vy) e.(facing) e.(alive) e.(remove) e.(squish_timer).
Definition with_vy (v : Q) (e : t) : t :=
  mk e.(x) e.(y) e.(w) e.(h) e.(vx) v e.(facing) e.(alive) e.(remove) e.(squish_timer).
Definition with_facing (v : Z) (e : t) : t :=
  mk e.(x) e.(y) e.(w) e.(h) e.(vx) e.(vy) v e.(alive) e.(remove) e.(squish_timer).
Definition with_alive (v : bool) (e : t) : t :=
  mk e.(x) e.(y) e.(w) e.(h) e.(vx) e.(vy) e.(facing) v e.(remove) e.(squish_timer).
Definition with_remove (v : bool) (e : t) : t :=
  mk e.(x) e.(y) e.(w) e.(h) e.(vx) e.(vy) e.(facing) e.(alive) v e.(squish_timer).
Definition with_squish_timer (v : Q) (e : t) : t :=
  mk e.(x) e.(y) e.(w) e.(h) e.(vx) e.(vy) e.(facing) e.(alive) e.(remove) v.

(** [__init__], lines 648-657; [choice] is the draw of
    [random.choice([-1, 1])]. *)
Definition init (x0 y0 : Q) (choice : Z) : t :=
  let vx0 := (inject_Z choice * SPEED)%Q in
  mk x0 y0 42 42 vx0 0 (if Qle_bool 0 vx0 then 1 else -1) true false 0.

(** [current_height], lines 664-667. *)
Definition current_height (e : t) : Z :=
  if e.(alive) then e.(h) else Z.max 18 (py_int (inject_Z e.(h) * (45 # 100))).

(** The [rect] property, lines 660-662. *)
Definition rect (e : t) : Rect :=
  let height := current_height e in
  mkRect (py_int (e.(x) - inject_Z e.(w) / 2)) (py_int (e.(y) - inject_Z height))
         e.(w) height.

(** Lines 684-693: the body of the wall loop. *)
Definition wall (acc : t * Rect * bool) (tile : Z * Z * ascii) : t * Rect * bool :=
  let '(e, r, hit_wall) := acc in
  let '(tx, ty, ch) := tile in
  if existsb (Ascii.eqb ch) ["|"; "F"]%char || solid ch then
    let tile_r := tile_rect tx ty in
    if colliderect r tile_r then
      let e := if Qlt_bool 0 e.(vx)
               then with_x (inject_Z (left tile_r) - inject_Z e.(w) / 2)%Q e
               else if Qlt_bool e.(vx) 0
                    then with_x (inject_Z (right tile_r) + inject_Z e.(w) / 2)%Q e
                    else e in
      (e, rect e, true)
    else (e, r, hit_wall)
  else (e, r, hit_wall).

(** Lines 705-721: the body of the floor and ceiling loop. *)
Definition floor (step_dy : Q) (prev_rect : Rect) (acc : t * Rect) (tile : Z * Z * ascii)
  : t * Rect :=
  let '(e, r) := acc in
  let '(tx, ty, ch) := tile in
  if solid (as_ground ch) then
    let tile_r := tile_rect tx ty in
    if negb (colliderect r tile_r) then (e, r)
    else if Qlt_bool 0 step_dy then
      if (bottom prev_rect <=? top tile_r) && (bottom r >=? top tile_r) then
        let e := with_vy 0 (with_y (inject_Z (top tile_r)) e) in
        (e, rect e)
      else (e, r)
    else if Qlt_bool step_dy 0 then
      if (top prev_rect >=? bottom tile_r) && (top r <=? bottom tile_r) then
        let e := with_vy 0 (with_y (inject_Z (bottom tile_r + current_height e)) e) in
        (e, rect e)
      else (e, r)
    else (e, r)
  else (e, r).

(** Lines 701-721: the vertical sub-steps. *)
Fixpoint substeps (n : nat) (step_dy : Q) (tilemap : Tilemap) (e : t) : option t :=
  match n with
  | O => Some e
  | S n' =>
      let prev_rect := rect e in
      let e := with_y (e.(y) + step_dy)%Q e in
      let r := rect e in
      let* tiles := tiles_in_aabb tilemap r in
      let '(e, _) := fold_left (floor step_dy prev_rect) tiles (e, r) in
      substeps n' step_dy tilemap e
  end.

(** [update], lines 669-725. *)
Definition update (dt : Q) (tilemap : Tilemap) (e : t) : option t :=
  if e.(remove) then Some e
  else if negb e.(alive) then
    let e := with_squish_timer (e.(squish_timer) - dt)%Q e in
    Some (if Qle_bool e.(squish_timer) 0 then with_remove true e else e)
  else
    let e := with_vy (e.(vy) + GRAVITY * dt)%Q e in
    let e := with_vy (clamp e.(vy) (- (9999)) MAX_FALL) e in
    let e := with_x (e.(x) + e.(vx) * dt)%Q e in
    let r := rect e in
    let* tiles := tiles_in_aabb tilemap (inflate r 2 (-4)) in
    let '(e, _, hit_wall) := fold_left wall tiles (e, r, false) in
    let e := if hit_wall
             then let e := with_vx (e.(vx) * - (1))%Q e in
                  with_facing (if Qle_bool 0 e.(vx) then 1 else -1) e
             else e in
    let total_dy := (e.(vy) * dt)%Q in
    let* e := substeps (Z.to_nat (substep_count total_dy)) (substep_size total_dy) tilemap e in
    let level_h := Z.of_nat (List.length tilemap) * TILE in
    Some (if Qlt_bool (inject_Z (level_h + 200)) e.(y) then with_remove true e else e).

(** [squish], lines 727-737. *)
Definition squish (e : t) : t :=
  if negb e.(alive) || e.(remove) then e
  else with_squish_timer (35 # 100) (with_vy 0 (with_vx 0 (with_alive false e))).

(** [hit_by_dash], lines 739-748. *)
Definition hit_by_dash (e : t) : t :=
  if e.(remove) then e else with_remove true e.

End Goomba.

(** ** Game.update, lines 987-1023: the player meets the enemies *)

(** Lines 989-1021: the body of the loop for one enemy.  The accumulator
    holds the session, the player's hitbox [r], the enemies already visited
    and whether the loop has been left by [break]. *)
Definition meet_enemy (prev_player_rect : Rect)
  (acc : Game.t * Rect * list Goomba.t * bool) (enemy : Goomba.t)
  : option (Game.t * Rect * list Goomba.t * bool) :=
  let '(g, r, seen, stopped) := acc in
  let p := Game.player g in
  if stopped then Some (g, r, seen ++ [enemy], stopped)
  else if Goomba.remove enemy || negb (Goomba.alive enemy)
  then Some (g, r, seen ++ [enemy], stopped)
  else
    let er := Goomba.rect enemy in
    if negb (colliderect r er) then Some (g, r, seen ++ [enemy], stopped)
    else
      let stomp := (bottom prev_player_rect <=? top er + 6)
                   && Qle_bool 0 (Player.vy p)
                   && Qle_bool (inject_Z (bottom prev_player_rect)) (Player.y p) in
      if stomp then
        let p := Player.with_vy (JUMP_VEL * (55 # 100))%Q p in
        let p := Player.with_on_ground false p in
        let p := Player.with_since_ground 999 p in
        let p := Player.with_y (inject_Z (top er)) p in
        Some (Game.with_player p g, Player.rect p, seen ++ [Goomba.squish enemy], stopped)
      else if Qlt_bool 0 (Player.dash_t p) then
        Some (g, r, seen ++ [Goomba.hit_by_dash enemy], stopped)
      else if Qlt_bool 0 (Player.inv p) then Some (g, r, seen ++ [enemy], stopped)
      else
        let* (lethal, p) := Player.take_damage (Game.tilemap g) p in
        let g := Game.with_player p g in
        if lethal then Some (Game.with_state DEAD g, r, seen ++ [enemy], true)
        else
          let knock := if Qle_bool (Goomba.x enemy) (Player.x p) then 1 else -1 in
          let p := Player.with_vx (280 * inject_Z knock)%Q p in
          let p := Player.with_vy (- (280))%Q p in
          let p := Player.with_x (Player.x p + inject_Z knock * 8)%Q p in
          Some (Game.with_player p g, Player.rect p, seen ++ [enemy], stopped)
  .

Fixpoint meet_enemies (prev_player_rect : Rect)
  (acc : Game.t * Rect * list Goomba.t * bool) (todo : list Goomba.t)
  : option (Game.t * Rect * list Goomba.t * bool) :=
  match todo with
  | [] => Some acc
  | enemy :: rest =>
      let* acc := meet_enemy prev_player_rect acc enemy in
      meet_enemies prev_player_rect acc rest
  end.

(** Lines 987-1023: the player against every enemy, then the removed
    enemies are dropped.  [prev_player_rect] is the player's hitbox at the
    start of the frame (line 896). *)
Definition Game_meet_enemies (prev_player_rect : Rect) (g : Game.t)
  (enemies : list Goomba.t) : option (Game.t * list Goomba.t) :=
  let r := Player.rect (Game.player g) in
  let* (g, _, seen, _) := meet_enemies prev_player_rect (g, r, [], false) enemies in
  Some (g, filter (fun e => negb (Goomba.remove e)) seen).

(** ** Game.camera_follow, app.py lines 881-886 *)

Definition WIDTH : Z := 1152.

Definition camera_follow (dt : Q) (g : Game.t) (camera_x : Q) : option Q :=
  let target_x := (Player.x (Game.player g) - inject_Z WIDTH * (4 # 10))%Q in
  let* row0 := py_index (Game.tilemap g) 0 in
  let level_w := Z.of_nat (List.length row0) * TILE in
  let target_x := clamp target_x 0 (inject_Z (Z.max 0 (level_w - WIDTH))) in
  Some (camera_x + (target_x - camera_x) * Qmin 1 (10 * dt))%Q.

(** ** Game.reset, app.py lines 790-817 *)





(** ** Runs of frames and the facts stated about them *)



(** A live enemy walks at its speed in the direction it faces. *)
Definition walking (e : Goomba.t) : Prop :=
  (Qabs (Goomba.vx e) == Goomba.SPEED)%Q
  /\ Goomba.facing e = (if Qle_bool 0 (Goomba.vx e) then 1 else -1)
  /\ (Goomba.vy e <= MAX_FALL)%Q.

(** The largest camera offset: the level's width beyond the window. *)
Definition camera_limit (g : Game.t) : Q :=
  inject_Z (Z.max 0 (LevelEditor.first_width (Game.tilemap g) * TILE - WIDTH)).







(** Nothing can hurt this player in the enemy stage. *)
Definition protected (p : Player.t) : Prop :=
  Player.form p = big \/ (0 < Player.inv p)%Q \/ (0 < Player.dash_t p)%Q.

(** An item that has moved: position and fall speed may differ, and the
    fall speed is the old one or zero. *)
Definition item_moved (i j : MushroomItem.t) : Prop :=
  MushroomItem.w j = MushroomItem.w i /\ MushroomItem.h j = MushroomItem.h i
  /\ MushroomItem.target_y j = MushroomItem.target_y i
  /\ MushroomItem.vx j = MushroomItem.vx i
  /\ MushroomItem.direction j = MushroomItem.direction i
  /\ MushroomItem.state j = MushroomItem.state i
  /\ MushroomItem.remove j = MushroomItem.remove i
  /\ (MushroomItem.vy j = MushroomItem.vy i \/ MushroomItem.vy j = 0%Q).

(** The same for an enemy. *)
Definition enemy_moved (e f : Goomba.t) : Prop :=
  Goomba.w f = Goomba.w e /\ Goomba.h f = Goomba.h e
  /\ Goomba.vx f = Goomba.vx e /\ Goomba.facing f = Goomba.facing e
  /\ Goomba.alive f = Goomba.alive e /\ Goomba.remove f = Goomba.remove e
  /\ Goomba.squish_timer f = Goomba.squish_timer e
  /\ (Goomba.vy f = Goomba.vy e \/ Goomba.vy f = 0%Q).

(** ** Relations between player states *)

(** [reshaped p q]: [q] is [p] up to the attributes that [set_form] may
    write (form, the three heights, the crouch flag). *)
Definition reshaped (p q : Player.t) : Prop :=
  q = Player.with_h (Player.h q)
        (Player.with_crouch (Player.crouch q)
           (Player.with_h_crouch (Player.h_crouch q)
              (Player.with_h_stand (Player.h_stand q)
                 (Player.with_form (Player.form q) p)))).

(** The hitbox fits the form and the crouch flag. *)
Definition body_ok (p : Player.t) : Prop :=
  Player.h_stand p = (match Player.form p with small => H_STAND | big => H_STAND_BIG end)
  /\ Player.h_crouch p = (match Player.form p with small => H_CROUCH | big => H_CROUCH_BIG end)
  /\ Player.h p = (if Player.crouch p then Player.h_crouch p else Player.h_stand p).

(** The attributes that [body_ok] relates. *)
Definition body (p : Player.t) : Form * Z * Z * Z * bool :=
  (Player.form p, Player.h_stand p, Player.h_crouch p, Player.h p, Player.crouch p).

(** Two grids of the same size: as many rows, and rows as long. *)
Definition same_size (tm tm' : Tilemap) : Prop :=
  List.length tm' = List.length tm
  /\ forall width, Forall (fun row => List.length row = width) tm ->
                   Forall (fun row => List.length row = width) tm'.

(** What the player's stage of a frame keeps of the session: the state, the
    key memory, the size of the grid and the items already there; the
    session's and the player's coin counters move together. *)
Definition session_kept (g g' : Game.t) : Prop :=
  Game.state g' = Game.state g
  /\ Game._jp_last g' = Game._jp_last g /\ Game._sh_last g' = Game._sh_last g
  /\ Game._cr_last g' = Game._cr_last g
  /\ Game.coins_got g' - Player.coins (Game.player g')
     = Game.coins_got g - Player.coins (Game.player g)
  /\ (exists spawned, Game.items g' = Game.items g ++ spawned)
  /\ same_size (Game.tilemap g) (Game.tilemap g').

(** The horizontal move writes [x] and [vx] only, and [vx] is kept or zeroed. *)
Definition moved_along (p q : Player.t) : Prop :=
  q = Player.with_vx (Player.vx q) (Player.with_x (Player.x q) p)
  /\ (Player.vx q = Player.vx p \/ Player.vx q = 0%Q).

(** The vertical move leaves [x] and [vx] alone, and [vy] is kept or zeroed. *)
Definition moved_up (p q : Player.t) : Prop :=
  moved p q /\ Player.x q = Player.x p /\ Player.vx q = Player.vx p
  /\ (Player.vy q = Player.vy p \/ Player.vy q = 0%Q).

(** From the end of the control stages to the end of the frame: position,
    velocity, ground contact, coins, tilt and the jump buffer may change;
    [vx] is kept or zeroed, [vy] is kept, zeroed or turned upward. *)
Definition carried (p q : Player.t) : Prop :=
  q = Player.with_visual_tilt (Player.visual_tilt q)
        (Player.with_jump_buf (Player.jump_buf q)
           (Player.with_coins (Player.coins q)
              (Player.with_since_ground (Player.since_ground q)
                 (Player.with_on_ground (Player.on_ground q)
                    (Player.with_vy (Player.vy q)
                       (Player.with_vx (Player.vx q)
                          (Player.with_y (Player.y q) (Player.with_x (Player.x q) p))))))))
  /\ (Player.vx q = Player.vx p \/ Player.vx q = 0%Q)
  /\ (Player.vy q = Player.vy p \/ Player.vy q = 0%Q \/ (Player.vy q < 0)%Q).

(** The speed clamp of lines 440-444 for a player that is not dashing. *)
Definition speed_limit (p : Player.t) : Q :=
  let max_speed := MAX_SPEED in
  let max_speed := if Player.sprint p then (max_speed * SPRINT_SPEED_MULT)%Q else max_speed in
  if Player.crouch p && Qle_bool (Player.crouch_slide_t p) 0
  then (max_speed * CROUCH_SPEED_MULT)%Q else max_speed.

(** * Properties *)

(** ** Basic facts about the Python layer *)

Lemma Qlt_bool_iff (a b : Q) : Qlt_bool a b = true <-> (a < b)%Q.
Proof.
  unfold Qlt_bool. rewrite negb_true_iff. split; intro H.
  - apply Qnot_le_lt. intro Hle. apply Qle_bool_iff in Hle. congruence.
  - destruct (Qle_bool b a) eqn:E; [|reflexivity].
    apply Qle_bool_iff in E. exfalso. apply (Qlt_not_le _ _ H E).
Qed.

Lemma Qlt_bool_false_iff (a b : Q) : Qlt_bool a b = false <-> (b <= a)%Q.
Proof.
  unfold Qlt_bool. rewrite negb_false_iff. apply Qle_bool_iff.
Qed.

Lemma py_range_In (a b i : Z) : In i (py_range a b) <-> a <= i < b.
Proof.
  unfold py_range. rewrite in_map_iff. split.
  - intros [k [<- Hk]]. apply in_seq in Hk. lia.
  - intros H. exists (Z.to_nat (i - a)). split; [lia|]. apply in_seq. lia.
Qed.

Lemma py_range_NoDup (a b : Z) : NoDup (py_range a b).
Proof.
  unfold py_range. generalize (seq_NoDup (Z.to_nat (b - a)) 0).
  generalize (seq 0 (Z.to_nat (b - a))). intros l Hl.
  induction Hl as [|k l Hk Hl IH]; simpl; constructor; auto.
  rewrite in_map_iff. intros [k' [Heq Hin]].
  assert (k' = k) by lia. subst. contradiction.
Qed.

Lemma py_index_inside {A : Type} (l : list A) (i : Z) :
  0 <= i < Z.of_nat (List.length l) -> py_index l i = nth_error l (Z.to_nat i).
Proof.
  intros H. unfold py_index.
  replace ((0 <=? i) && (i <? Z.of_nat (List.length l))) with true; [reflexivity|].
  symmetry. apply andb_true_iff. split; [apply Z.leb_le | apply Z.ltb_lt]; lia.
Qed.

Lemma py_index_inside_Some {A : Type} (l : list A) (i : Z) :
  0 <= i < Z.of_nat (List.length l) -> exists a, py_index l i = Some a.
Proof.
  intros H. rewrite py_index_inside by exact H.
  destruct (nth_error l (Z.to_nat i)) eqn:E; [eauto|].
  apply nth_error_None in E. lia.
Qed.

Lemma py_index_nonneg_Some {A : Type} (l : list A) (i : Z) (a : A) :
  0 <= i -> py_index l i = Some a -> i < Z.of_nat (List.length l).
Proof.
  intros Hi. unfold py_index.
  destruct ((0 <=? i) && (i <? Z.of_nat (List.length l))) eqn:E.
  - intros _. apply andb_true_iff in E. destruct E as [_ E]. apply Z.ltb_lt in E. exact E.
  - destruct ((- Z.of_nat (List.length l) <=? i) && (i <? 0)) eqn:E'; [|discriminate].
    apply andb_true_iff in E'. destruct E' as [_ E']. apply Z.ltb_lt in E'. lia.
Qed.

(** ** The tile query *)

Lemma scan_row_spec (row : list ascii) (ty : Z) (txs : list Z) :
  (forall tx, In tx txs -> 0 <= tx < Z.of_nat (List.length row)) ->
  exists out, scan_row row ty txs = Some out /\
    (NoDup txs -> NoDup out) /\
    forall t, In t out <->
      exists tx ch, t = (tx, ty, ch) /\ In tx txs /\
                    py_index row tx = Some ch /\ ch <> " "%char.
Proof.
  induction txs as [|tx txs IH]; intros Hin.
  - exists []. split; [reflexivity|]. split; [constructor|].
    intros t. split; [intros []|]. intros (tx & ch & _ & [] & _).
  - destruct IH as (rest & Hrest & Hnd & Hspec).
    { intros tx' H'. apply Hin. now right. }
    destruct (py_index_inside_Some row tx) as [ch Hch].
    { apply Hin. now left. }
    simpl. rewrite Hch. simpl. rewrite Hrest. simpl.
    destruct (Ascii.eqb ch " ") eqn:Esp.
    + exists rest. split; [reflexivity|]. split.
      * intros Hn. inversion Hn; auto.
      * intros t. rewrite Hspec. split.
        -- intros (tx' & ch' & -> & Hi & Hc & Hne). exists tx', ch'. simpl. auto.
        -- intros (tx' & ch' & -> & [<-|Hi] & Hc & Hne).
           ++ rewrite Hch in Hc. inversion Hc; subst ch'.
              apply Ascii.eqb_eq in Esp. contradiction.
           ++ exists tx', ch'. auto.
    + exists ((tx, ty, ch) :: rest). split; [reflexivity|]. split.
      * intros Hn. inversion Hn as [|? ? Hnotin Hn']; subst. constructor; auto.
        rewrite Hspec. intros (tx' & ch' & Heq & Hi & _). inversion Heq; subst.
        contradiction.
      * intros t. simpl. rewrite Hspec. split.
        -- intros [<- | (tx' & ch' & -> & Hi & Hc & Hne)].
           ++ exists tx, ch. repeat split; auto.
              intros ->. rewrite Ascii.eqb_refl in Esp. discriminate.
           ++ exists tx', ch'. auto.
        -- intros (tx' & ch' & -> & [<-|Hi] & Hc & Hne).
           ++ left. rewrite Hch in Hc. inversion Hc. reflexivity.
           ++ right. exists tx', ch'. auto.
Qed.

Lemma scan_rows_spec (tm : Tilemap) (width : nat) (tys txs : list Z) :
  Forall (fun row => List.length row = width) tm ->
  (forall ty, In ty tys -> 0 <= ty < Z.of_nat (List.length tm)) ->
  (forall tx, In tx txs -> 0 <= tx < Z.of_nat width) ->
  exists out, scan_rows tm tys txs = Some out /\
    (NoDup tys -> NoDup txs -> NoDup out) /\
    forall t, In t out <->
      exists tx ty ch, t = (tx, ty, ch) /\ In ty tys /\ In tx txs /\
                       grid_get tm tx ty = Some ch /\ ch <> " "%char.
Proof.
  intros Hw. induction tys as [|ty tys IH]; intros Hty Htx.
  - exists []. split; [reflexivity|]. split; [constructor|].
    intros t. split; [intros []|]. intros (tx & ty & ch & _ & [] & _).
  - destruct IH as (rest & Hrest & Hnd & Hspec); auto.
    { intros ty' H'. apply Hty. now right. }
    destruct (py_index_inside_Some tm ty) as [row Hrow].
    { apply Hty. now left. }
    assert (Hlen : List.length row = width).
    { rewrite py_index_inside in Hrow by (apply Hty; now left).
      apply nth_error_In in Hrow. rewrite Forall_forall in Hw. auto. }
    destruct (scan_row_spec row ty txs) as (here & Hhere & Hnd1 & Hspec1).
    { rewrite Hlen. exact Htx. }
    simpl. rewrite Hrow. simpl. rewrite Hhere. simpl. rewrite Hrest. simpl.
    exists (here ++ rest). split; [reflexivity|]. split.
    + intros Hn1 Hn2. inversion Hn1 as [|? ? Hnotin Hn1']; subst.
      apply NoDup_app.
      * auto.
      * auto.
      * intros t Ht1 Ht2. apply Hspec1 in Ht1. apply Hspec in Ht2.
        destruct Ht1 as (tx1 & ch1 & -> & _).
        destruct Ht2 as (tx2 & ty2 & ch2 & Heq & Hin & _).
        inversion Heq; subst. contradiction.
    + intros t. rewrite in_app_iff, Hspec1, Hspec. unfold grid_get. split.
      * intros [(tx & ch & -> & Hi & Hc & Hne) | (tx & ty' & ch & -> & Hy & Hx & Hc & Hne)].
        -- exists tx, ty, ch. repeat split; simpl; auto. rewrite Hrow. exact Hc.
        -- exists tx, ty', ch. repeat split; simpl; auto.
      * intros (tx & ty' & ch & -> & [<-|Hy] & Hx & Hc & Hne).
        -- left. exists tx, ch. repeat split; auto.
           rewrite Hrow in Hc. exact Hc.
        -- right. exists tx, ty', ch. auto.
Qed.

Lemma tile_div_lower (a i : Z) : a / TILE <= i <-> a < TILE * (i + 1).
Proof. unfold TILE. split; intro H; Z.to_euclidean_division_equations; lia. Qed.

Lemma tile_div_upper (a i : Z) : i <= a / TILE <-> TILE * i <= a.
Proof. unfold TILE. split; intro H; Z.to_euclidean_division_equations; lia. Qed.

Lemma grid_get_inside (tm : Tilemap) (width : nat) (tx ty : Z) (ch : ascii) :
  Forall (fun row => List.length row = width) tm ->
  0 <= tx -> 0 <= ty -> grid_get tm tx ty = Some ch ->
  ty < Z.of_nat (List.length tm) /\ tx < Z.of_nat width.
Proof.
  intros Hw Hx Hy. unfold grid_get.
  destruct (py_index tm ty) as [row|] eqn:Hrow; simpl; [|discriminate].
  intros Hc. pose proof (py_index_nonneg_Some _ _ _ Hy Hrow) as Hty.
  split; [exact Hty|].
  rewrite py_index_inside in Hrow by lia. apply nth_error_In in Hrow.
  rewrite Forall_forall in Hw. rewrite <- (Hw _ Hrow).
  exact (py_index_nonneg_Some _ _ _ Hx Hc).
Qed.

(** What the query returns on a grid with rows: the non-empty cells whose
    tile square meets the closed rectangle of [rect], each once. *)
Lemma tiles_in_aabb_spec (tm : Tilemap) (rect : Rect) :
  tm <> [] -> equal_rows tm ->
  exists out, tiles_in_aabb tm rect = Some out /\ NoDup out /\
    forall tx ty ch, In (tx, ty, ch) out <->
      (0 <= tx /\ 0 <= ty /\ grid_get tm tx ty = Some ch /\
       ch <> " "%char /\ tile_meets rect tx ty).
Proof.
  intros Hne [width Hw]. destruct tm as [|row0 rest]; [congruence|].
  assert (Hw0 : List.length row0 = width) by (inversion Hw; assumption).
  unfold tiles_in_aabb.
  replace (py_index (row0 :: rest) 0) with (Some row0) by reflexivity.
  cbv beta iota delta [bind]. rewrite Hw0.
  set (tys := py_range _ _). set (txs := py_range _ _).
  destruct (scan_rows_spec (row0 :: rest) width tys txs Hw) as (out & Hout & Hnd & Hspec).
  { intros ty Hty. apply py_range_In in Hty. lia. }
  { intros tx Htx. apply py_range_In in Htx. lia. }
  exists out. split; [exact Hout|]. split.
  { apply Hnd; apply py_range_NoDup. }
  intros tx ty ch. rewrite Hspec. unfold tile_meets. split.
  - intros (tx' & ty' & ch' & Heq & Hy & Hx & Hc & Hn). inversion Heq; subst tx' ty' ch'.
    apply py_range_In in Hy. apply py_range_In in Hx.
    pose proof (tile_div_lower (left rect) tx). pose proof (tile_div_upper (right rect) tx).
    pose proof (tile_div_lower (top rect) ty). pose proof (tile_div_upper (bottom rect) ty).
    repeat split; auto; lia.
  - intros (Hx & Hy & Hc & Hn & Hm1 & Hm2 & Hm3 & Hm4).
    destruct (grid_get_inside _ _ _ _ _ Hw Hx Hy Hc) as [Hty Htx].
    exists tx, ty, ch. repeat split; auto; apply py_range_In.
    + pose proof (tile_div_lower (top rect) ty). pose proof (tile_div_upper (bottom rect) ty). lia.
    + pose proof (tile_div_lower (left rect) tx). pose proof (tile_div_upper (right rect) tx). lia.
Qed.

(** C8 (as amended).  On a grid with at least one row and equal-length rows
    the query succeeds and yields, each once, exactly the non-empty cells of
    the grid whose tile square meets the closed rectangle spanned by the
    corners of [rect]; nothing outside the grid is yielded.  The query is a
    function of the grid, which it cannot change. *)
Theorem tiles_in_aabb_exact (tm : Tilemap) (rect : Rect) :
  tm <> [] -> equal_rows tm ->
  exists out, tiles_in_aabb tm rect = Some out /\ NoDup out /\
    forall tx ty ch, In (tx, ty, ch) out <->
      (0 <= tx /\ 0 <= ty /\ grid_get tm tx ty = Some ch /\
       ch <> " "%char /\ tile_meets rect tx ty).
Proof. exact (tiles_in_aabb_spec tm rect). Qed.

Lemma tiles_in_aabb_exact_witness :
  exists out, tiles_in_aabb [[" "; "X"]; ["C"; " "]]%char (mkRect 10 10 36 52) = Some out /\ NoDup out /\
    forall tx ty ch, In (tx, ty, ch) out <->
      (0 <= tx /\ 0 <= ty /\ grid_get [[" "; "X"]; ["C"; " "]]%char tx ty = Some ch /\
       ch <> " "%char /\ tile_meets (mkRect 10 10 36 52) tx ty).
Proof.
  apply tiles_in_aabb_exact.
  - discriminate.
  - exists 2%nat. repeat constructor.
Defined.

(** C8, the claim as stated fails.  The query is a broad phase over the
    closed rectangle: a tile that only touches the right edge of the
    rectangle is yielded although its square and the rectangle do not
    intersect ([colliderect] is false; the same holds at the bottom edge).
    And on the grid without rows, whose rows are (vacuously) of equal
    length, the query yields nothing at all: [len(tilemap[0])] raises
    [IndexError]. *)
Lemma tiles_in_aabb_touching_edge :
  (equal_rows [[" "; "X"]]%char
   /\ tiles_in_aabb [[" "; "X"]]%char (mkRect 0 0 48 48) = Some [(1, 0, "X"%char)]
   /\ colliderect (mkRect 0 0 48 48) (tile_rect 1 0) = false
   /\ right (mkRect 0 0 48 48) = left (tile_rect 1 0))
  /\ (equal_rows [[" "]; ["X"]]%char
      /\ tiles_in_aabb [[" "]; ["X"]]%char (mkRect 0 0 48 48) = Some [(0, 1, "X"%char)]
      /\ colliderect (mkRect 0 0 48 48) (tile_rect 0 1) = false)
  /\ (equal_rows [] /\ tiles_in_aabb [] (mkRect 0 0 48 48) = None).
Proof.
  split; [|split].
  - split; [exists 2%nat; repeat constructor | repeat split].
  - split; [exists 1%nat; repeat constructor | repeat split].
  - split; [exists 0%nat; constructor | reflexivity].
Qed.

(** ** Writing one cell of the grid *)

Lemma set_nth_length {A : Type} (l : list A) (n : nat) (v : A) :
  List.length (set_nth l n v) = List.length l.
Proof.
  revert n. induction l as [|a l IH]; intros [|n]; simpl; auto.
Qed.

Lemma nth_error_set_nth_same {A : Type} (l : list A) (n : nat) (v : A) :
  (n < List.length l)%nat -> nth_error (set_nth l n v) n = Some v.
Proof.
  revert n. induction l as [|a l IH]; intros [|n] H; simpl in *; try lia; auto.
  apply IH. lia.
Qed.

Lemma nth_error_set_nth_other {A : Type} (l : list A) (n m : nat) (v : A) :
  n <> m -> nth_error (set_nth l n v) m = nth_error l m.
Proof.
  revert n m. induction l as [|a l IH]; intros [|n] [|m] H; simpl; auto; try congruence.
Qed.

Lemma py_setitem_Some {A : Type} (l : list A) (i : Z) (a v : A) :
  py_index l i = Some a -> exists l', py_setitem l i v = Some l'.
Proof.
  unfold py_index, py_setitem.
  destruct ((0 <=? i) && (i <? Z.of_nat (List.length l))); [eauto|].
  destruct ((- Z.of_nat (List.length l) <=? i) && (i <? 0)); [eauto|discriminate].
Qed.

Lemma grid_set_Some (tm : Tilemap) (tx ty : Z) (c v : ascii) :
  grid_get tm tx ty = Some c -> exists tm', grid_set tm tx ty v = Some tm'.
Proof.
  unfold grid_get, grid_set.
  destruct (py_index tm ty) as [row|] eqn:Hrow; simpl; [|discriminate].
  intros Hc. destruct (py_setitem_Some row tx c v Hc) as [row' ->]. simpl.
  exact (py_setitem_Some tm ty row row' Hrow).
Qed.

Lemma py_setitem_length {A : Type} (l l' : list A) (i : Z) (v : A) :
  py_setitem l i v = Some l' -> List.length l' = List.length l.
Proof.
  unfold py_setitem.
  destruct ((0 <=? i) && (i <? Z.of_nat (List.length l))).
  - intros [= <-]. apply set_nth_length.
  - destruct ((- Z.of_nat (List.length l) <=? i) && (i <? 0)); [|discriminate].
    intros [= <-]. apply set_nth_length.
Qed.

Lemma py_setitem_inside {A : Type} (l : list A) (i : Z) (v : A) :
  0 <= i < Z.of_nat (List.length l) -> py_setitem l i v = Some (set_nth l (Z.to_nat i) v).
Proof.
  intros H. unfold py_setitem.
  replace ((0 <=? i) && (i <? Z.of_nat (List.length l))) with true; [reflexivity|].
  symmetry. apply andb_true_iff. split; [apply Z.leb_le | apply Z.ltb_lt]; lia.
Qed.

Lemma py_index_setitem_same {A : Type} (l l' : list A) (i : Z) (v : A) :
  0 <= i -> py_setitem l i v = Some l' -> py_index l' i = Some v.
Proof.
  intros Hi Hset. pose proof (py_setitem_length _ _ _ _ Hset) as Hlen.
  unfold py_setitem in Hset.
  destruct ((0 <=? i) && (i <? Z.of_nat (List.length l))) eqn:E.
  - apply andb_true_iff in E. destruct E as [_ E]. apply Z.ltb_lt in E.
    inversion Hset; subst l'. rewrite py_index_inside by lia.
    apply nth_error_set_nth_same. lia.
  - destruct ((- Z.of_nat (List.length l) <=? i) && (i <? 0)) eqn:E'; [|discriminate].
    apply andb_true_iff in E'. destruct E' as [_ E']. apply Z.ltb_lt in E'. lia.
Qed.

Lemma py_index_setitem_other {A : Type} (l l' : list A) (i j : Z) (v : A) :
  0 <= i -> 0 <= j -> i <> j -> py_setitem l i v = Some l' -> py_index l' j = py_index l j.
Proof.
  intros Hi Hj Hne Hset. pose proof (py_setitem_length _ _ _ _ Hset) as Hlen.
  unfold py_setitem in Hset.
  destruct ((0 <=? i) && (i <? Z.of_nat (List.length l))) eqn:E.
  - inversion Hset; subst l'. unfold py_index. rewrite set_nth_length.
    destruct ((0 <=? j) && (j <? Z.of_nat (List.length l))).
    + apply nth_error_set_nth_other. lia.
    + destruct ((- Z.of_nat (List.length l) <=? j) && (j <? 0)) eqn:E'; [|reflexivity].
      apply andb_true_iff in E'. destruct E' as [_ E']. apply Z.ltb_lt in E'. lia.
  - destruct ((- Z.of_nat (List.length l) <=? i) && (i <? 0)) eqn:E'; [|discriminate].
    apply andb_true_iff in E'. destruct E' as [_ E']. apply Z.ltb_lt in E'. lia.
Qed.

(** The written cell reads back the new code. *)
Lemma grid_get_set_same (tm tm' : Tilemap) (tx ty : Z) (v : ascii) :
  0 <= tx -> 0 <= ty -> grid_set tm tx ty v = Some tm' -> grid_get tm' tx ty = Some v.
Proof.
  intros Hx Hy. unfold grid_set, grid_get.
  destruct (py_index tm ty) as [row|] eqn:Hrow; simpl; [|discriminate].
  destruct (py_setitem row tx v) as [row'|] eqn:Hrow'; simpl; [|discriminate].
  intros Hset. rewrite (py_index_setitem_same _ _ _ _ Hy Hset). simpl.
  exact (py_index_setitem_same _ _ _ _ Hx Hrow').
Qed.

(** Every other cell keeps its code. *)
Lemma grid_get_set_other (tm tm' : Tilemap) (tx ty tx' ty' : Z) (v : ascii) :
  0 <= tx -> 0 <= ty -> 0 <= tx' -> 0 <= ty' -> (tx', ty') <> (tx, ty) ->
  grid_set tm tx ty v = Some tm' -> grid_get tm' tx' ty' = grid_get tm tx' ty'.
Proof.
  intros Hx Hy Hx' Hy' Hne. unfold grid_set, grid_get.
  destruct (py_index tm ty) as [row|] eqn:Hrow; simpl; [|discriminate].
  destruct (py_setitem row tx v) as [row'|] eqn:Hrow'; simpl; [|discriminate].
  intros Hset. destruct (Z.eq_dec ty' ty) as [->|Hty].
  - rewrite (py_index_setitem_same _ _ _ _ Hy Hset), Hrow. simpl.
    apply (py_index_setitem_other row row' tx tx' v); auto. congruence.
  - rewrite (py_index_setitem_other tm tm' ty ty' row'); auto.
Qed.

Lemma set_nth_Forall {A : Type} (P : A -> Prop) (l : list A) (n : nat) (v : A) :
  Forall P l -> P v -> Forall P (set_nth l n v).
Proof.
  intros Hl Hv. revert n. induction Hl as [|a l Ha Hl IH]; intros [|n]; simpl; auto.
Qed.

Lemma py_setitem_Forall {A : Type} (P : A -> Prop) (l l' : list A) (i : Z) (v : A) :
  Forall P l -> P v -> py_setitem l i v = Some l' -> Forall P l'.
Proof.
  intros Hl Hv. unfold py_setitem.
  destruct ((0 <=? i) && (i <? Z.of_nat (List.length l))).
  - intros [= <-]. now apply set_nth_Forall.
  - destruct ((- Z.of_nat (List.length l) <=? i) && (i <? 0)); [|discriminate].
    intros [= <-]. now apply set_nth_Forall.
Qed.

Lemma py_index_In {A : Type} (l : list A) (i : Z) (a : A) :
  py_index l i = Some a -> In a l.
Proof.
  unfold py_index.
  destruct ((0 <=? i) && (i <? Z.of_nat (List.length l))).
  - apply nth_error_In.
  - destruct ((- Z.of_nat (List.length l) <=? i) && (i <? 0)); [|discriminate].
    apply nth_error_In.
Qed.

(** Writing a cell keeps the shape of the grid. *)
Lemma grid_set_shape (tm tm' : Tilemap) (tx ty : Z) (v : ascii) :
  grid_set tm tx ty v = Some tm' ->
  List.length tm' = List.length tm /\
  forall width, Forall (fun row => List.length row = width) tm ->
                Forall (fun row => List.length row = width) tm'.
Proof.
  unfold grid_set.
  destruct (py_index tm ty) as [row|] eqn:Hrow; simpl; [|discriminate].
  destruct (py_setitem row tx v) as [row'|] eqn:Hrow'; simpl; [|discriminate].
  intros Hset. split; [exact (py_setitem_length _ _ _ _ Hset)|].
  intros width Hw. apply (py_setitem_Forall _ tm tm' ty row' Hw); [|exact Hset].
  rewrite (py_setitem_length _ _ _ _ Hrow').
  rewrite Forall_forall in Hw. apply Hw. exact (py_index_In _ _ _ Hrow).
Qed.

Lemma grid_set_wf (tm tm' : Tilemap) (tx ty : Z) (v : ascii) :
  grid_set tm tx ty v = Some tm' -> tm <> [] -> equal_rows tm ->
  tm' <> [] /\ equal_rows tm'.
Proof.
  intros Hset Hne [width Hw]. destruct (grid_set_shape _ _ _ _ _ Hset) as [Hlen Hsh].
  split.
  - intros ->. destruct tm; [congruence|discriminate].
  - exists width. auto.
Qed.

Lemma grid_get_total (tm : Tilemap) (width : nat) (tx ty : Z) :
  Forall (fun row => List.length row = width) tm ->
  0 <= ty < Z.of_nat (List.length tm) -> 0 <= tx < Z.of_nat width ->
  exists c, grid_get tm tx ty = Some c.
Proof.
  intros Hw Hy Hx. unfold grid_get.
  destruct (py_index_inside_Some tm ty Hy) as [row Hrow]. rewrite Hrow. simpl.
  apply py_index_inside_Some.
  rewrite Forall_forall in Hw. rewrite (Hw row (py_index_In _ _ _ Hrow)). exact Hx.
Qed.

(** ** The grid callbacks (C7) *)

Lemma Form_eqb_eq (a b : Form) : Form_eqb a b = true <-> a = b.
Proof. destruct a, b; simpl; split; congruence. Qed.

Lemma hit_block_cases (g : Game.t) (tx ty : Z) (ch : ascii) :
  equal_rows (Game.tilemap g) ->
  exists g', Game.hit_block tx ty ch g = Some g' /\
    (hit_guard g tx ty ch ->
       exists tm', grid_set (Game.tilemap g) tx ty (if Ascii.eqb ch "S" then " " else "X")%char
                   = Some tm' /\ Game.tilemap g' = tm') /\
    (~ hit_guard g tx ty ch -> g' = g).
Proof.
  intros [width Hw]. unfold Game.hit_block, hit_guard.
  destruct ((ty <? 0) || (ty >=? Z.of_nat (List.length (Game.tilemap g)))) eqn:Ety.
  { exists g. split; [reflexivity|]. split; [|reflexivity].
    intros (Hx & Hy & Hc & _). exfalso.
    destruct (grid_get_inside _ _ _ _ _ Hw Hx Hy Hc) as [H1 _].
    apply orb_true_iff in Ety. destruct Ety as [E|E]; [apply Z.ltb_lt in E | apply Z.geb_le in E]; lia. }
  apply orb_false_iff in Ety. destruct Ety as [Ey1 Ey2].
  apply Z.ltb_ge in Ey1. rewrite Z.geb_leb in Ey2. apply Z.leb_gt in Ey2.
  destruct (py_index_inside_Some (Game.tilemap g) 0) as [row0 Hrow0]; [lia|].
  rewrite Hrow0. cbv beta iota delta [bind].
  assert (Hlen0 : List.length row0 = width).
  { rewrite Forall_forall in Hw. apply Hw. exact (py_index_In _ _ _ Hrow0). }
  rewrite Hlen0.
  destruct ((tx <? 0) || (tx >=? Z.of_nat width)) eqn:Etx.
  { exists g. split; [reflexivity|]. split; [|reflexivity].
    intros (Hx & Hy & Hc & _). exfalso.
    destruct (grid_get_inside _ _ _ _ _ Hw Hx Hy Hc) as [_ H2].
    apply orb_true_iff in Etx. destruct Etx as [E|E]; [apply Z.ltb_lt in E | apply Z.geb_le in E]; lia. }
  apply orb_false_iff in Etx. destruct Etx as [Ex1 Ex2].
  apply Z.ltb_ge in Ex1. rewrite Z.geb_leb in Ex2. apply Z.leb_gt in Ex2.
  destruct (grid_get_total _ _ tx ty Hw) as [current Hcur]; [lia|lia|].
  rewrite Hcur.
  destruct (Ascii.eqb current ch) eqn:Ecur; cbv beta iota delta [bind negb].
  2:{ exists g. split; [reflexivity|]. split; [|reflexivity].
      intros (_ & _ & Hc & _). inversion Hc; subst.
      rewrite Ascii.eqb_refl in Ecur. discriminate. }
  apply Ascii.eqb_eq in Ecur. subst current.
  destruct (Ascii.eqb ch "B") eqn:EB.
  { apply Ascii.eqb_eq in EB. subst ch.
    destruct (grid_set_Some _ _ _ _ "X"%char Hcur) as [tm' Htm']. rewrite Htm'. simpl.
    eexists. split; [reflexivity|]. split.
    - intros _. exists tm'. split; [first [exact Htm' | reflexivity]|reflexivity].
    - intros Hn. exfalso. apply Hn. repeat split; auto. }
  destruct (Ascii.eqb ch "Q") eqn:EQ.
  { apply Ascii.eqb_eq in EQ. subst ch.
    destruct (grid_set_Some _ _ _ _ "X"%char Hcur) as [tm' Htm']. rewrite Htm'. simpl.
    eexists. split; [reflexivity|]. split.
    - intros _. exists tm'. split; [first [exact Htm' | reflexivity]|reflexivity].
    - intros Hn. exfalso. apply Hn. repeat split; auto. }
  destruct (Ascii.eqb ch "S") eqn:ES.
  { apply Ascii.eqb_eq in ES. subst ch.
    destruct (Form_eqb (Player.form (Game.player g)) big) eqn:Ef; simpl.
    - apply Form_eqb_eq in Ef.
      destruct (grid_set_Some _ _ _ _ " "%char Hcur) as [tm' Htm']. rewrite Htm'. simpl.
      eexists. split; [reflexivity|]. split.
      + intros _. exists tm'. split; [first [exact Htm' | reflexivity]|reflexivity].
      + intros Hn. exfalso. apply Hn. repeat split; auto.
    - exists g. split; [reflexivity|]. split; [|reflexivity].
      intros (_ & _ & _ & [H|[H|[_ H]]]); try discriminate.
      rewrite H in Ef. discriminate. }
  exists g. split; [reflexivity|]. split; [|reflexivity].
  intros (_ & _ & _ & [H|[H|[H _]]]); subst ch; discriminate.
Qed.

Lemma destroy_gate_cases (g : Game.t) (tx ty : Z) (current : ascii) :
  grid_get (Game.tilemap g) tx ty = Some current ->
  exists g', Game.destroy_gate tx ty g = Some g' /\
    (current = "|"%char ->
       exists tm', grid_set (Game.tilemap g) tx ty " "%char = Some tm' /\
                   g' = Game.with_tilemap tm' g) /\
    (current <> "|"%char -> g' = g).
Proof.
  intros Hcur. unfold Game.destroy_gate. rewrite Hcur. simpl.
  destruct (Ascii.eqb current "|") eqn:E.
  - apply Ascii.eqb_eq in E. subst current.
    destruct (grid_set_Some _ _ _ _ " "%char Hcur) as [tm' Htm']. rewrite Htm'. simpl.
    eexists. split; [reflexivity|]. split; [|congruence].
    intros _. exists tm'. auto.
  - exists g. split; [reflexivity|]. split; [|reflexivity].
    intros ->. rewrite Ascii.eqb_refl in E. discriminate.
Qed.

(** C7.  On a grid with equal-length rows [hit_block] always returns; it
    rewrites the target cell when that cell holds the reported code and the
    code is ['B'], ['Q'], or ['S'] with a big player, and otherwise leaves
    the whole session (grid, coin counts, items, player) as it was.
    [destroy_gate], called on a cell of the grid, empties the cell when it
    holds ['|'] and otherwise leaves the session as it was. *)
Theorem callbacks_guarded (g : Game.t) (tx ty : Z) (ch : ascii) :
  equal_rows (Game.tilemap g) ->
  (exists g', Game.hit_block tx ty ch g = Some g' /\
     (hit_guard g tx ty ch ->
        exists tm', grid_set (Game.tilemap g) tx ty (if Ascii.eqb ch "S" then " " else "X")%char
                    = Some tm' /\ Game.tilemap g' = tm') /\
     (~ hit_guard g tx ty ch ->
        g' = g /\ Game.tilemap g' = Game.tilemap g /\ Game.coins_got g' = Game.coins_got g /\
        Player.coins (Game.player g') = Player.coins (Game.player g) /\
        Game.items g' = Game.items g)) /\
  (forall current, grid_get (Game.tilemap g) tx ty = Some current ->
     exists g', Game.destroy_gate tx ty g = Some g' /\
       (current = "|"%char ->
          exists tm', grid_set (Game.tilemap g) tx ty " "%char = Some tm' /\
                      g' = Game.with_tilemap tm' g) /\
       (current <> "|"%char ->
          g' = g /\ Game.tilemap g' = Game.tilemap g /\ Game.coins_got g' = Game.coins_got g /\
          Game.items g' = Game.items g)).
Proof.
  intros Hw. split.
  - destruct (hit_block_cases g tx ty ch Hw) as (g' & Hg' & Hyes & Hno).
    exists g'. split; [exact Hg'|]. split; [exact Hyes|].
    intros Hn. rewrite (Hno Hn). repeat split; reflexivity.
  - intros current Hcur.
    destruct (destroy_gate_cases g tx ty current Hcur) as (g' & Hg' & Hyes & Hno).
    exists g'. split; [exact Hg'|]. split; [exact Hyes|].
    intros Hn. rewrite (Hno Hn). repeat split; reflexivity.
Qed.

Lemma callbacks_guarded_witness :
  equal_rows [["B"; "S"]; ["|"; " "]]%char /\
  exists g', Game.hit_block 0 0 "B" (session [["B"; "S"]; ["|"; " "]]%char (Player.init 24 96))
             = Some g' /\
             grid_get (Game.tilemap g') 0 0 = Some "X"%char.
Proof.
  assert (Hw : equal_rows [["B"; "S"]; ["|"; " "]]%char).
  { exists 2%nat. repeat constructor. }
  split; [exact Hw|].
  destruct (callbacks_guarded (session [["B"; "S"]; ["|"; " "]]%char (Player.init 24 96))
              0 0 "B"%char Hw) as [(g' & Hg' & Hyes & _) _].
  exists g'. split; [exact Hg'|].
  destruct Hyes as (tm' & Htm' & Htm).
  { unfold hit_guard. repeat split; try lia. left. reflexivity. }
  rewrite Htm. eapply grid_get_set_same; [| | exact Htm']; lia.
Defined.

(** A small player hitting a breakable block changes nothing; a hit reported
    for a cell that meanwhile holds another code changes nothing either. *)
Example hit_block_no_ops :
  let g := session [["B"; "S"]; ["|"; " "]]%char (Player.init 24 96) in
  Game.hit_block 1 0 "S" g = Some g /\ Game.hit_block 0 0 "Q" g = Some g /\
  Game.hit_block 5 0 "B" g = Some g /\ Game.hit_block 0 (-1) "B" g = Some g /\
  Game.destroy_gate 1 1 g = Some g.
Proof. repeat split. Qed.

(** [destroy_gate] reads the cell without a range check of its own: off the
    grid it raises, where [hit_block] returns.  The player's move only calls
    it with a cell that the tile query has yielded. *)
Remark destroy_gate_outside_grid :
  let g := session [["B"; "S"]; ["|"; " "]]%char (Player.init 24 96) in
  Game.destroy_gate 5 0 g = None /\ Game.hit_block 5 0 "B" g = Some g.
Proof. split; reflexivity. Qed.

(** ** Totality of the probes *)

Lemma tiles_in_aabb_total (tm : Tilemap) (rect : Rect) :
  tm <> [] -> equal_rows tm -> exists out, tiles_in_aabb tm rect = Some out.
Proof.
  intros Hne Hw. destruct (tiles_in_aabb_spec tm rect Hne Hw) as (out & Hout & _).
  eauto.
Qed.

Lemma rect_fits_total (tm : Tilemap) (height : Z) (p : Player.t) :
  tm <> [] -> equal_rows tm -> exists b, Player._rect_fits (Some tm) height p = Some b.
Proof.
  intros Hne Hw. unfold Player._rect_fits.
  destruct (tiles_in_aabb_total tm (inflate (Player.rect_of_height height p) (-8) (-2)) Hne Hw)
    as [out ->].
  simpl. eauto.
Qed.

Lemma can_stand_total (tm : Tilemap) (p : Player.t) :
  tm <> [] -> equal_rows tm -> exists b, Player._can_stand tm p = Some b.
Proof.
  intros Hne Hw. unfold Player._can_stand.
  destruct (tiles_in_aabb_total tm
              (inflate (Player.rect_of_height (Player.h_stand p) p) (-8) (-2)) Hne Hw)
    as [out ->].
  simpl. eauto.
Qed.



(** ** Jumping (C1) *)

(** What [try_jump] itself does: with a pending buffer it jumps exactly when
    the player is grounded or inside the coyote window. *)
Lemma try_jump_spec (p : Player.t) :
  (0 < Player.jump_buf p)%Q ->
  (Player.on_ground p = true \/ (Player.since_ground p <= COYOTE_TIME)%Q ->
     exists p', Player.try_jump p = (true, p') /\
       Player.vy p' = (JUMP_VEL * (if Player.sprint p then SPRINT_JUMP_MULT else 1))%Q /\
       Player.on_ground p' = false /\ Player.jump_buf p' = 0%Q) /\
  (Player.on_ground p = false -> ~ (Player.since_ground p <= COYOTE_TIME)%Q ->
     Player.try_jump p = (false, p)).
Proof.
  intros Hbuf. apply Qlt_bool_iff in Hbuf. unfold Player.try_jump. rewrite Hbuf. split.
  - intros Hg.
    assert (E : Player.on_ground p || Qle_bool (Player.since_ground p) COYOTE_TIME = true).
    { destruct Hg as [-> | H]; [reflexivity|].
      apply Qle_bool_iff in H. rewrite H. apply orb_true_r. }
    rewrite E. cbn [andb]. eexists. split; [reflexivity|]. repeat split.
  - intros Hg Hc. rewrite Hg.
    destruct (Qle_bool (Player.since_ground p) COYOTE_TIME) eqn:E; [|reflexivity].
    apply Qle_bool_iff in E. contradiction.
Qed.

(** Without a buffered request [try_jump] does nothing. *)
Lemma try_jump_no_request (p : Player.t) :
  (Player.jump_buf p <= 0)%Q -> Player.try_jump p = (false, p).
Proof.
  intros H. apply Qlt_bool_false_iff in H. unfold Player.try_jump. rewrite H.
  rewrite andb_false_r. reflexivity.
Qed.

(** The session calls [try_jump] only in the frame of a fresh press: in any
    other frame the player leaves the jump stage as it entered it, whatever
    the buffer holds. *)
Lemma jump_stage_needs_press (keys : Keys) (g : Game.t) :
  jump_pressed keys = false -> jump_stage keys g = g.
Proof. intros H. unfold jump_stage. rewrite H. reflexivity. Qed.

Lemma make_keys_jump_pressed (keys_raw : Pressed) (g : Game.t) :
  jump_pressed (make_keys keys_raw g) = key_SPACE keys_raw && negb (Game._jp_last g).
Proof. reflexivity. Qed.

(** C1, the code at the failing input.  The player falls towards the floor,
    far outside the coyote window, and SPACE goes down: the buffer is armed
    and no jump is possible yet.  One frame later, SPACE still held, the
    player lands with the buffer still positive, and the frame ends with the
    player on the ground, not jumping, although [try_jump] would jump. *)
Theorem buffered_jump_lost_on_landing :
  exists g1 g2,
    Game_update_player (1 # 60) space_down (session flat_floor falling_player) = Some g1 /\
    Player.on_ground (Game.player g1) = false /\
    (Player.jump_buf (Game.player g1) == JUMP_BUFFER)%Q /\
    (0 < Player.vy (Game.player g1))%Q /\
    Game_update_player (1 # 60) space_down g1 = Some g2 /\
    Player.on_ground (Game.player g2) = true /\
    (0 < Player.jump_buf (Game.player g2))%Q /\
    (Player.vy (Game.player g2) == 0)%Q /\
    fst (Player.try_jump (Game.player g2)) = true.
Proof.
  eexists. eexists.
  split; [vm_compute; reflexivity|].
  split; [reflexivity|].
  split; [reflexivity|].
  split; [reflexivity|].
  split; [vm_compute; reflexivity|].
  repeat split.
Qed.

(** ** Frame conditions of the move-and-collide stages *)

Lemma moved_refl (p : Player.t) : moved p p.
Proof. destruct p. reflexivity. Qed.

Lemma moved_trans (p q r : Player.t) : moved p q -> moved q r -> moved p r.
Proof.
  unfold moved. destruct p, q, r. cbn. intros H1 H2.
  inversion H1; subst. inversion H2; subst. reflexivity.
Qed.

Lemma moved_with_x (p : Player.t) (v : Q) : moved p (Player.with_x v p).
Proof. destruct p. reflexivity. Qed.
Lemma moved_with_y (p : Player.t) (v : Q) : moved p (Player.with_y v p).
Proof. destruct p. reflexivity. Qed.
Lemma moved_with_vx (p : Player.t) (v : Q) : moved p (Player.with_vx v p).
Proof. destruct p. reflexivity. Qed.
Lemma moved_with_vy (p : Player.t) (v : Q) : moved p (Player.with_vy v p).
Proof. destruct p. reflexivity. Qed.
Lemma moved_with_on_ground (p : Player.t) (v : bool) : moved p (Player.with_on_ground v p).
Proof. destruct p. reflexivity. Qed.
Lemma moved_with_since_ground (p : Player.t) (v : Q) : moved p (Player.with_since_ground v p).
Proof. destruct p. reflexivity. Qed.
Lemma moved_with_coins (p : Player.t) (v : Z) : moved p (Player.with_coins v p).
Proof. destruct p. reflexivity. Qed.

Create HintDb moved.
#[local] Hint Resolve moved_refl moved_with_x moved_with_y moved_with_vx moved_with_vy
  moved_with_on_ground moved_with_since_ground moved_with_coins : moved.

Lemma moved_dash_cd (p q : Player.t) : moved p q -> Player.dash_cd q = Player.dash_cd p.
Proof. intros H. rewrite H. reflexivity. Qed.
Lemma moved_dash_t (p q : Player.t) : moved p q -> Player.dash_t q = Player.dash_t p.
Proof. intros H. rewrite H. reflexivity. Qed.
Lemma moved_crouch (p q : Player.t) : moved p q -> Player.crouch q = Player.crouch p.
Proof. intros H. rewrite H. reflexivity. Qed.
Lemma moved_form (p q : Player.t) : moved p q -> Player.form q = Player.form p.
Proof. intros H. rewrite H. reflexivity. Qed.
Lemma moved_jump_buf (p q : Player.t) : moved p q -> Player.jump_buf q = Player.jump_buf p.
Proof. intros H. rewrite H. reflexivity. Qed.

Lemma block_x_moved (r tile_r : Rect) (p : Player.t) : moved p (block_x r tile_r p).
Proof.
  unfold block_x. destruct (colliderect r tile_r); [|apply moved_refl].
  destruct (Qlt_bool 0 (Player.vx p)); [|destruct (Qlt_bool (Player.vx p) 0)];
    destruct p; reflexivity.
Qed.

Lemma horizontal_tile_moved (r : Rect) (p : Player.t) (c : option (Z * Z))
  (tile : Z * Z * ascii) :
  moved p (fst (horizontal_tile r (p, c) tile)).
Proof.
  destruct tile as [[tx ty] ch]. unfold horizontal_tile.
  destruct (Ascii.eqb ch "|"); [destruct (Qlt_bool 0 (Player.dash_t p))|];
    destruct (solid ch); cbn [fst];
    eauto using moved_trans, block_x_moved, moved_refl.
Qed.

Lemma horizontal_fold_moved (r : Rect) (tiles : list (Z * Z * ascii))
  (p : Player.t) (c : option (Z * Z)) :
  moved p (fst (fold_left (horizontal_tile r) tiles (p, c))).
Proof.
  revert p c. induction tiles as [|tile tiles IH]; intros p c; cbn [fold_left].
  - apply moved_refl.
  - pose proof (horizontal_tile_moved r p c tile) as H.
    destruct (horizontal_tile r (p, c) tile) as [p1 c1]. cbn [fst] in H.
    eapply moved_trans; [exact H | apply IH].
Qed.

(** [hit_block] touches the player's coin count only, and keeps the grid
    well formed. *)
Lemma hit_block_frame (g g' : Game.t) (tx ty : Z) (ch : ascii) :
  Game.hit_block tx ty ch g = Some g' ->
  moved (Game.player g) (Game.player g') /\
  (grid_wf (Game.tilemap g) -> grid_wf (Game.tilemap g')).
Proof.
  unfold Game.hit_block.
  destruct ((ty <? 0) || (ty >=? Z.of_nat (List.length (Game.tilemap g)))).
  { intros [= <-]. split; [apply moved_refl | auto]. }
  destruct (py_index (Game.tilemap g) 0) as [row0|]; cbv beta iota delta [bind]; [|discriminate].
  destruct ((tx <? 0) || (tx >=? Z.of_nat (List.length row0))).
  { intros [= <-]. split; [apply moved_refl | auto]. }
  destruct (grid_get (Game.tilemap g) tx ty) as [current|]; [|discriminate].
  destruct (negb (Ascii.eqb current ch)).
  { intros [= <-]. split; [apply moved_refl | auto]. }
  destruct (Ascii.eqb ch "B").
  { destruct (grid_set (Game.tilemap g) tx ty "X") as [tm|] eqn:Hset; [|discriminate].
    intros [= <-]. cbn. split; [apply moved_refl|].
    intros [H1 H2]. exact (grid_set_wf _ _ _ _ _ Hset H1 H2). }
  destruct (Ascii.eqb ch "Q").
  { destruct (grid_set (Game.tilemap g) tx ty "X") as [tm|] eqn:Hset; [|discriminate].
    intros [= <-]. cbn. split; [apply moved_with_coins|].
    intros [H1 H2]. exact (grid_set_wf _ _ _ _ _ Hset H1 H2). }
  destruct (Ascii.eqb ch "S").
  { destruct (negb (Form_eqb (Player.form (Game.player g)) big)).
    { intros [= <-]. split; [apply moved_refl | auto]. }
    destruct (grid_set (Game.tilemap g) tx ty " ") as [tm|] eqn:Hset; [|discriminate].
    intros [= <-]. cbn. split; [apply moved_refl|].
    intros [H1 H2]. exact (grid_set_wf _ _ _ _ _ Hset H1 H2). }
  intros [= <-]. split; [apply moved_refl | auto].
Qed.

Lemma destroy_gate_frame (g g' : Game.t) (tx ty : Z) :
  Game.destroy_gate tx ty g = Some g' ->
  Game.player g' = Game.player g /\
  (grid_wf (Game.tilemap g) -> grid_wf (Game.tilemap g')).
Proof.
  unfold Game.destroy_gate.
  destruct (grid_get (Game.tilemap g) tx ty) as [current|]; [|discriminate].
  cbv beta iota delta [bind]. destruct (Ascii.eqb current "|").
  - destruct (grid_set (Game.tilemap g) tx ty " ") as [tm|] eqn:Hset; [|discriminate].
    intros [= <-]. cbn. split; [reflexivity|].
    intros [H1 H2]. exact (grid_set_wf _ _ _ _ _ Hset H1 H2).
  - intros [= <-]. auto.
Qed.

Lemma move_horizontal_frame (dt : Q) (g g' : Game.t) :
  move_horizontal dt g = Some g' ->
  moved (Game.player g) (Game.player g') /\
  (grid_wf (Game.tilemap g) -> grid_wf (Game.tilemap g')).
Proof.
  unfold move_horizontal.
  destruct (tiles_in_aabb _ _) as [tiles|]; [|discriminate]. cbv beta iota delta [bind].
  match goal with |- context [fold_left ?f tiles (?p0, None)] =>
    pose proof (horizontal_fold_moved
                  (Player.rect p0) tiles p0 None) as Hm;
    destruct (fold_left f tiles (p0, None)) as [p1 c1] end.
  cbn [fst] in Hm.
  assert (Hm' : moved (Game.player g) p1).
  { eapply moved_trans; [apply moved_with_x | exact Hm]. }
  destruct c1 as [[gx gy]|].
  - intros H. destruct (destroy_gate_frame _ _ _ _ H) as [Hp Hwf].
    rewrite Hp. cbn. split; [exact Hm' | exact Hwf].
  - intros [= <-]. cbn. auto.
Qed.

Lemma vertical_tile_frame (step_dy : Q) (prev_rect : Rect) (g g' : Game.t)
  (r r' : Rect) (tile : Z * Z * ascii) :
  vertical_tile step_dy prev_rect (g, r) tile = Some (g', r') ->
  moved (Game.player g) (Game.player g') /\
  (grid_wf (Game.tilemap g) -> grid_wf (Game.tilemap g')).
Proof.
  destruct tile as [[tx ty] ch]. unfold vertical_tile.
  destruct (Ascii.eqb ch "|" && Qlt_bool 0 (Player.dash_t (Game.player g))).
  { intros [= <- <-]. split; [apply moved_refl | auto]. }
  destruct (Ascii.eqb ch "|" || solid ch).
  2:{ intros [= <- <-]. split; [apply moved_refl | auto]. }
  destruct (negb (colliderect r (tile_rect tx ty))).
  { intros [= <- <-]. split; [apply moved_refl | auto]. }
  destruct (Qlt_bool 0 step_dy).
  { destruct ((bottom prev_rect <=? top (tile_rect tx ty)) && (bottom r >=? top (tile_rect tx ty))).
    - intros [= <- <-]. cbn. split; [|auto]. destruct (Game.player g). reflexivity.
    - intros [= <- <-]. split; [apply moved_refl | auto]. }
  destruct (Qlt_bool step_dy 0).
  2:{ intros [= <- <-]. split; [apply moved_refl | auto]. }
  destruct ((top prev_rect >=? bottom (tile_rect tx ty)) && (top r <=? bottom (tile_rect tx ty))).
  2:{ intros [= <- <-]. split; [apply moved_refl | auto]. }
  destruct (existsb (Ascii.eqb ch) ["B"; "S"; "Q"]%char).
  - destruct (Game.hit_block tx ty ch _) as [g1|] eqn:Hhit; [|discriminate].
    cbv beta iota delta [bind]. intros [= <- <-].
    destruct (hit_block_frame _ _ _ _ _ Hhit) as [Hm Hwf]. cbn in Hm, Hwf.
    split; [|exact Hwf].
    eapply moved_trans; [|exact Hm]. destruct (Game.player g). reflexivity.
  - intros [= <- <-]. cbn. split; [|auto]. destruct (Game.player g). reflexivity.
Qed.

Lemma vertical_tiles_frame (step_dy : Q) (prev_rect : Rect)
  (tiles : list (Z * Z * ascii)) (g g' : Game.t) (r r' : Rect) :
  vertical_tiles step_dy prev_rect (g, r) tiles = Some (g', r') ->
  moved (Game.player g) (Game.player g') /\
  (grid_wf (Game.tilemap g) -> grid_wf (Game.tilemap g')).
Proof.
  revert g r. induction tiles as [|tile tiles IH]; intros g r; cbn [vertical_tiles].
  - intros [= <- <-]. split; [apply moved_refl | auto].
  - destruct (vertical_tile step_dy prev_rect (g, r) tile) as [[g1 r1]|] eqn:H1; [|discriminate].
    cbv beta iota delta [bind]. intros H2.
    destruct (vertical_tile_frame _ _ _ _ _ _ _ H1) as [Hm1 Hw1].
    destruct (IH _ _ H2) as [Hm2 Hw2].
    split; [eapply moved_trans; eassumption | auto].
Qed.

Lemma vertical_substep_frame (step_dy : Q) (g g' : Game.t) :
  vertical_substep step_dy g = Some g' ->
  moved (Game.player g) (Game.player g') /\
  (grid_wf (Game.tilemap g) -> grid_wf (Game.tilemap g')).
Proof.
  unfold vertical_substep.
  destruct (tiles_in_aabb _ _) as [tiles|]; [|discriminate]. cbv beta iota delta [bind].
  destruct (vertical_tiles _ _ _ tiles) as [[g1 r1]|] eqn:H1; [|discriminate].
  intros [= <-]. destruct (vertical_tiles_frame _ _ _ _ _ _ _ H1) as [Hm Hw].
  cbn in Hm, Hw. split; [|exact Hw].
  eapply moved_trans; [apply moved_with_y | exact Hm].
Qed.

Lemma vertical_substeps_frame (n : nat) (step_dy : Q) (g g' : Game.t) :
  vertical_substeps n step_dy g = Some g' ->
  moved (Game.player g) (Game.player g') /\
  (grid_wf (Game.tilemap g) -> grid_wf (Game.tilemap g')).
Proof.
  revert g. induction n as [|n IH]; intros g; cbn [vertical_substeps].
  - intros [= <-]. split; [apply moved_refl | auto].
  - destruct (vertical_substep step_dy g) as [g1|] eqn:H1; [|discriminate].
    cbv beta iota delta [bind]. intros H2.
    destruct (vertical_substep_frame _ _ _ H1) as [Hm1 Hw1].
    destruct (IH _ H2) as [Hm2 Hw2].
    split; [eapply moved_trans; eassumption | auto].
Qed.

Lemma move_vertical_frame (dt : Q) (g g' : Game.t) :
  move_vertical dt g = Some g' ->
  moved (Game.player g) (Game.player g') /\
  (grid_wf (Game.tilemap g) -> grid_wf (Game.tilemap g')).
Proof. unfold move_vertical. apply vertical_substeps_frame. Qed.

(** ** Frame conditions of the control stages *)

Lemma step_if_keeps {A : Type} (f : Player.t -> A) (c : Player.t -> bool)
  (u : Player.t -> Player.t) (p : Player.t) :
  (forall q, f (u q) = f q) -> f (step_if c u p) = f p.
Proof. intros H. unfold step_if. destruct (c p); auto. Qed.

Lemma decay_trail_keeps {A : Type} (f : Player.t -> A) (dt : Q) (p : Player.t) :
  (forall v q, f (Player.with_trail v q) = f q) -> f (decay_trail dt p) = f p.
Proof. intros H. unfold decay_trail. destruct (Player.trail p); auto. Qed.

Lemma tick_timers_steps (dt : Q) (p : Player.t) :
  tick_timers dt p =
  decay_trail dt
    (step_if (fun p => Qlt_bool 0 (Player.power_flash p))
       (fun p => Player.with_power_flash (Qmax 0 (Player.power_flash p - dt)) p)
    (step_if (fun p => Qlt_bool 0 (Player.crouch_slide_t p))
       (fun p => Player.with_crouch_slide_t (Player.crouch_slide_t p - dt) p)
    (step_if (fun p => Qlt_bool 0 (Player.skid_t p))
       (fun p => Player.with_skid_t (Player.skid_t p - dt) p)
    (step_if (fun p => Qlt_bool 0 (Player.inv p))
       (fun p => Player.with_inv (Player.inv p - dt) p)
    (step_if (fun p => Qlt_bool 0 (Player.dash_cd p))
       (fun p => Player.with_dash_cd (Player.dash_cd p - dt) p)
    (step_if (fun p => Qlt_bool 0 (Player.dash_t p))
       (fun p => Player.with_dash_t (Player.dash_t p - dt) p)
    (step_if (fun p => Qlt_bool 0 (Player.jump_buf p))
       (fun p => Player.with_jump_buf (Player.jump_buf p - dt) p)
    (step_if (fun p => Qlt_bool (Player.since_ground p) 10)
       (fun p => Player.with_since_ground (Player.since_ground p + dt) p) p)))))))).
Proof. unfold tick_timers. cbv beta zeta delta [step_if]. reflexivity. Qed.

(** The timers leave alone every attribute that is not a timer. *)
Lemma tick_timers_keeps {A : Type} (f : Player.t -> A) (dt : Q) (p : Player.t) :
  (forall v q, f (Player.with_since_ground v q) = f q) ->
  (forall v q, f (Player.with_jump_buf v q) = f q) ->
  (forall v q, f (Player.with_dash_t v q) = f q) ->
  (forall v q, f (Player.with_dash_cd v q) = f q) ->
  (forall v q, f (Player.with_inv v q) = f q) ->
  (forall v q, f (Player.with_skid_t v q) = f q) ->
  (forall v q, f (Player.with_crouch_slide_t v q) = f q) ->
  (forall v q, f (Player.with_power_flash v q) = f q) ->
  (forall v q, f (Player.with_trail v q) = f q) ->
  f (tick_timers dt p) = f p.
Proof.
  intros. rewrite tick_timers_steps.
  rewrite decay_trail_keeps by auto.
  repeat (rewrite step_if_keeps by (intros; auto)). reflexivity.
Qed.

Lemma tick_timers_dash_cd (dt : Q) (p : Player.t) :
  Player.dash_cd (tick_timers dt p) =
  if Qlt_bool 0 (Player.dash_cd p) then (Player.dash_cd p - dt)%Q else Player.dash_cd p.
Proof.
  rewrite tick_timers_steps.
  rewrite decay_trail_keeps by reflexivity.
  do 4 (rewrite step_if_keeps by reflexivity).
  unfold step_if at 1.
  set (q := step_if _ _ (step_if _ _ (step_if _ _ p))). cbv beta.
  assert (Hq : Player.dash_cd q = Player.dash_cd p).
  { unfold q. do 3 (rewrite step_if_keeps by reflexivity). reflexivity. }
  clearbody q. rewrite Hq.
  destruct (Qlt_bool 0 (Player.dash_cd p)); [reflexivity | exact Hq].
Qed.

Lemma input_axis_keeps {A : Type} (f : Player.t -> A) (keys : Keys) (p : Player.t) :
  (forall v q, f (Player.with_facing v q) = f q) ->
  f (snd (Player.input_axis keys p)) = f p.
Proof.
  intros H. unfold Player.input_axis. cbn [snd].
  destruct (negb _); auto.
Qed.

Ltac split_ifs :=
  repeat match goal with
         | |- context [if ?b then _ else _] => destruct b
         end.

(** Reduce projections of updated records, and nothing else. *)
Ltac proj_cbn :=
  cbn [
    Player.x Player.y Player.w Player.h_stand Player.h_crouch Player.h Player.form
    Player.vx Player.vy Player.on_ground Player.since_ground Player.jump_buf
    Player.facing Player.trail Player.dash_t Player.dash_cd Player.inv Player.dash_dir
    Player.sprint Player.crouch Player.dash_lock Player.shift_held_prev
    Player.dash_unlocked Player.skid_t Player.skid_dir Player.visual_tilt
    Player.crouch_slide_t Player.crouch_slide_decel Player.crouch_slide_dir
    Player.coins Player.power_flash Player.with_x Player.with_y Player.with_h_stand
    Player.with_h_crouch Player.with_h Player.with_form Player.with_vx Player.with_vy
    Player.with_on_ground Player.with_since_ground Player.with_jump_buf
    Player.with_facing Player.with_trail Player.with_dash_t Player.with_dash_cd
    Player.with_inv Player.with_dash_dir Player.with_sprint Player.with_crouch
    Player.with_dash_lock Player.with_dash_unlocked Player.with_skid_t
    Player.with_skid_dir Player.with_visual_tilt Player.with_crouch_slide_t
    Player.with_crouch_slide_decel Player.with_crouch_slide_dir Player.with_coins
    Player.with_power_flash Game.tilemap Game.player Game.items Game.coins_got
    Game.state Game._jp_last Game._sh_last Game._cr_last Game.with_tilemap
    Game.with_player Game.with_items Game.with_coins_got Game.with_state
    Game.with_last fst snd
  ].

Lemma proj_if {A : Type} (f : Player.t -> A) (b : bool) (p q : Player.t) :
  f (if b then p else q) = if b then f p else f q.
Proof. destruct b; reflexivity. Qed.

Lemma if_same {A : Type} (b : bool) (a : A) : (if b then a else a) = a.
Proof. destruct b; reflexivity. Qed.

(** Push a projection [f] through the conditionals and assignments of a
    stage, then merge the branches that agree. *)
Ltac through f :=
  cbv zeta;
  repeat first [rewrite !(proj_if f) | progress proj_cbn];
  repeat rewrite if_same.

Lemma at_crouch_stage_keeps {A : Type} (f : Player.t -> A) (dt : Q) (keys : Keys)
  (p : Player.t) :
  (forall v q, f (Player.with_since_ground v q) = f q) ->
  (forall v q, f (Player.with_jump_buf v q) = f q) ->
  (forall v q, f (Player.with_dash_t v q) = f q) ->
  (forall v q, f (Player.with_dash_cd v q) = f q) ->
  (forall v q, f (Player.with_inv v q) = f q) ->
  (forall v q, f (Player.with_skid_t v q) = f q) ->
  (forall v q, f (Player.with_crouch_slide_t v q) = f q) ->
  (forall v q, f (Player.with_power_flash v q) = f q) ->
  (forall v q, f (Player.with_trail v q) = f q) ->
  (forall v q, f (Player.with_facing v q) = f q) ->
  f (at_crouch_stage dt keys p) = f p.
Proof.
  intros. unfold at_crouch_stage.
  rewrite input_axis_keeps by auto. apply tick_timers_keeps; auto.
Qed.

(** The standing probe reads the position and the standing height only. *)
Lemma can_stand_at_crouch_stage (dt : Q) (keys : Keys) (tm : Tilemap) (p : Player.t) :
  Player._can_stand tm (at_crouch_stage dt keys p) = Player._can_stand tm p.
Proof.
  unfold Player._can_stand.
  assert (E : Player.rect_of_height (Player.h_stand (at_crouch_stage dt keys p))
                (at_crouch_stage dt keys p)
              = Player.rect_of_height (Player.h_stand p) p).
  { rewrite (at_crouch_stage_keeps Player.h_stand) by reflexivity.
    apply (at_crouch_stage_keeps (Player.rect_of_height (Player.h_stand p)));
      reflexivity. }
  rewrite E. reflexivity.
Qed.

Lemma at_crouch_stage_dash_cd (dt : Q) (keys : Keys) (p : Player.t) :
  Player.dash_cd (at_crouch_stage dt keys p) =
  if Qlt_bool 0 (Player.dash_cd p) then (Player.dash_cd p - dt)%Q else Player.dash_cd p.
Proof.
  unfold at_crouch_stage. rewrite input_axis_keeps by reflexivity.
  apply tick_timers_dash_cd.
Qed.

(** The crouch stage in closed form.  [ok] is the answer of the standing
    probe, which the code consults only when the player crouches and no
    crouch is requested. *)
Lemma resolve_crouch_eq (keys : Keys) (tm : Tilemap) (p : Player.t) (ok : bool) :
  Player._can_stand tm p = Some ok ->
  resolve_crouch keys tm p =
  Some (if Qle_bool (Player.dash_t p) 0 && crouch_held keys
        then (if Player.crouch p then p
              else Player.with_crouch true (Player.with_h (Player.h_crouch p) p))
        else if Player.crouch p && ok
             then Player.with_crouch false (Player.with_h (Player.h_stand p) p)
             else p).
Proof.
  intros Hok. unfold resolve_crouch, Player._set_crouch.
  destruct (Qle_bool (Player.dash_t p) 0 && crouch_held keys);
    destruct (Player.crouch p) eqn:Hc; cbn [negb andb bind]; try reflexivity.
  rewrite Hok. cbn [bind]. destruct ok; cbn [negb andb bind]; reflexivity.
Qed.

Lemma resolve_crouch_total (keys : Keys) (tm : Tilemap) (p : Player.t) :
  grid_wf tm -> exists q, resolve_crouch keys tm p = Some q.
Proof.
  intros [Hne Hw]. destruct (can_stand_total tm p Hne Hw) as [ok Hok].
  rewrite (resolve_crouch_eq keys tm p ok Hok). eauto.
Qed.

Lemma resolve_crouch_dash_cd (keys : Keys) (tm : Tilemap) (p q : Player.t) :
  resolve_crouch keys tm p = Some q -> Player.dash_cd q = Player.dash_cd p.
Proof.
  unfold resolve_crouch, Player._set_crouch.
  destruct (Qle_bool (Player.dash_t p) 0 && crouch_held keys);
    destruct (Player.crouch p) eqn:Hc; cbn [negb andb bind];
    try (intros [= <-]; reflexivity).
  destruct (Player._can_stand tm p) as [[|]|]; cbn [negb andb bind];
    try discriminate; intros [= <-]; reflexivity.
Qed.

Lemma crouch_slide_dash_cd (keys : Keys) (pc ps : bool) (p : Player.t) :
  Player.dash_cd (crouch_slide keys pc ps p) = Player.dash_cd p.
Proof.
  unfold crouch_slide, start_slide. through Player.dash_cd. reflexivity.
Qed.

(** The slide can only force the crouch, never clear it. *)
Lemma crouch_slide_crouch (keys : Keys) (pc ps : bool) (p : Player.t) :
  Player.crouch p = true -> Player.crouch (crouch_slide keys pc ps p) = true.
Proof.
  intros H. unfold crouch_slide, start_slide. through Player.crouch.
  rewrite H. repeat rewrite if_same. reflexivity.
Qed.

Lemma at_dash_stage_dash_cd (dt : Q) (keys : Keys) (tm : Tilemap) (p q : Player.t) :
  at_dash_stage dt keys tm p = Some q ->
  Player.dash_cd q =
  if Qlt_bool 0 (Player.dash_cd p) then (Player.dash_cd p - dt)%Q else Player.dash_cd p.
Proof.
  unfold at_dash_stage. cbv zeta.
  destruct (resolve_crouch keys tm (at_crouch_stage dt keys p)) as [q1|] eqn:H1;
    cbn [bind]; [|discriminate].
  intros [= <-]. rewrite crouch_slide_dash_cd.
  rewrite (resolve_crouch_dash_cd _ _ _ _ H1). apply at_crouch_stage_dash_cd.
Qed.

Lemma at_dash_stage_total (dt : Q) (keys : Keys) (tm : Tilemap) (p : Player.t) :
  grid_wf tm -> exists q, at_dash_stage dt keys tm p = Some q.
Proof.
  intros Hwf. unfold at_dash_stage. cbv zeta.
  destruct (resolve_crouch_total keys tm (at_crouch_stage dt keys p) Hwf) as [q ->].
  cbn [bind]. eauto.
Qed.

(** While the cooldown runs the dash stage does nothing, and it does not
    even consult the standing probe. *)
Lemma dash_triggers_cooldown (keys : Keys) (tm : Tilemap) (p : Player.t) :
  (0 < Player.dash_cd p)%Q ->
  dash_triggers keys tm p = Some false /\ dash_trigger keys tm p = Some p.
Proof.
  intros H. assert (E : Qle_bool (Player.dash_cd p) 0 = false).
  { destruct (Qle_bool (Player.dash_cd p) 0) eqn:E; [|reflexivity].
    apply Qle_bool_iff in E. exfalso. apply (Qlt_not_le _ _ H E). }
  unfold dash_trigger, dash_triggers. rewrite E.
  rewrite !andb_false_r. cbn. auto.
Qed.

Lemma start_dash_crouch (p : Player.t) :
  Player.crouch (Player.start_dash p) = Player.crouch p.
Proof. unfold Player.start_dash. through Player.crouch. reflexivity. Qed.

(** Reading an attribute through an assignment to another one; stated over
    an arbitrary player so that no large term has to be compared. *)
Lemma crouch_with_dash_lock (v : bool) (p : Player.t) :
  Player.crouch (Player.with_dash_lock v p) = Player.crouch p.
Proof. reflexivity. Qed.
Lemma crouch_with_on_ground (v : bool) (p : Player.t) :
  Player.crouch (Player.with_on_ground v p) = Player.crouch p.
Proof. reflexivity. Qed.
Lemma dash_cd_with_on_ground (v : bool) (p : Player.t) :
  Player.dash_cd (Player.with_on_ground v p) = Player.dash_cd p.
Proof. reflexivity. Qed.
Lemma crouch_tilt (dt : Q) (p : Player.t) :
  Player.crouch (tilt dt p) = Player.crouch p.
Proof. reflexivity. Qed.
Lemma dash_cd_tilt (dt : Q) (p : Player.t) :
  Player.dash_cd (tilt dt p) = Player.dash_cd p.
Proof. reflexivity. Qed.
Lemma player_with_player (p : Player.t) (g : Game.t) :
  Game.player (Game.with_player p g) = p.
Proof. reflexivity. Qed.
Lemma tilemap_with_player (p : Player.t) (g : Game.t) :
  Game.tilemap (Game.with_player p g) = Game.tilemap g.
Proof. reflexivity. Qed.

Lemma dash_trigger_crouch (keys : Keys) (tm : Tilemap) (p q : Player.t) :
  dash_trigger keys tm p = Some q -> Player.crouch q = Player.crouch p.
Proof.
  unfold dash_trigger. destruct (dash_triggers keys tm p) as [[|]|]; cbn [bind];
    try discriminate; intros [= <-]; [|reflexivity].
  rewrite crouch_with_dash_lock. apply start_dash_crouch.
Qed.

(** The stages after the dash trigger and before the move keep the
    cooldown and the crouch flag. *)
Lemma late_control_steady (dt ax : Q) (keys : Keys) (input_dir moving_dir : Z)
  (p : Player.t) :
  let q := gravity_and_jump_input dt keys
             (clamp_speed
                (horizontal_control dt ax
                   (skid_trigger input_dir moving_dir (sprint_hold keys p)))) in
  Player.dash_cd q = Player.dash_cd p /\ Player.crouch q = Player.crouch p.
Proof.
  cbv zeta.
  assert (H1 : forall p, Player.dash_cd (sprint_hold keys p) = Player.dash_cd p /\
                         Player.crouch (sprint_hold keys p) = Player.crouch p).
  { intros q. unfold sprint_hold. split;
      [through Player.dash_cd | through Player.crouch]; reflexivity. }
  assert (H2 : forall p, Player.dash_cd (skid_trigger input_dir moving_dir p) = Player.dash_cd p /\
                         Player.crouch (skid_trigger input_dir moving_dir p) = Player.crouch p).
  { intros q. unfold skid_trigger. split;
      [through Player.dash_cd | through Player.crouch]; reflexivity. }
  assert (H3 : forall p, Player.dash_cd (horizontal_control dt ax p) = Player.dash_cd p /\
                         Player.crouch (horizontal_control dt ax p) = Player.crouch p).
  { intros q. unfold horizontal_control, Player.add_trail. split;
      [through Player.dash_cd | through Player.crouch]; reflexivity. }
  assert (H4 : forall p, Player.dash_cd (clamp_speed p) = Player.dash_cd p /\
                         Player.crouch (clamp_speed p) = Player.crouch p).
  { intros q. unfold clamp_speed. split;
      [through Player.dash_cd | through Player.crouch]; reflexivity. }
  assert (H5 : forall p, Player.dash_cd (gravity_and_jump_input dt keys p) = Player.dash_cd p /\
                         Player.crouch (gravity_and_jump_input dt keys p) = Player.crouch p).
  { intros q. unfold gravity_and_jump_input. split;
      [through Player.dash_cd | through Player.crouch]; reflexivity. }
  split.
  - rewrite (proj1 (H5 _)), (proj1 (H4 _)), (proj1 (H3 _)), (proj1 (H2 _)), (proj1 (H1 _)).
    reflexivity.
  - rewrite (proj2 (H5 _)), (proj2 (H4 _)), (proj2 (H3 _)), (proj2 (H2 _)), (proj2 (H1 _)).
    reflexivity.
Qed.

(** A frame of [Player.update], seen from the dash stage: the cooldown and
    the crouch flag that leave the dash stage are those of the end of the
    frame, and the grid stays well formed. *)
Lemma Player_update_stages (dt : Q) (keys : Keys) (g g' : Game.t) :
  Player_update dt keys g = Some g' ->
  exists q q',
    at_dash_stage dt keys (Game.tilemap g) (Game.player g) = Some q /\
    dash_trigger keys (Game.tilemap g) q = Some q' /\
    Player.dash_cd (Game.player g') = Player.dash_cd q' /\
    Player.crouch (Game.player g') = Player.crouch q' /\
    (grid_wf (Game.tilemap g) -> grid_wf (Game.tilemap g')).
Proof.
  unfold Player_update, control, at_dash_stage, at_crouch_stage. cbv zeta.
  destruct (Player.input_axis keys (tick_timers dt (Game.player g))) as [ax p1] eqn:Hax.
  cbn [snd].
  destruct (resolve_crouch keys (Game.tilemap g) p1) as [p2|]; cbn [bind]; [|discriminate].
  destruct (dash_trigger keys (Game.tilemap g) _) as [p3|] eqn:Hd; cbn [bind]; [|discriminate].
  match goal with |- context [move_horizontal dt ?g0] =>
    destruct (move_horizontal dt g0) as [g1|] eqn:Hh; cbn [bind]; [|discriminate] end.
  destruct (move_vertical dt g1) as [g2|] eqn:Hv; cbn [bind]; [|discriminate].
  intros [= <-].
  destruct (move_horizontal_frame _ _ _ Hh) as [Hm1 Hw1].
  destruct (move_vertical_frame _ _ _ Hv) as [Hm2 Hw2].
  rewrite player_with_player in Hm1. rewrite tilemap_with_player in Hw1.
  pose proof (moved_trans _ _ _ Hm1 Hm2) as Hm.
  eexists. exists p3. split; [reflexivity|]. split; [exact Hd|].
  match type of Hm with moved (Player.with_on_ground false ?q0) _ =>
    assert (Hq0 : Player.dash_cd q0 = Player.dash_cd p3 /\
                  Player.crouch q0 = Player.crouch p3) by apply late_control_steady end.
  rewrite player_with_player, tilemap_with_player.
  rewrite dash_cd_tilt, crouch_tilt.
  rewrite (moved_dash_cd _ _ Hm), (moved_crouch _ _ Hm).
  rewrite dash_cd_with_on_ground, crouch_with_on_ground.
  split; [apply Hq0|]. split; [apply Hq0|]. auto.
Qed.

(** ** The dash trigger (C3) *)

Lemma dash_triggers_eq (keys : Keys) (tm : Tilemap) (p : Player.t) (room : bool) :
  Player._can_stand tm p = Some room ->
  dash_triggers keys tm p =
  Some (Player.dash_unlocked p && dash_pressed keys && Qle_bool (Player.dash_cd p) 0
        && Qle_bool (Player.dash_t p) 0 && negb (Player.dash_lock p)
        && negb (Player.crouch p) && room).
Proof.
  intros Hroom. unfold dash_triggers. rewrite Hroom.
  destruct (Player.dash_unlocked p && dash_pressed keys && Qle_bool (Player.dash_cd p) 0
            && Qle_bool (Player.dash_t p) 0 && negb (Player.dash_lock p)
            && negb (Player.crouch p)); reflexivity.
Qed.

(** What [start_dash] followed by [dash_lock = True] leaves behind. *)
Lemma start_dash_effects (p : Player.t) :
  let p' := Player.with_dash_lock true (Player.start_dash p) in
  Player.dash_t p' = DASH_TIME /\
  Player.dash_cd p' = DASH_COOLDOWN /\
  Player.inv p' = INVINCIBLE_ON_DASH /\
  Player.dash_dir p' = (if Player.facing p =? 0 then 1 else Player.facing p) /\
  Player.vx p' = (inject_Z (Player.dash_dir p') * DASH_SPEED)%Q /\
  Player.vy p' = (if Qlt_bool 0 (Player.vy p) then 0%Q else Player.vy p) /\
  Player.sprint p' = false /\
  Player.dash_lock p' = true.
Proof.
  cbv zeta. unfold Player.start_dash.
  repeat split.
  - through Player.dash_t. reflexivity.
  - through Player.dash_cd. reflexivity.
  - through Player.inv. reflexivity.
  - through Player.dash_dir. destruct (Player.facing p =? 0); reflexivity.
  - through Player.vx. through Player.dash_dir. reflexivity.
  - through Player.vy. reflexivity.
Qed.

Lemma try_jump_dash_cd (p : Player.t) :
  Player.dash_cd (snd (Player.try_jump p)) = Player.dash_cd p.
Proof. unfold Player.try_jump. cbv zeta. destruct (_ && _); reflexivity. Qed.

Lemma jump_stage_frame (keys : Keys) (g : Game.t) :
  Player.dash_cd (Game.player (jump_stage keys g)) = Player.dash_cd (Game.player g) /\
  Game.tilemap (jump_stage keys g) = Game.tilemap g.
Proof.
  unfold jump_stage. destruct (jump_pressed keys); [|auto].
  rewrite player_with_player, tilemap_with_player. split; [apply try_jump_dash_cd | reflexivity].
Qed.

(** One frame during the cooldown: no dash starts and the cooldown goes
    down by at most the length of the frame. *)
Lemma frame_during_cooldown (dt : Q) (keys_raw : Pressed) (g g' : Game.t) (c : Q) :
  (0 <= dt)%Q -> (dt < c)%Q -> (c <= Player.dash_cd (Game.player g))%Q ->
  Game_update_player dt keys_raw g = Some g' ->
  (c - dt <= Player.dash_cd (Game.player g'))%Q /\
  (grid_wf (Game.tilemap g) -> grid_wf (Game.tilemap g')).
Proof.
  intros Hdt Hc Hcd. unfold Game_update_player.
  destruct (Game.state g).
  2,3: intros [= <-]; split; [lra | auto].
  cbv zeta.
  destruct (Player_update dt (make_keys keys_raw g) _) as [g1|] eqn:Hu;
    cbn [bind]; [|discriminate].
  intros [= <-].
  destruct (Player_update_stages _ _ _ _ Hu) as (q & q' & Hq & Hq' & Hcd' & _ & Hwf).
  change (Game.player (Game.with_last (key_SPACE keys_raw) (key_LSHIFT keys_raw)
            (key_s keys_raw || key_DOWN keys_raw) g)) with (Game.player g) in Hq.
  change (Game.tilemap (Game.with_last (key_SPACE keys_raw) (key_LSHIFT keys_raw)
            (key_s keys_raw || key_DOWN keys_raw) g)) with (Game.tilemap g) in Hq, Hq', Hwf.
  pose proof (at_dash_stage_dash_cd _ _ _ _ _ Hq) as Hq2.
  assert (Hpos : Qlt_bool 0 (Player.dash_cd (Game.player g)) = true).
  { apply Qlt_bool_iff. lra. }
  rewrite Hpos in Hq2.
  assert (Hqpos : (0 < Player.dash_cd q)%Q) by (rewrite Hq2; lra).
  destruct (dash_triggers_cooldown (make_keys keys_raw g) (Game.tilemap g) q Hqpos) as [_ Hno].
  rewrite Hno in Hq'. inversion Hq'; subst q'.
  destruct (jump_stage_frame (make_keys keys_raw g) g1) as [Hj1 Hj2].
  rewrite Hj1, Hj2, Hcd', Hq2. split; [lra | exact Hwf].
Qed.

Lemma frames_during_cooldown (frames : list (Q * Pressed)) (g g' : Game.t) (c : Q) :
  (forall f, In f frames -> (0 <= fst f)%Q) ->
  (elapsed frames < c)%Q -> (c <= Player.dash_cd (Game.player g))%Q ->
  run_frames frames g = Some g' ->
  (c - elapsed frames <= Player.dash_cd (Game.player g'))%Q /\
  (grid_wf (Game.tilemap g) -> grid_wf (Game.tilemap g')).
Proof.
  revert g c. induction frames as [|[dt raw] frames IH]; intros g c Hpos Hel Hcd; cbn.
  - intros [= <-]. split; [lra | auto].
  - destruct (Game_update_player dt raw g) as [g1|] eqn:H1; cbn [bind]; [|discriminate].
    intros Hrun.
    assert (Hdt : (0 <= dt)%Q) by (apply (Hpos (dt, raw)); now left).
    assert (Hrest : forall f, In f frames -> (0 <= fst f)%Q) by (intros f Hf; apply Hpos; now right).
    assert (Hel0 : (0 <= elapsed frames)%Q).
    { clear -Hrest. induction frames as [|f fs IHf]; cbn; [lra|].
      assert (0 <= fst f)%Q by (apply Hrest; now left).
      assert (0 <= elapsed fs)%Q by (apply IHf; intros; apply Hrest; now right).
      unfold elapsed in *. lra. }
    cbn in Hel. fold (elapsed frames) in Hel.
    destruct (frame_during_cooldown dt raw g g1 c Hdt ltac:(lra) Hcd H1) as [Hc1 Hw1].
    destruct (IH g1 (c - dt)%Q Hrest ltac:(lra) Hc1 Hrun) as [Hc2 Hw2].
    fold (elapsed frames). split; [lra | auto].
Qed.

(** A re-trigger before the cooldown has elapsed: whatever happens in the
    frames after a dash, as long as they take less than [DASH_COOLDOWN]
    together with the frame of the attempt, the attempt starts no dash. *)
Lemma retrigger_rejected (frames : list (Q * Pressed)) (g g' : Game.t)
  (dt : Q) (keys_raw : Pressed) :
  grid_wf (Game.tilemap g) ->
  (DASH_COOLDOWN <= Player.dash_cd (Game.player g))%Q ->
  (forall f, In f frames -> (0 <= fst f)%Q) -> (0 <= dt)%Q ->
  (elapsed frames + dt < DASH_COOLDOWN)%Q ->
  run_frames frames g = Some g' ->
  dash_starts dt keys_raw g' = Some false.
Proof.
  intros Hwf Hcd Hpos Hdt Hel Hrun.
  destruct (frames_during_cooldown frames g g' DASH_COOLDOWN Hpos ltac:(lra) Hcd Hrun)
    as [Hc Hw].
  unfold dash_starts. cbv zeta.
  destruct (at_dash_stage_total dt (make_keys keys_raw g') (Game.tilemap g') (Game.player g')
              (Hw Hwf)) as [q Hq].
  rewrite Hq. cbn [bind].
  pose proof (at_dash_stage_dash_cd _ _ _ _ _ Hq) as Hq2.
  assert (Hpos' : Qlt_bool 0 (Player.dash_cd (Game.player g')) = true).
  { apply Qlt_bool_iff. lra. }
  rewrite Hpos' in Hq2.
  apply dash_triggers_cooldown. rewrite Hq2. lra.
Qed.

(** C3 (as amended).  At the dash stage of a frame a dash starts exactly
    when dash is unlocked, the button was newly pressed, the cooldown and
    the dash timer have run out, the dash lock is clear, the player does not
    crouch and has room to stand.  Starting sets the dash timer, the
    cooldown and the invulnerability, fixes [vx] to [dash_dir * DASH_SPEED]
    (the facing), cancels sprint, sets the lock, and replaces a positive
    (downward) [vy] by zero while a negative (upward) [vy] is kept.  A dash
    attempted before [DASH_COOLDOWN] has elapsed since a start is rejected. *)
Theorem dash_rule (keys : Keys) (tm : Tilemap) (p : Player.t) (room : bool) :
  Player._can_stand tm p = Some room ->
  let starts := Player.dash_unlocked p && dash_pressed keys
                && Qle_bool (Player.dash_cd p) 0 && Qle_bool (Player.dash_t p) 0
                && negb (Player.dash_lock p) && negb (Player.crouch p) && room in
  dash_triggers keys tm p = Some starts /\
  (starts = false -> dash_trigger keys tm p = Some p) /\
  (starts = true ->
     exists p', dash_trigger keys tm p = Some p' /\
       Player.dash_t p' = DASH_TIME /\
       Player.dash_cd p' = DASH_COOLDOWN /\
       Player.inv p' = INVINCIBLE_ON_DASH /\
       (Player.facing p <> 0 ->
          Player.vx p' = (inject_Z (Player.facing p) * DASH_SPEED)%Q) /\
       ((0 < Player.vy p)%Q -> Player.vy p' = 0%Q) /\
       ((Player.vy p <= 0)%Q -> Player.vy p' = Player.vy p) /\
       Player.sprint p' = false /\
       Player.dash_lock p' = true /\
       forall frames g g' dt keys_raw,
         grid_wf (Game.tilemap g) ->
         Player.dash_cd (Game.player g) = Player.dash_cd p' ->
         (forall f, In f frames -> (0 <= fst f)%Q) -> (0 <= dt)%Q ->
         (elapsed frames + dt < DASH_COOLDOWN)%Q ->
         run_frames frames g = Some g' ->
         dash_starts dt keys_raw g' = Some false).
Proof.
  intros Hroom starts.
  pose proof (dash_triggers_eq keys tm p room Hroom) as Heq. fold starts in Heq.
  split; [exact Heq|]. split.
  - intros Hs. unfold dash_trigger. rewrite Heq, Hs. reflexivity.
  - intros Hs. exists (Player.with_dash_lock true (Player.start_dash p)).
    split; [unfold dash_trigger; rewrite Heq, Hs; reflexivity|].
    destruct (start_dash_effects p) as (E1 & E2 & E3 & E4 & E5 & E6 & E7 & E8).
    cbv zeta in E1, E2, E3, E4, E5, E6, E7, E8.
    split; [exact E1|]. split; [exact E2|]. split; [exact E3|].
    split.
    { intros Hf. rewrite E5, E4.
      destruct (Player.facing p =? 0) eqn:E; [apply Z.eqb_eq in E; contradiction | reflexivity]. }
    split.
    { intros Hv. rewrite E6. apply Qlt_bool_iff in Hv. rewrite Hv. reflexivity. }
    split.
    { intros Hv. rewrite E6. apply Qlt_bool_false_iff in Hv. rewrite Hv. reflexivity. }
    split; [exact E7|]. split; [exact E8|].
    intros frames g g' dt keys_raw Hwf Hg Hpos Hdt Hel Hrun.
    apply (retrigger_rejected frames g g' dt keys_raw Hwf); auto.
    rewrite Hg, E2. apply Qle_refl.
Qed.

Lemma dash_rule_witness :
  Player._can_stand flat_floor dasher = Some true /\
  dash_triggers dash_keys flat_floor dasher = Some true /\
  exists p', dash_trigger dash_keys flat_floor dasher = Some p' /\
             Player.dash_t p' = DASH_TIME /\ Player.dash_cd p' = DASH_COOLDOWN.
Proof.
  split; [reflexivity|].
  destruct (dash_rule dash_keys flat_floor dasher true eq_refl) as (H1 & _ & H3).
  split; [exact H1|].
  destruct (H3 eq_refl) as (p' & Hp' & Ht & Hcd & _).
  exists p'. auto.
Defined.

(** C3, the claim as stated fails on the vertical velocity: a player moving
    upward ([vy = -900], the sign of [JUMP_VEL]) starts a dash and keeps
    that velocity; it is not zeroed. *)
Lemma dash_keeps_upward_velocity :
  (Player.vy rising_dasher < 0)%Q /\
  dash_triggers dash_keys flat_floor rising_dasher = Some true /\
  exists p', dash_trigger dash_keys flat_floor rising_dasher = Some p' /\
             Player.vy p' = Player.vy rising_dasher /\ ~ (Player.vy p' == 0)%Q.
Proof.
  split; [reflexivity|]. split; [reflexivity|].
  eexists. split; [reflexivity|]. split; [reflexivity|]. discriminate.
Qed.


(** ** The standing probe and the forced crouch *)

Lemma no_blocker_true (box : Rect) (tiles : list (Z * Z * ascii)) :
  Player.no_blocker box tiles = true <->
  forall tx ty ch, In (tx, ty, ch) tiles -> blocks ch = true ->
                   colliderect box (tile_rect tx ty) = false.
Proof.
  unfold Player.no_blocker. rewrite negb_true_iff. split.
  - intros H tx ty ch Hin Hb.
    destruct (colliderect box (tile_rect tx ty)) eqn:E; [|reflexivity].
    assert (Hex : existsb (fun '(tx, ty, ch) => blocks ch && colliderect box (tile_rect tx ty))
                    tiles = true).
    { apply existsb_exists. exists (tx, ty, ch). split; [exact Hin|].
      rewrite Hb, E. reflexivity. }
    congruence.
  - intros H.
    destruct (existsb _ tiles) eqn:E; [|reflexivity].
    apply existsb_exists in E. destruct E as ([[tx ty] ch] & Hin & Hbc).
    apply andb_true_iff in Hbc. destruct Hbc as [Hb Hc].
    rewrite (H tx ty ch Hin Hb) in Hc. discriminate.
Qed.

Lemma blocks_not_space (ch : ascii) : blocks ch = true -> ch <> " "%char.
Proof. intros H ->. discriminate. Qed.

(** What the standing probe decides. *)
Lemma can_stand_spec (tm : Tilemap) (p : Player.t) :
  grid_wf tm ->
  exists ok, Player._can_stand tm p = Some ok /\ (ok = true <-> stand_probe_clear tm p).
Proof.
  intros [Hne Hw]. unfold Player._can_stand. fold (stand_rect p).
  destruct (tiles_in_aabb_spec tm (inflate (stand_rect p) (-8) (-2)) Hne Hw)
    as (tiles & Htiles & _ & Hspec).
  rewrite Htiles. cbn [bind]. eexists. split; [reflexivity|].
  rewrite no_blocker_true. unfold stand_probe_clear. split.
  - intros H tx ty ch Hx Hy Hc Hb Hm. apply (H tx ty ch); [|exact Hb].
    apply Hspec. split; [exact Hx|]. split; [exact Hy|]. split; [exact Hc|].
    split; [now apply blocks_not_space | exact Hm].
  - intros H tx ty ch Hin Hb. apply Hspec in Hin.
    destruct Hin as (Hx & Hy & Hc & _ & Hm). eapply H; eauto.
Qed.

(** A free standing hitbox passes the probe (the converse fails). *)
Lemma stand_rect_free_probe (tm : Tilemap) (p : Player.t) :
  stand_rect_free tm p -> stand_probe_clear tm p.
Proof. intros H tx ty ch Hx Hy Hc Hb _. eapply H; eauto. Qed.

Lemma try_jump_crouch (p : Player.t) :
  Player.crouch (snd (Player.try_jump p)) = Player.crouch p.
Proof. unfold Player.try_jump. cbv zeta. destruct (_ && _); reflexivity. Qed.

(** A frame that starts crouched with the standing probe failing ends
    crouched. *)
Lemma frame_keeps_forced_crouch (dt : Q) (keys_raw : Pressed) (g g' : Game.t) :
  Player.crouch (Game.player g) = true ->
  Player._can_stand (Game.tilemap g) (Game.player g) = Some false ->
  Game_update_player dt keys_raw g = Some g' ->
  Player.crouch (Game.player g') = true.
Proof.
  intros Hc Hcs. unfold Game_update_player.
  destruct (Game.state g).
  2,3: intros [= <-]; exact Hc.
  cbv zeta.
  destruct (Player_update dt (make_keys keys_raw g) _) as [g1|] eqn:Hu;
    cbn [bind]; [|discriminate].
  intros [= <-].
  destruct (Player_update_stages _ _ _ _ Hu) as (q & q' & Hq & Hq' & _ & Hcr & _).
  change (Game.player (Game.with_last (key_SPACE keys_raw) (key_LSHIFT keys_raw)
            (key_s keys_raw || key_DOWN keys_raw) g)) with (Game.player g) in Hq.
  change (Game.tilemap (Game.with_last (key_SPACE keys_raw) (key_LSHIFT keys_raw)
            (key_s keys_raw || key_DOWN keys_raw) g)) with (Game.tilemap g) in Hq, Hq'.
  assert (Hj : Player.crouch (Game.player (jump_stage (make_keys keys_raw g) g1))
               = Player.crouch (Game.player g1)).
  { unfold jump_stage. destruct (jump_pressed _); [|reflexivity].
    rewrite player_with_player. apply try_jump_crouch. }
  rewrite Hj, Hcr, (dash_trigger_crouch _ _ _ _ Hq').
  unfold at_dash_stage in Hq. cbv zeta in Hq.
  set (p1 := at_crouch_stage dt (make_keys keys_raw g) (Game.player g)) in *.
  assert (Hc1 : Player.crouch p1 = true).
  { unfold p1. rewrite (at_crouch_stage_keeps Player.crouch) by reflexivity. exact Hc. }
  assert (Hcs1 : Player._can_stand (Game.tilemap g) p1 = Some false).
  { unfold p1. rewrite can_stand_at_crouch_stage. exact Hcs. }
  rewrite (resolve_crouch_eq _ _ _ _ Hcs1) in Hq. rewrite Hc1 in Hq.
  cbn [andb bind] in Hq. rewrite if_same in Hq.
  inversion Hq; subst q. apply crouch_slide_crouch. exact Hc1.
Qed.

Lemma run_keeps_forced_crouch (frames : list (Q * Pressed)) (g g' : Game.t) :
  Player.crouch (Game.player g) = true ->
  obstructed_throughout frames g ->
  run_frames frames g = Some g' ->
  Player.crouch (Game.player g') = true.
Proof.
  revert g. induction frames as [|[dt raw] frames IH]; intros g Hc Hob; cbn [run_frames].
  - intros [= <-]. exact Hc.
  - destruct Hob as [Hcs Hrest].
    destruct (Game_update_player dt raw g) as [g1|] eqn:H1; cbn [bind]; [|discriminate].
    intros Hrun. apply (IH g1); auto.
    exact (frame_keeps_forced_crouch dt raw g g1 Hc Hcs H1).
Qed.


(** ** Growing (C6) *)






(** The scenario of the spec: in the corridor the standing big hitbox does
    not fit, the crouched one does, and the player grows into a crouch. *)
Example grow_in_corridor :
  Player._rect_fits (Some corridor) H_STAND_BIG crouched_in_corridor = Some false /\
  Player._rect_fits (Some corridor) H_CROUCH_BIG crouched_in_corridor = Some true /\
  exists p', Player.set_form big (Some corridor) crouched_in_corridor = Some (true, p') /\
             Player.form p' = big /\ Player.crouch p' = true /\ Player.h p' = 46.
Proof.
  split; [reflexivity|]. split; [reflexivity|].
  eexists. split; [reflexivity|]. repeat split.
Qed.

(** With no headroom even for the crouched big hitbox the call fails. *)
Example grow_blocked :
  let tm := [ ["X"; "X"]; ["X"; "X"] ]%char in
  let p := Player.init 48 48 in
  Player.set_form big (Some tm) p = Some (false, p).
Proof. reflexivity. Qed.

(** ** Dash gates in the horizontal move (C4) *)

Lemma block_x_dash_t (r tile_r : Rect) (p : Player.t) :
  Player.dash_t (block_x r tile_r p) = Player.dash_t p.
Proof. apply moved_dash_t, block_x_moved. Qed.

(** The wall response: on a collision [vx] becomes zero and the player is
    put against the near edge of the tile; without one nothing happens. *)
Lemma block_x_spec (r tile_r : Rect) (p : Player.t) :
  (colliderect r tile_r = false -> block_x r tile_r p = p) /\
  (colliderect r tile_r = true ->
     Player.vx (block_x r tile_r p) = 0%Q /\
     ((0 < Player.vx p)%Q ->
        Player.x (block_x r tile_r p)
        = (inject_Z (left tile_r) - inject_Z (Player.w p) / 2)%Q) /\
     ((Player.vx p < 0)%Q ->
        Player.x (block_x r tile_r p)
        = (inject_Z (right tile_r) + inject_Z (Player.w p) / 2)%Q) /\
     ((Player.vx p == 0)%Q -> Player.x (block_x r tile_r p) = Player.x p)).
Proof.
  unfold block_x. split; intros ->; [reflexivity|]. cbv zeta.
  split; [reflexivity|]. split; [|split].
  - intros H. apply Qlt_bool_iff in H. rewrite H. reflexivity.
  - intros H. assert (H' : Qlt_bool 0 (Player.vx p) = false).
    { apply Qlt_bool_false_iff. lra. }
    apply Qlt_bool_iff in H. rewrite H', H. reflexivity.
  - intros H. assert (H1 : Qlt_bool 0 (Player.vx p) = false).
    { apply Qlt_bool_false_iff. lra. }
    assert (H2 : Qlt_bool (Player.vx p) 0 = false).
    { apply Qlt_bool_false_iff. lra. }
    rewrite H1, H2. reflexivity.
Qed.

(** One gate tile met while dashing: the player is left alone and the gate
    is remembered. *)
Lemma horizontal_tile_gate_dashing (r : Rect) (p : Player.t) (c : option (Z * Z))
  (tx ty : Z) :
  (0 < Player.dash_t p)%Q ->
  horizontal_tile r (p, c) (tx, ty, "|"%char) = (p, Some (tx, ty)).
Proof.
  intros H. apply Qlt_bool_iff in H. unfold horizontal_tile. cbn [Ascii.eqb]. 
  change (("|" =? "|")%char) with true. cbv iota. rewrite H. reflexivity.
Qed.

(** One gate tile met without a dash: the response of a solid tile. *)
Lemma horizontal_tile_gate_walking (r : Rect) (p : Player.t) (c : option (Z * Z))
  (tx ty : Z) :
  (Player.dash_t p <= 0)%Q ->
  horizontal_tile r (p, c) (tx, ty, "|"%char) = (block_x r (tile_rect tx ty) p, c) /\
  horizontal_tile r (p, c) (tx, ty, "X"%char) = (block_x r (tile_rect tx ty) p, c).
Proof.
  intros H. apply Qlt_bool_false_iff in H. unfold horizontal_tile.
  change (("|" =? "|")%char) with true. change (("X" =? "|")%char) with false.
  change (solid "|") with false. change (solid "X") with true. cbv iota.
  rewrite H. split; reflexivity.
Qed.

Lemma walls_only_dash_t (is_wall : ascii -> bool) (r : Rect)
  (tiles : list (Z * Z * ascii)) (p : Player.t) :
  Player.dash_t (walls_only is_wall r p tiles) = Player.dash_t p.
Proof.
  unfold walls_only. revert p. induction tiles as [|[[tx ty] ch] tiles IH]; intros p.
  - reflexivity.
  - cbn [fold_left]. rewrite IH. destruct (is_wall ch); [apply block_x_dash_t | reflexivity].
Qed.

(** The horizontal loop while dashing: gates are passed over, and the last
    gate of the query is the one remembered. *)
Lemma horizontal_fold_dashing (r : Rect) (tiles : list (Z * Z * ascii))
  (p : Player.t) (c : option (Z * Z)) :
  Qlt_bool 0 (Player.dash_t p) = true ->
  fold_left (horizontal_tile r) tiles (p, c)
  = (walls_only solid r p tiles, last_gate_from c tiles).
Proof.
  unfold walls_only, last_gate_from.
  revert p c. induction tiles as [|[[tx ty] ch] tiles IH]; intros p c Hd.
  - reflexivity.
  - cbn [fold_left]. unfold horizontal_tile at 2.
    destruct (Ascii.eqb ch "|") eqn:Eg.
    + apply Ascii.eqb_eq in Eg. subst ch. rewrite Hd.
      change (solid "|") with false. cbv iota. apply IH. exact Hd.
    + destruct (solid ch); apply IH; [rewrite block_x_dash_t|]; exact Hd.
Qed.

(** The horizontal loop without a dash: gates are walls, nothing is
    remembered. *)
Lemma horizontal_fold_walking (r : Rect) (tiles : list (Z * Z * ascii))
  (p : Player.t) (c : option (Z * Z)) :
  Qlt_bool 0 (Player.dash_t p) = false ->
  fold_left (horizontal_tile r) tiles (p, c)
  = (walls_only (fun ch => Ascii.eqb ch "|" || solid ch) r p tiles, c).
Proof.
  unfold walls_only.
  revert p c. induction tiles as [|[[tx ty] ch] tiles IH]; intros p c Hd.
  - reflexivity.
  - cbn [fold_left]. unfold horizontal_tile at 2.
    destruct (Ascii.eqb ch "|") eqn:Eg.
    + apply Ascii.eqb_eq in Eg. subst ch. rewrite Hd.
      change (solid "|") with false. cbv iota. cbn [orb].
      apply IH. rewrite block_x_dash_t. exact Hd.
    + cbn [orb]. destruct (solid ch); apply IH; [rewrite block_x_dash_t|]; exact Hd.
Qed.

Lemma last_gate_from_In (tiles : list (Z * Z * ascii)) (c : option (Z * Z)) (gx gy : Z) :
  last_gate_from c tiles = Some (gx, gy) ->
  In (gx, gy, "|"%char) tiles \/ c = Some (gx, gy).
Proof.
  unfold last_gate_from. revert c. induction tiles as [|[[tx ty] ch] tiles IH]; intros c.
  - cbn. auto.
  - cbn [fold_left]. intros H. apply IH in H. destruct H as [H|H]; [left; now right|].
    destruct (Ascii.eqb ch "|") eqn:Eg; [|auto].
    apply Ascii.eqb_eq in Eg. subst ch. inversion H; subst. left. now left.
Qed.

(** A query with a single gate tile: that tile is the last gate. *)
Lemma last_gate_single (tiles : list (Z * Z * ascii)) (gx gy : Z) :
  In (gx, gy, "|"%char) tiles ->
  (forall tx ty, In (tx, ty, "|"%char) tiles -> (tx, ty) = (gx, gy)) ->
  last_gate tiles = Some (gx, gy).
Proof.
  unfold last_gate, last_gate_from. generalize (@None (Z * Z)).
  induction tiles as [|[[tx ty] ch] tiles IH]; intros c Hin Honly; [destruct Hin|].
  cbn [fold_left]. destruct Hin as [Heq|Hin].
  - inversion Heq; subst. change (("|" =? "|")%char) with true. cbv iota.
    clear IH. assert (Hall : forall tx ty, In (tx, ty, "|"%char) tiles -> (tx, ty) = (gx, gy)).
    { intros. apply Honly. now right. }
    clear Honly. induction tiles as [|[[tx ty] ch] tiles IH]; [reflexivity|].
    cbn [fold_left]. destruct (Ascii.eqb ch "|") eqn:Eg.
    + apply Ascii.eqb_eq in Eg. subst ch. rewrite (Hall tx ty) by now left.
      apply IH. intros. apply Hall. now right.
    + apply IH. intros. apply Hall. now right.
  - apply IH; [exact Hin|]. intros. apply Honly. now right.
Qed.

(** C4 (as amended).  In the horizontal move on a well-formed grid: a gate
    tile met while a dash is active leaves the player as it is; the grid
    loses exactly one gate tile per move, the last gate tile of the query
    around the player (the one met, when the query holds a single gate),
    and every other cell keeps its code.  Without a dash a gate tile gets
    the response of a solid tile: on a collision [vx] becomes zero and the
    player is put against the near edge; the grid is unchanged. *)
Theorem gate_contact_rule (dt : Q) (g : Game.t) :
  grid_wf (Game.tilemap g) ->
  let p0 := Player.with_x (Player.x (Game.player g) + Player.vx (Game.player g) * dt)%Q
              (Game.player g) in
  let r := Player.rect p0 in
  exists tiles g',
    tiles_in_aabb (Game.tilemap g) (inflate r 2 (-2)) = Some tiles /\
    move_horizontal dt g = Some g' /\
    ((0 < Player.dash_t (Game.player g))%Q ->
       (forall p c tx ty, (0 < Player.dash_t p)%Q ->
          horizontal_tile r (p, c) (tx, ty, "|"%char) = (p, Some (tx, ty))) /\
       Game.player g' = walls_only solid r p0 tiles /\
       match last_gate tiles with
       | Some (gx, gy) =>
           grid_get (Game.tilemap g) gx gy = Some "|"%char /\
           grid_get (Game.tilemap g') gx gy = Some " "%char /\
           forall tx ty, 0 <= tx -> 0 <= ty -> (tx, ty) <> (gx, gy) ->
                         grid_get (Game.tilemap g') tx ty = grid_get (Game.tilemap g) tx ty
       | None => Game.tilemap g' = Game.tilemap g
       end /\
       forall gx gy, In (gx, gy, "|"%char) tiles ->
         (forall tx ty, In (tx, ty, "|"%char) tiles -> (tx, ty) = (gx, gy)) ->
         last_gate tiles = Some (gx, gy)) /\
    ((Player.dash_t (Game.player g) <= 0)%Q ->
       (forall p c tx ty, (Player.dash_t p <= 0)%Q ->
          horizontal_tile r (p, c) (tx, ty, "|"%char) = (block_x r (tile_rect tx ty) p, c) /\
          horizontal_tile r (p, c) (tx, ty, "X"%char) = (block_x r (tile_rect tx ty) p, c)) /\
       (forall p tile_r, colliderect r tile_r = true ->
          Player.vx (block_x r tile_r p) = 0%Q /\
          ((0 < Player.vx p)%Q ->
             Player.x (block_x r tile_r p)
             = (inject_Z (left tile_r) - inject_Z (Player.w p) / 2)%Q) /\
          ((Player.vx p < 0)%Q ->
             Player.x (block_x r tile_r p)
             = (inject_Z (right tile_r) + inject_Z (Player.w p) / 2)%Q)) /\
       Game.player g' = walls_only (fun ch => Ascii.eqb ch "|" || solid ch) r p0 tiles /\
       Game.tilemap g' = Game.tilemap g).
Proof.
  intros Hwf p0 r. destruct Hwf as [Hne Hw].
  destruct (tiles_in_aabb_spec (Game.tilemap g) (inflate r 2 (-2)) Hne Hw)
    as (tiles & Htiles & _ & Hspec).
  exists tiles.
  assert (Hd0 : Player.dash_t p0 = Player.dash_t (Game.player g)) by reflexivity.
  unfold move_horizontal. fold p0. fold r. rewrite Htiles. cbn [bind].
  destruct (Qlt_bool 0 (Player.dash_t (Game.player g))) eqn:Hdash.
  - (* dashing *)
    rewrite (horizontal_fold_dashing r tiles p0 None) by (rewrite Hd0; exact Hdash).
    fold (last_gate tiles).
    destruct (last_gate tiles) as [[gx gy]|] eqn:Hlast.
    + assert (Hin : In (gx, gy, "|"%char) tiles).
      { destruct (last_gate_from_In tiles None gx gy Hlast) as [H|H]; [exact H|discriminate]. }
      apply Hspec in Hin. destruct Hin as (Hx & Hy & Hcell & _).
      destruct (destroy_gate_cases (Game.with_player (walls_only solid r p0 tiles) g)
                  gx gy "|"%char Hcell) as (g' & Hg' & Hyes & _).
      destruct (Hyes eq_refl) as (tm' & Htm' & ->).
      eexists. split; [reflexivity|]. split; [exact Hg'|]. split.
      * intros _. split; [intros; now apply horizontal_tile_gate_dashing|].
        split; [reflexivity|]. split.
        -- split; [exact Hcell|]. split.
           ++ exact (grid_get_set_same _ _ _ _ _ Hx Hy Htm').
           ++ intros tx ty Htx Hty Hneq.
              exact (grid_get_set_other _ _ _ _ _ _ _ Hx Hy Htx Hty Hneq Htm').
        -- intros gx' gy' Hin' Honly. rewrite <- Hlast. now apply last_gate_single.
      * intros Hle. apply Qlt_bool_iff in Hdash. exfalso. lra.
    + eexists. split; [reflexivity|]. split; [reflexivity|]. split.
      * intros _. split; [intros; now apply horizontal_tile_gate_dashing|].
        split; [reflexivity|]. split; [reflexivity|].
        intros gx' gy' Hin' Honly. rewrite <- Hlast. now apply last_gate_single.
      * intros Hle. apply Qlt_bool_iff in Hdash. exfalso. lra.
  - (* no dash *)
    rewrite (horizontal_fold_walking r tiles p0 None) by (rewrite Hd0; exact Hdash).
    eexists. split; [reflexivity|]. split; [reflexivity|]. split.
    + intros Hlt. apply Qlt_bool_false_iff in Hdash. exfalso. lra.
    + intros _. split; [intros; now apply horizontal_tile_gate_walking|].
      split; [|split; reflexivity].
      intros p tile_r Hc. destruct (block_x_spec r tile_r p) as [_ H].
      destruct (H Hc) as (H1 & H2 & H3 & _). auto.
Qed.

Lemma gate_contact_rule_witness :
  grid_wf stacked_gates /\
  exists tiles g',
    tiles_in_aabb stacked_gates
      (inflate (Player.rect (Player.with_x (70 + DASH_SPEED * (1 # 60))%Q dashing_at_gates))
         2 (-2)) = Some tiles /\
    move_horizontal (1 # 60) (session stacked_gates dashing_at_gates) = Some g'.
Proof.
  assert (Hwf : grid_wf stacked_gates).
  { split; [discriminate | exists 4%nat; repeat constructor]. }
  split; [exact Hwf|].
  destruct (gate_contact_rule (1 # 60) (session stacked_gates dashing_at_gates) Hwf)
    as (tiles & g' & H1 & H2 & _).
  exists tiles, g'. split; [exact H1 | exact H2].
Defined.

(** C4, the claim as stated fails when the move meets two gate tiles.  The
    dashing player overlaps both stacked gate tiles; the move empties the
    lower one only, and the upper one, although in contact, is still a gate
    afterwards. *)
Lemma one_gate_per_move :
  exists g',
    move_horizontal (1 # 60) (session stacked_gates dashing_at_gates) = Some g' /\
    (0 < Player.dash_t dashing_at_gates)%Q /\
    colliderect (Player.rect (Game.player g')) (tile_rect 2 0) = true /\
    colliderect (Player.rect (Game.player g')) (tile_rect 2 1) = true /\
    grid_get stacked_gates 2 0 = Some "|"%char /\
    grid_get stacked_gates 2 1 = Some "|"%char /\
    grid_get (Game.tilemap g') 2 0 = Some "|"%char /\
    grid_get (Game.tilemap g') 2 1 = Some " "%char.
Proof.
  eexists. split; [vm_compute; reflexivity|]. repeat split.
Qed.

(** ** Mushroom pickups (C10) *)















(** The lost pickup, evaluated: next to the spike neither big hitbox fits; the
    touching item and the mushroom tile are both gone after the frame's
    pickup stages and the player is still small and unchanged. *)
Example pickup_lost_in_nook :
  let g := Game.mk spike_nook in_nook [loose_mushroom] 0 RUN false false false in
  cannot_grow spike_nook in_nook /\
  exists g1 g2,
    Game_collect_items g = Some g1 /\ Game.items g1 = [] /\
    Game_scan_tiles g1 = Some g2 /\
    grid_get (Game.tilemap g2) 0 1 = Some " "%char /\
    Game.player g2 = in_nook.
Proof.
  cbv zeta. split; [repeat split|].
  eexists. eexists. split; [vm_compute; reflexivity|]. split; [reflexivity|].
  split; [vm_compute; reflexivity|]. split; reflexivity.
Qed.

(** ** The crouch slide (C2) *)

Lemma Qmax_right (a b : Q) : (a < b)%Q -> Qmax a b = b.
Proof. intros H. unfold Qmax. apply Qlt_bool_iff in H. rewrite H. reflexivity. Qed.

Lemma Qmin_le_l (a b : Q) : (Qmin a b <= a)%Q.
Proof.
  unfold Qmin. destruct (Qlt_bool b a) eqn:E; [|apply Qle_refl].
  apply Qlt_bool_iff in E. apply Qlt_le_weak. exact E.
Qed.

Lemma Qmin_le_r (a b : Q) : (Qmin a b <= b)%Q.
Proof.
  unfold Qmin. destruct (Qlt_bool b a) eqn:E; [apply Qle_refl|].
  apply Qlt_bool_false_iff in E. exact E.
Qed.

Lemma Qmin_gt (a b c : Q) : (c < a)%Q -> (c < b)%Q -> (c < Qmin a b)%Q.
Proof. intros Ha Hb. unfold Qmin. destruct (Qlt_bool b a); assumption. Qed.

Lemma required_decel_large (v0 : Q) :
  (CROUCH_SLIDE_TRIGGER_SPEED <= v0)%Q ->
  (1 < v0 * v0 / (2 * CROUCH_SLIDE_MIN_DIST))%Q.
Proof.
  unfold CROUCH_SLIDE_TRIGGER_SPEED, MAX_SPEED, SPRINT_SPEED_MULT, CROUCH_SLIDE_MIN_DIST.
  intros H. apply Qlt_shift_div_l; [reflexivity|]. nra.
Qed.

(** The values that a slide starts with: the guards [max(1.0, ...)] of the
    source are idle at trigger speed, the deceleration is
    [min(BASE, v0^2 / (2 * MIN_DIST))], the duration is
    [max(TIME_BASE, v0 / deceleration)], and the stopping distance of the
    continuous law, [v0^2 / (2 * deceleration)], is at least [MIN_DIST]. *)
Lemma start_slide_values (p : Player.t) :
  let v0 := Qabs (Player.vx p) in
  let p' := start_slide p in
  (CROUCH_SLIDE_TRIGGER_SPEED <= v0)%Q ->
  Player.crouch_slide_decel p'
    = Qmin CROUCH_SLIDE_DECEL_BASE (v0 * v0 / (2 * CROUCH_SLIDE_MIN_DIST))%Q /\
  Player.crouch_slide_t p'
    = Qmax CROUCH_SLIDE_TIME_BASE (v0 / Player.crouch_slide_decel p')%Q /\
  (CROUCH_SLIDE_MIN_DIST <= v0 * v0 / (2 * Player.crouch_slide_decel p'))%Q.
Proof.
  cbv zeta. intros Hv.
  pose proof (required_decel_large _ Hv) as Hreq.
  set (v0 := Qabs (Player.vx p)) in *.
  assert (Hd : Player.crouch_slide_decel (start_slide p)
               = Qmin CROUCH_SLIDE_DECEL_BASE (v0 * v0 / (2 * CROUCH_SLIDE_MIN_DIST))%Q).
  { reflexivity. }
  assert (Hpos : (1 < Player.crouch_slide_decel (start_slide p))%Q).
  { rewrite Hd. apply Qmin_gt; [reflexivity | exact Hreq]. }
  split; [exact Hd|]. split.
  - transitivity (Qmax CROUCH_SLIDE_TIME_BASE
                    (v0 / Qmax 1 (Player.crouch_slide_decel (start_slide p)))%Q);
      [reflexivity|].
    rewrite (Qmax_right _ _ Hpos). reflexivity.
  - assert (Hle : (Player.crouch_slide_decel (start_slide p)
                   <= v0 * v0 / (2 * CROUCH_SLIDE_MIN_DIST))%Q).
    { rewrite Hd. apply Qmin_le_r. }
    set (d := Player.crouch_slide_decel (start_slide p)) in *. clearbody d.
    apply Qle_shift_div_l; [lra|].
    assert (Hmul : (d * (2 * CROUCH_SLIDE_MIN_DIST) <= v0 * v0)%Q).
    { assert (E : (v0 * v0 == v0 * v0 / (2 * CROUCH_SLIDE_MIN_DIST)
                              * (2 * CROUCH_SLIDE_MIN_DIST))%Q).
      { unfold CROUCH_SLIDE_MIN_DIST. field. }
      apply Qle_trans with (v0 * v0 / (2 * CROUCH_SLIDE_MIN_DIST)
                            * (2 * CROUCH_SLIDE_MIN_DIST))%Q;
        [apply Qmult_le_compat_r; [exact Hle | discriminate] | rewrite <- E; apply Qle_refl]. }
    unfold CROUCH_SLIDE_MIN_DIST in *. lra.
Qed.

(** The trigger stage stores those values when its condition holds. *)
Lemma crouch_slide_starts (keys : Keys) (prev_crouch prev_sprint : bool) (p : Player.t) :
  slide_triggers keys prev_crouch prev_sprint p = true ->
  let v0 := Qabs (Player.vx p) in
  let p' := crouch_slide keys prev_crouch prev_sprint p in
  Player.crouch_slide_decel p'
    = Qmin CROUCH_SLIDE_DECEL_BASE (v0 * v0 / (2 * CROUCH_SLIDE_MIN_DIST))%Q /\
  Player.crouch_slide_t p'
    = Qmax CROUCH_SLIDE_TIME_BASE (v0 / Player.crouch_slide_decel p')%Q /\
  Player.crouch p' = true /\ Player.h p' = Player.h_crouch p.
Proof.
  intros Htrig. cbv zeta.
  assert (Hv : (CROUCH_SLIDE_TRIGGER_SPEED <= Qabs (Player.vx p))%Q).
  { unfold slide_triggers in Htrig. apply andb_true_iff in Htrig.
    destruct Htrig as [_ H]. apply Qle_bool_iff. exact H. }
  destruct (start_slide_values p Hv) as (Hd & Ht & _).
  assert (Hpos : Qlt_bool 0 (Player.crouch_slide_t (start_slide p)) = true).
  { rewrite Ht. apply Qlt_bool_iff.
    apply Qlt_le_trans with CROUCH_SLIDE_TIME_BASE; [reflexivity|].
    unfold Qmax. destruct (Qlt_bool _ _) eqn:E; [|apply Qle_refl].
    apply Qlt_bool_iff in E. apply Qlt_le_weak. exact E. }
  assert (Hh : Player.h_crouch (start_slide p) = Player.h_crouch p) by reflexivity.
  unfold crouch_slide. rewrite Htrig. cbv zeta. rewrite Hpos.
  set (q := start_slide p) in *. clearbody q. proj_cbn.
  split; [exact Hd|]. split; [exact Ht|]. split; [reflexivity | exact Hh].
Qed.

(** C2, the code at the failing input.  A sprinter at top speed (486)
    presses crouch on level ground, no direction held, at 30 frames per
    second.  The slide starts with the deceleration and the duration of the
    claim; the crouch cancels the sprint, so the speed clamp cuts the speed
    to [MAX_SPEED] in the first frame; from the tenth frame on the speed is
    zero, and the player has moved 55.512 units, less than
    [CROUCH_SLIDE_MIN_DIST]. *)
Theorem slide_stops_short :
  (CROUCH_SLIDE_TRIGGER_SPEED <= Qabs (Player.vx sprinter))%Q /\
  (exists g1,
     run_frames (hold (1 # 30) 1 shift_and_crouch) sprint_session = Some g1 /\
     (Player.crouch_slide_decel (Game.player g1)
      == Qmin CROUCH_SLIDE_DECEL_BASE (486 * 486 / (2 * CROUCH_SLIDE_MIN_DIST)))%Q /\
     (Player.crouch_slide_t (Game.player g1)
      == Qmax CROUCH_SLIDE_TIME_BASE (486 / Player.crouch_slide_decel (Game.player g1)))%Q /\
     Player.sprint (Game.player g1) = false /\
     (Player.vx (Game.player g1) == MAX_SPEED)%Q) /\
  Forall (fun n =>
            exists d v, slide_progress (1 # 30) shift_and_crouch n = Some (d, v) /\
                        (d == 55512 # 1000)%Q /\ (v == 0)%Q /\
                        (d < CROUCH_SLIDE_MIN_DIST)%Q)
         [10; 11; 12; 13; 14; 15; 16]%nat.
Proof.
  split; [vm_compute; discriminate|]. split.
  - eexists. split; [vm_compute; reflexivity|].
    split; [vm_compute; reflexivity|]. split; [vm_compute; reflexivity|].
    split; [reflexivity | vm_compute; reflexivity].
  - repeat constructor;
      (eexists; eexists; split; [vm_compute; reflexivity|];
       split; [vm_compute; reflexivity|]; split; vm_compute; reflexivity).
Qed.

(** At 60 frames per second the player is off the ground in every other
    frame (the hitbox has integer edges and lands only once it is a full
    pixel into the floor), and in those frames the slide branch is skipped:
    held against the motion, the direction key brakes the slide, which turns
    back after about 35 units. *)
Example slide_braked_by_input :
  Forall (fun n =>
            exists d v, slide_progress (1 # 60) shift_crouch_left n = Some (d, v) /\
                        (d < 36)%Q)
         [1; 2; 3; 4; 5; 6; 7; 8; 9; 10; 11; 12]%nat /\
  exists d v, slide_progress (1 # 60) shift_crouch_left 12 = Some (d, v) /\ (v < 0)%Q.
Proof.
  split.
  - repeat constructor; (eexists; eexists; split; [vm_compute; reflexivity|]; reflexivity).
  - eexists. eexists. split; [vm_compute; reflexivity|]. reflexivity.
Qed.

(** * Level files: saving and loading *)

Section LevelRoundTrip.
Import LevelIO.

Lemma ljust_full (row : text) : ljust (List.length row) row = row.
Proof.
  unfold ljust. rewrite Nat.sub_diag. cbn [repeat]. apply app_nil_r.
Qed.

Lemma width_of_rectangular (width : nat) (rows : list text) :
  rows <> [] ->
  Forall (fun row => List.length row = width) rows ->
  fold_right Nat.max 0%nat (map (@List.length ascii) rows) = width.
Proof.
  intros Hne Hall. revert Hne.
  induction Hall as [|row rest Hrow Hrest IH]; intros Hne; [easy|].
  cbn [map fold_right]. destruct rest as [|row' rest].
  - cbn. lia.
  - rewrite IH by discriminate. lia.
Qed.

Lemma normalise_rectangular (rows : list text) :
  rows <> [] -> rectangular rows -> _normalise_rows rows = Some rows.
Proof.
  intros Hne (width & Hpos & Hall). unfold _normalise_rows.
  destruct rows as [|row rest]; [easy|].
  rewrite (width_of_rectangular width) by assumption.
  destruct (Nat.eqb_spec width 0); [lia|]. f_equal.
  induction Hall as [|r l Hr Hl IH]; [reflexivity|].
  cbn [map]. rewrite <- Hr at 1. rewrite ljust_full. f_equal.
  destruct l as [|r' l]; [reflexivity|]. apply IH. discriminate.
Qed.

Lemma skip_ws_spaces (n : nat) (s : text) : skip_ws (repeat " "%char n ++ s) = skip_ws s.
Proof. induction n as [|n IH]; [reflexivity|]. cbn [repeat app]. exact IH. Qed.

Lemma skip_ws_break (lvl : nat) (s : text) : skip_ws (break lvl ++ s) = skip_ws s.
Proof. unfold break. cbn [app]. change (skip_ws (newline :: ?x)) with (skip_ws x). apply skip_ws_spaces. Qed.

Lemma parse_string_body_escape (c : ascii) (rest : text) :
  parse_string_body (escape_char c ++ rest)
  = let* (body, tail) := parse_string_body rest in Some (c :: body, tail).
Proof.
  destruct c as [[] [] [] [] [] [] [] []]; reflexivity.
Qed.

Lemma parse_string_body_dump (s rest : text) :
  parse_string_body (flat_map escape_char s ++ quote :: rest) = Some (s, rest).
Proof.
  induction s as [|c s IH]; [reflexivity|].
  cbn [flat_map]. rewrite <- app_assoc, parse_string_body_escape, IH. reflexivity.
Qed.

Lemma parse_string_dump (s rest : text) :
  parse_string (dump_string s ++ rest) = Some (s, rest).
Proof.
  unfold dump_string, parse_string. cbn [app]. rewrite Ascii.eqb_refl.
  rewrite <- app_assoc. apply parse_string_body_dump.
Qed.

Lemma lines_of_head (lvl : nat) (item : text) (items : list text) (s : text) :
  exists tail, lines_of lvl (map dump_string (item :: items)) ++ s = quote :: tail.
Proof.
  destruct items; cbn [map lines_of]; unfold dump_string; cbn [app]; eauto.
Qed.

Lemma lines_of_length (lvl : nat) (items : list text) :
  (List.length items <= List.length (lines_of lvl (map dump_string items)))%nat.
Proof.
  induction items as [|item [|item' items] IH]; cbn [map lines_of List.length]; [lia| |].
  - unfold dump_string. cbn [List.length]. lia.
  - cbn [map lines_of List.length] in IH. rewrite length_app. cbn [List.length].
    rewrite length_app. lia.
Qed.

Lemma parse_items_lines (lvl lvl' : nat) (items : list text) :
  items <> [] ->
  forall (fuel : nat) (rest : text),
    (List.length items <= fuel)%nat ->
    parse_items fuel (lines_of lvl (map dump_string items) ++ break lvl' ++ "]"%char :: rest)
    = Some (items, rest).
Proof.
  induction items as [|item items IH]; [easy|]. intros _ fuel rest Hfuel.
  destruct fuel as [|fuel]; [cbn in Hfuel; lia|].
  cbn [List.length] in Hfuel. cbn [parse_items].
  destruct items as [|item' items].
  - cbn [map lines_of]. rewrite parse_string_dump. cbn [bind].
    rewrite skip_ws_break. reflexivity.
  - change (lines_of lvl (map dump_string (item :: item' :: items)))
      with (dump_string item ++ ","%char :: break lvl
              ++ lines_of lvl (map dump_string (item' :: items))).
    rewrite <- app_assoc, parse_string_dump. cbn [bind app skip_ws is_ws existsb].
    cbn [Ascii.eqb Bool.eqb orb]. rewrite <- app_assoc, skip_ws_break.
    destruct (lines_of_head lvl item' items (break lvl' ++ "]"%char :: rest)) as [tail Htail].
    rewrite Htail. change (skip_ws (quote :: tail)) with (quote :: tail).
    rewrite <- Htail, IH by (discriminate || lia). reflexivity.
Qed.

Lemma skip_ws_stop (c : ascii) (s : text) : is_ws c = false -> skip_ws (c :: s) = c :: s.
Proof. intros Hc. cbn [skip_ws]. rewrite Hc. reflexivity. Qed.

Lemma parse_value_list (fuel : nat) (s s' tail : text) :
  skip_ws s = "["%char :: s' ->
  skip_ws s' = quote :: tail ->
  parse_value (S fuel) s
  = let* (items, tail) := parse_items fuel (quote :: tail) in Some (JStrings items, tail).
Proof.
  intros Hs Hs'. cbn [parse_value]. rewrite Hs. cbn [Ascii.eqb Bool.eqb quote].
  rewrite Hs'. reflexivity.
Qed.

Lemma parse_value_object (fuel : nat) (s s' tail : text) :
  skip_ws s = "{"%char :: s' ->
  skip_ws s' = quote :: tail ->
  parse_value (S fuel) s
  = let* (members, tail) := parse_members fuel (quote :: tail) in Some (JObject members, tail).
Proof.
  intros Hs Hs'. cbn [parse_value]. rewrite Hs. cbn [Ascii.eqb Bool.eqb quote].
  rewrite Hs'. reflexivity.
Qed.

Lemma parse_members_last (fuel : nat) (s rest rest' rest'' tail key : text) (value : json) :
  parse_string s = Some (key, rest) ->
  skip_ws rest = ":"%char :: rest' ->
  parse_value fuel rest' = Some (value, rest'') ->
  skip_ws rest'' = "}"%char :: tail ->
  parse_members (S fuel) s = Some ([(key, value)], tail).
Proof.
  intros Hkey Hcolon Hvalue Hclose. cbn [parse_members]. rewrite Hkey. cbn [bind].
  rewrite Hcolon. cbn [Ascii.eqb Bool.eqb]. rewrite Hvalue. cbn [bind].
  rewrite Hclose. reflexivity.
Qed.

Lemma dump_tiles_document (key row : text) (rows : list text) :
  json_dumps (JObject [(key, JStrings (row :: rows))])
  = "{"%char :: break 1
      ++ dump_string key
      ++ ":"%char :: " "%char :: "["%char :: break 2
      ++ lines_of 2 (map dump_string (row :: rows))
      ++ break 1 ++ "]"%char :: break 0 ++ ["}"%char].
Proof.
  unfold json_dumps. cbn [dump map lines_of fst snd]. f_equal. f_equal.
  rewrite <- !app_assoc. cbn [app]. rewrite <- !app_assoc. reflexivity.
Qed.

Lemma parse_tiles_document (key : text) (row : text) (rows : list text) (fuel : nat) :
  (List.length (row :: rows) <= fuel)%nat ->
  parse_value (S (S (S fuel))) (json_dumps (JObject [(key, JStrings (row :: rows))]))
  = Some (JObject [(key, JStrings (row :: rows))], []).
Proof.
  intros Hfuel. rewrite dump_tiles_document.
  destruct (lines_of_head 2 row rows (break 1 ++ "]"%char :: break 0 ++ ["}"%char]))
    as [tail Htail].
  rewrite parse_value_object
    with (s' := break 1 ++ dump_string key
                  ++ ":"%char :: " "%char :: "["%char :: break 2
                  ++ lines_of 2 (map dump_string (row :: rows))
                  ++ break 1 ++ "]"%char :: break 0 ++ ["}"%char])
         (tail := (flat_map escape_char key ++ [quote])
                  ++ ":"%char :: " "%char :: "["%char :: break 2
                  ++ lines_of 2 (map dump_string (row :: rows))
                  ++ break 1 ++ "]"%char :: break 0 ++ ["}"%char]);
    [| apply skip_ws_stop; reflexivity
     | rewrite skip_ws_break; unfold dump_string; cbn [app]; apply skip_ws_stop; reflexivity].
  erewrite parse_members_last; [reflexivity | | | |].
  - change (quote :: (flat_map escape_char key ++ [quote]) ++ ?x) with (dump_string key ++ x).
    apply parse_string_dump.
  - apply skip_ws_stop. reflexivity.
  - rewrite parse_value_list
      with (tail := tail)
           (s' := break 2 ++ lines_of 2 (map dump_string (row :: rows))
                    ++ break 1 ++ "]"%char :: break 0 ++ ["}"%char]);
      [| reflexivity | rewrite skip_ws_break, Htail; apply skip_ws_stop; reflexivity].
    rewrite <- Htail, parse_items_lines by (discriminate || exact Hfuel). reflexivity.
  - rewrite skip_ws_break. reflexivity.
Qed.

Lemma json_round_trip_tiles (key : text) (rows : list text) :
  rows <> [] ->
  json_loads (json_dumps (JObject [(key, JStrings rows)])) = Some (JObject [(key, JStrings rows)]).
Proof.
  intros Hne. destruct rows as [|row rows]; [easy|].
  unfold json_loads.
  assert (Hlen : (2 + List.length (row :: rows)
                  <= List.length (json_dumps (JObject [(key, JStrings (row :: rows))])))%nat).
  { rewrite dump_tiles_document.
    pose proof (lines_of_length 2 (row :: rows)) as Hl.
    change (List.length (row :: rows)) with (S (List.length rows)) in Hl.
    cbn [List.length]. rewrite !length_app. cbn [List.length]. rewrite !length_app.
    cbn [List.length]. rewrite !length_app. lia. }
  destruct (List.length (json_dumps (JObject [(key, JStrings (row :: rows))])))
    as [|[|fuel]]; [lia | lia |].
  assert (Hfuel : (List.length (row :: rows) <= fuel)%nat) by (cbn [List.length] in *; lia).
  rewrite parse_tiles_document by exact Hfuel. reflexivity.
Qed.

Lemma read_after_write (fs : FS) (path : string) (content : text) :
  write_file fs path content path = Some content.
Proof. unfold write_file. rewrite String.eqb_refl. reflexivity. Qed.

Lemma save_level_writes (fs : FS) (grid : list text) (path : string) :
  grid <> [] -> rectangular grid ->
  save_level fs grid path path = Some (json_dumps (tiles_document grid)).
Proof.
  intros Hne Hrect. unfold save_level. rewrite normalise_rectangular by assumption.
  apply read_after_write.
Qed.

End LevelRoundTrip.

(** Where the round trip does hold: for every non-empty grid whose rows
    share one positive length, and every path whose lower-cased name ends
    in [.json], [save_level] followed by [_load_level_file] on the written
    file returns exactly the rows that were saved. *)
Theorem save_load_round_trip (fs : LevelIO.FS) (grid : list LevelIO.text) (path : string) :
  grid <> [] ->
  rectangular grid ->
  LevelIO.is_json_path path = true ->
  LevelIO._load_level_file (LevelIO.save_level fs grid path) path = Some grid.
Proof.
  intros Hne Hrect Hjson. unfold LevelIO._load_level_file.
  rewrite save_level_writes by assumption. cbn [bind]. rewrite Hjson.
  unfold tiles_document. rewrite json_round_trip_tiles by assumption. cbn [bind].
  destruct grid as [|row rows]; [easy|].
  change (LevelIO.py_or _ _) with (Some (LevelIO.JStrings (row :: rows))).
  cbn [bind LevelIO.iterate]. apply normalise_rectangular; assumption.
Qed.

Lemma save_load_round_trip_witness :
  small_level <> []
  /\ rectangular small_level
  /\ LevelIO.is_json_path LevelIO.DEFAULT_LEVEL_FILE = true
  /\ LevelIO._load_level_file
       (LevelIO.save_level empty_disk small_level LevelIO.DEFAULT_LEVEL_FILE)
       LevelIO.DEFAULT_LEVEL_FILE = Some small_level.
Proof.
  assert (Hne : small_level <> []) by discriminate.
  assert (Hrect : rectangular small_level).
  { exists 4%nat. split; [lia|]. repeat constructor. }
  assert (Hjson : LevelIO.is_json_path LevelIO.DEFAULT_LEVEL_FILE = true) by reflexivity.
  split; [exact Hne|]. split; [exact Hrect|]. split; [exact Hjson|].
  apply (save_load_round_trip empty_disk small_level LevelIO.DEFAULT_LEVEL_FILE Hne Hrect Hjson).
Defined.

(** C9 fails: [save_level] writes JSON whatever the name of the file, and
    [_load_level_file] chooses its reader by the name.  Saved under a name
    that does not end in [.json], the file holds the JSON document, which
    the loader then reads as plain text, one row per line of the document.
    The editor gets there by itself: started on the text level [level.txt]
    it shows the level, saves it to that path and reloads the lines of the
    JSON document as its grid. *)
Lemma text_path_breaks_round_trip :
  small_level <> []
  /\ rectangular small_level
  /\ LevelIO._load_level_file (LevelIO.save_level empty_disk small_level "level.txt") "level.txt"
     = Some (map list_ascii_of_string
               ["{           ";
                "  " ++ quoted "tiles" ++ ": [";
                "    " ++ quoted "  M " ++ ", ";
                "    " ++ quoted "?B| " ++ ", ";
                "    " ++ quoted "XXXX" ++ "  ";
                "  ]         ";
                "}           "]%string)
  /\ LevelIO._load_level_file (LevelIO.save_level empty_disk small_level "level.txt") "level.txt"
     <> Some small_level
  /\ (let disk := LevelIO.write_file empty_disk "level.txt" (join_lines small_level) in
      let e := LevelEditor.init disk None (Some "level.txt"%string) in
      LevelEditor.level_path e = "level.txt"%string
      /\ LevelEditor.grid e = small_level
      /\ LevelEditor.grid (LevelEditor._reload (LevelEditor._save disk e) None e)
         = map list_ascii_of_string
             ["{           ";
              "  " ++ quoted "tiles" ++ ": [";
              "    " ++ quoted "  M " ++ ", ";
              "    " ++ quoted "?B| " ++ ", ";
              "    " ++ quoted "XXXX" ++ "  ";
              "  ]         ";
              "}           "]%string
      /\ LevelEditor.grid (LevelEditor._reload (LevelEditor._save disk e) None e)
         <> LevelEditor.grid e).
Proof.
  split; [discriminate|]. split; [exists 4%nat; split; [lia | repeat constructor]|].
  split; [vm_compute; reflexivity|]. split; [vm_compute; discriminate|].
  cbv zeta. split; [vm_compute; reflexivity|]. split; [vm_compute; reflexivity|].
  split; [vm_compute; reflexivity | vm_compute; discriminate].
Qed.

(** The default level the game falls back on survives the round trip. *)
Example default_level_round_trip :
  LevelIO._load_level_file
    (LevelIO.save_level empty_disk LevelIO.make_default_level LevelIO.DEFAULT_LEVEL_FILE)
    LevelIO.DEFAULT_LEVEL_FILE = Some LevelIO.make_default_level.
Proof. vm_compute. reflexivity. Qed.

(** A grid without rows is not written as it is: the default level is
    saved in its place. *)
Example empty_grid_saves_default :
  LevelIO._load_level_file (LevelIO.save_level empty_disk [] LevelIO.DEFAULT_LEVEL_FILE)
    LevelIO.DEFAULT_LEVEL_FILE = Some LevelIO.make_default_level.
Proof. vm_compute. reflexivity. Qed.

(** * Level files: normalisation, loading order, formats *)

Section LevelFiles.
Import LevelIO.

Lemma widest_zero (rows : list text) :
  fold_right Nat.max 0%nat (map (@List.length ascii) rows) = 0%nat
  <-> Forall (fun row => row = []) rows.
Proof.
  induction rows as [|row rows IH]; cbn [map fold_right].
  - split; [constructor | reflexivity].
  - split.
    + intros Hmax. constructor.
      * destruct row; [reflexivity | cbn [List.length] in Hmax; lia].
      * apply IH. lia.
    + intros Hall. inversion Hall as [|? ? Hrow Hrows]; subst.
      apply IH in Hrows. rewrite Hrows. reflexivity.
Qed.

Lemma widest_bound (rows : list text) (row : text) :
  In row rows ->
  (List.length row <= fold_right Nat.max 0%nat (map (@List.length ascii) rows))%nat.
Proof.
  induction rows as [|r rows IH]; [contradiction|].
  cbn [map fold_right]. intros [<-|Hin]; [lia|]. specialize (IH Hin). lia.
Qed.

Lemma ljust_length (width : nat) (row : text) :
  (List.length row <= width)%nat -> List.length (ljust width row) = width.
Proof.
  intros Hle. unfold ljust. rewrite length_app, repeat_length. lia.
Qed.

Lemma normalise_none (rows : list text) :
  _normalise_rows rows = None <-> Forall (fun row => row = []) rows.
Proof.
  unfold _normalise_rows. destruct rows as [|row rows].
  - split; [constructor | reflexivity].
  - rewrite <- widest_zero.
    destruct (Nat.eqb_spec (fold_right Nat.max 0%nat (map (@List.length ascii) (row :: rows))) 0).
    + tauto.
    + split; [discriminate | contradiction].
Qed.

Lemma normalise_some (rows out : list text) :
  _normalise_rows rows = Some out ->
  out <> [] /\ rectangular out /\ Forall2 padded rows out.
Proof.
  unfold _normalise_rows. destruct rows as [|row rows]; [discriminate|].
  set (width := fold_right Nat.max 0%nat (map (@List.length ascii) (row :: rows))).
  destruct (Nat.eqb_spec width 0) as [|Hpos]; [discriminate|].
  intros Hout. injection Hout as <-.
  assert (Hbound : forall r, In r (row :: rows) -> (List.length r <= width)%nat)
    by (intros r Hin; apply widest_bound; exact Hin).
  clearbody width. split; [discriminate|]. split.
  - exists width. split; [lia|]. apply Forall_forall. intros o Hin.
    change (In o (map (ljust width) (row :: rows))) in Hin.
    apply in_map_iff in Hin. destruct Hin as (r & <- & Hr).
    apply ljust_length. apply Hbound. exact Hr.
  - clear Hbound. change (Forall2 padded (row :: rows) (map (ljust width) (row :: rows))).
    generalize (row :: rows). intros l. induction l as [|r l IH]; cbn [map]; constructor.
    + exists (width - List.length r)%nat. reflexivity.
    + exact IH.
Qed.

Lemma normalise_twice (rows out : list text) :
  _normalise_rows rows = Some out -> _normalise_rows out = Some out.
Proof.
  intros Hout. destruct (normalise_some rows out Hout) as (Hne & Hrect & _).
  apply normalise_rectangular; assumption.
Qed.

Lemma default_level_shape :
  make_default_level <> [] /\ rectangular make_default_level.
Proof.
  split; [vm_compute; discriminate|].
  exists 180%nat. split; [lia|]. vm_compute. repeat constructor.
Qed.

Lemma saved_rows_shape (grid : list text) :
  saved_rows grid <> [] /\ rectangular (saved_rows grid).
Proof.
  unfold saved_rows. destruct (_normalise_rows grid) as [normal|] eqn:Hn.
  - destruct (normalise_some grid normal Hn) as (H1 & H2 & _). split; assumption.
  - apply default_level_shape.
Qed.

Lemma save_level_content (fs : FS) (grid : list text) (path : string) :
  save_level fs grid path path = Some (json_dumps (tiles_document (saved_rows grid))).
Proof. unfold save_level, saved_rows. apply read_after_write. Qed.

Lemma load_tiles_document (fs : FS) (path : string) (key : text) (rows : list text) :
  is_json_path path = true ->
  rows <> [] ->
  fs path = Some (json_dumps (JObject [(key, JStrings rows)])) ->
  _load_level_file fs path
  = if existsb (fun k => if list_eq_dec ascii_dec key (list_ascii_of_string k) then true else false)
         ["tiles"; "level"; "rows"]%string
    then _normalise_rows rows else None.
Proof.
  intros Hjson Hne Hfile. unfold _load_level_file. rewrite Hfile. cbn [bind].
  rewrite Hjson, json_round_trip_tiles by exact Hne. cbn [bind existsb].
  assert (Htruthy : truthy (JStrings rows) = true) by (destruct rows; [easy | reflexivity]).
  cbn [dict_get].
  destruct (list_eq_dec ascii_dec key (list_ascii_of_string "tiles")) as [Ht|Ht].
  { repeat (cbn [py_or orb bind iterate]; rewrite ?Htruthy). reflexivity. }
  destruct (list_eq_dec ascii_dec key (list_ascii_of_string "level")) as [Hl|Hl].
  { repeat (cbn [py_or orb bind iterate]; rewrite ?Htruthy). reflexivity. }
  destruct (list_eq_dec ascii_dec key (list_ascii_of_string "rows")) as [Hr|Hr].
  { repeat (cbn [py_or orb bind iterate]; rewrite ?Htruthy). reflexivity. }
  reflexivity.
Qed.

Lemma save_then_load (fs : FS) (grid : list text) (path : string) :
  is_json_path path = true ->
  _load_level_file (save_level fs grid path) path = Some (saved_rows grid).
Proof.
  intros Hjson. destruct (saved_rows_shape grid) as [Hne Hrect].
  rewrite (load_tiles_document _ path (list_ascii_of_string "tiles") (saved_rows grid) Hjson Hne)
    by apply save_level_content.
  cbn [existsb]. destruct (list_eq_dec ascii_dec _ _) as [_|Hn]; [|contradiction Hn; reflexivity].
  cbn [orb]. apply normalise_rectangular; assumption.
Qed.

Lemma load_level_file_shape (fs : FS) (path : string) (out : list text) :
  _load_level_file fs path = Some out -> out <> [] /\ rectangular out.
Proof.
  unfold _load_level_file.
  destruct (fs path) as [content|]; cbn [bind]; [|discriminate].
  destruct (if is_json_path path then json_loads content else Some (JString content))
    as [data|]; cbn [bind]; [|discriminate].
  match goal with |- (let* rows := ?e in _) = _ -> _ => destruct e as [rows|] end;
    cbn [bind]; [|discriminate].
  intros Hout. destruct (normalise_some _ _ Hout) as (H1 & H2 & _). split; assumption.
Qed.

Lemma first_level_shape (fs : FS) (candidates : list string) :
  fst (first_level fs candidates) <> [] /\ rectangular (fst (first_level fs candidates)).
Proof.
  induction candidates as [|c rest IH]; cbn [first_level].
  - apply default_level_shape.
  - destruct (_load_level_file fs c) as [[|row rows]|] eqn:Hload; try exact IH.
    cbn [fst]. apply (load_level_file_shape fs c). exact Hload.
Qed.

Lemma first_level_source (fs : FS) (candidates : list string) :
  match first_level fs candidates with
  | (level, Some source) =>
      In source candidates /\ _load_level_file fs source = Some level
  | (level, None) =>
      level = make_default_level
      /\ forall c, In c candidates ->
           _load_level_file fs c = None \/ _load_level_file fs c = Some []
  end.
Proof.
  induction candidates as [|c rest IH]; cbn [first_level].
  - split; [reflexivity | contradiction].
  - destruct (_load_level_file fs c) as [[|row rows]|] eqn:Hload.
    + destruct (first_level fs rest) as [level [source|]].
      * destruct IH as [Hin Hl]. split; [right; exact Hin | exact Hl].
      * destruct IH as [Hd Hall]. split; [exact Hd|].
        intros c' [<-|Hin]; [right; exact Hload | apply Hall; exact Hin].
    + split; [left; reflexivity | exact Hload].
    + destruct (first_level fs rest) as [level [source|]].
      * destruct IH as [Hin Hl]. split; [right; exact Hin | exact Hl].
      * destruct IH as [Hd Hall]. split; [exact Hd|].
        intros c' [<-|Hin]; [left; exact Hload | apply Hall; exact Hin].
Qed.

Lemma explicit_path_first (path : string) (env_path : option string) :
  path <> EmptyString ->
  exists rest, level_candidates (Some path) env_path = path :: rest.
Proof.
  intros Hne. unfold level_candidates.
  destruct (String.eqb_spec path EmptyString) as [|_]; [contradiction|].
  cbn [app].
  destruct env_path as [p|]; [destruct (String.eqb p EmptyString)|];
    match goal with |- context [if ?c then _ else _] => destruct c end;
    cbn [app]; eauto.
Qed.

Lemma default_file_is_candidate (path env_path : option string) :
  In DEFAULT_LEVEL_FILE (level_candidates path env_path).
Proof.
  unfold level_candidates.
  match goal with |- context [existsb ?f ?l] => destruct (existsb f l) eqn:Hex end.
  - apply existsb_exists in Hex. destruct Hex as (c & Hin & Heq).
    apply String.eqb_eq in Heq. subst c. exact Hin.
  - apply in_or_app. right. left. reflexivity.
Qed.

Lemma load_explicit_path (fs : FS) (env_path : option string) (path : string)
  (row : text) (rows : list text) :
  path <> EmptyString ->
  _load_level_file fs path = Some (row :: rows) ->
  load_level fs env_path (Some path) = (row :: rows, Some path).
Proof.
  intros Hne Hload. unfold load_level.
  destruct (explicit_path_first path env_path Hne) as [rest ->].
  cbn [first_level]. rewrite Hload. reflexivity.
Qed.

Lemma splitlines_one_line (row current rest : text) :
  one_line row ->
  splitlines_from current (row ++ rest) = splitlines_from (current ++ row) rest.
Proof.
  intros Hrow. revert current.
  induction Hrow as [|c row Hc Hrow IH]; intros current.
  - rewrite app_nil_r. reflexivity.
  - cbn [app splitlines_from]. rewrite Hc, IH, <- app_assoc. reflexivity.
Qed.

Lemma splitlines_join (rows : list text) :
  Forall one_line rows -> last rows [] <> [] -> splitlines (join_lines rows) = rows.
Proof.
  unfold splitlines. intros Hall. induction Hall as [|row rows Hrow Hall IH].
  - intros Hlast. contradiction Hlast. reflexivity.
  - destruct rows as [|row' rows].
    + cbn [last join_lines]. intros Hlast.
      rewrite <- (app_nil_r row) at 1. rewrite splitlines_one_line by exact Hrow.
      cbn [app splitlines_from]. destruct row; [contradiction Hlast; reflexivity | reflexivity].
    + intros Hlast.
      change (join_lines (row :: row' :: rows))
        with (row ++ newline :: join_lines (row' :: rows)).
      rewrite splitlines_one_line by exact Hrow. cbn [app].
      change (splitlines_from row (newline :: ?s)) with (row :: splitlines_from [] s).
      f_equal. apply IH. exact Hlast.
Qed.

End LevelFiles.

(** [_normalise_rows] refuses exactly the inputs without a character: no
    rows at all, or only empty rows. *)
Theorem normalise_rows_refuses_blank (rows : list LevelIO.text) :
  LevelIO._normalise_rows rows = None <-> Forall (fun row => row = []) rows.
Proof. exact (normalise_none rows). Qed.

(** Whatever [_normalise_rows] returns is a non-empty grid of rows of one
    positive length, with as many rows as given, each the given row followed
    by spaces only. *)
Theorem normalise_rows_pads (rows out : list LevelIO.text) :
  LevelIO._normalise_rows rows = Some out ->
  out <> [] /\ rectangular out /\ List.length out = List.length rows
  /\ Forall2 padded rows out.
Proof.
  intros Hout. destruct (normalise_some rows out Hout) as (H1 & H2 & H3).
  split; [exact H1|]. split; [exact H2|]. split; [|exact H3].
  symmetry. exact (Forall2_length H3).
Qed.

Lemma normalise_rows_pads_witness :
  LevelIO._normalise_rows (map list_ascii_of_string ["X"; "XXX"; ""]%string)
  = Some (map list_ascii_of_string ["X  "; "XXX"; "   "]%string)
  /\ List.length (map list_ascii_of_string ["X  "; "XXX"; "   "]%string) = 3%nat.
Proof.
  assert (H : LevelIO._normalise_rows (map list_ascii_of_string ["X"; "XXX"; ""]%string)
              = Some (map list_ascii_of_string ["X  "; "XXX"; "   "]%string)) by reflexivity.
  split; [exact H|].
  destruct (normalise_rows_pads _ _ H) as (_ & _ & Hlen & _). exact Hlen.
Defined.

(** Normalising is idempotent: a normalised grid is returned as it is. *)
Theorem normalise_rows_idempotent (rows out : list LevelIO.text) :
  LevelIO._normalise_rows rows = Some out -> LevelIO._normalise_rows out = Some out.
Proof. exact (normalise_twice rows out). Qed.

Lemma normalise_rows_idempotent_witness :
  LevelIO._normalise_rows (map list_ascii_of_string ["X  "; "XXX"; "   "]%string)
  = Some (map list_ascii_of_string ["X  "; "XXX"; "   "]%string).
Proof.
  apply (normalise_rows_idempotent (map list_ascii_of_string ["X"; "XXX"; ""]%string)).
  reflexivity.
Defined.

(** Saving any grid, ragged or empty, under a [.json] name and loading the
    file returns the normalised grid, and the built-in level when the grid
    has no character. *)
Theorem save_load_any_grid (fs : LevelIO.FS) (grid : list LevelIO.text) (path : string) :
  LevelIO.is_json_path path = true ->
  LevelIO._load_level_file (LevelIO.save_level fs grid path) path
  = Some (match LevelIO._normalise_rows grid with
          | Some normal => normal
          | None => LevelIO.make_default_level
          end).
Proof. exact (save_then_load fs grid path). Qed.

Lemma save_load_any_grid_witness :
  LevelIO._load_level_file
    (LevelIO.save_level empty_disk (map list_ascii_of_string ["X"; "XXX"; ""]%string) "a.json")
    "a.json"
  = Some (map list_ascii_of_string ["X  "; "XXX"; "   "]%string).
Proof.
  apply (save_load_any_grid empty_disk (map list_ascii_of_string ["X"; "XXX"; ""]%string)
           "a.json").
  reflexivity.
Defined.

(** A JSON level file holding one object with one list of rows is read
    through the keys [tiles], [level] and [rows] alike; under any other key
    the file is refused. *)
Theorem level_file_keys (fs : LevelIO.FS) (path : string) (key : LevelIO.text)
  (rows : list LevelIO.text) :
  LevelIO.is_json_path path = true ->
  rows <> [] ->
  fs path = Some (LevelIO.json_dumps (LevelIO.JObject [(key, LevelIO.JStrings rows)])) ->
  (In key (map list_ascii_of_string ["tiles"; "level"; "rows"]%string) ->
     LevelIO._load_level_file fs path = LevelIO._normalise_rows rows)
  /\ (~ In key (map list_ascii_of_string ["tiles"; "level"; "rows"]%string) ->
        LevelIO._load_level_file fs path = None).
Proof.
  intros Hjson Hne Hfile.
  rewrite (load_tiles_document fs path key rows Hjson Hne Hfile). cbn [existsb map].
  destruct (list_eq_dec ascii_dec key (list_ascii_of_string "tiles")) as [Ht|Ht];
    [split; [reflexivity | intros Hn; contradiction Hn; left; symmetry; exact Ht]|].
  destruct (list_eq_dec ascii_dec key (list_ascii_of_string "level")) as [Hl|Hl];
    [split; [reflexivity | intros Hn; contradiction Hn; right; left; symmetry; exact Hl]|].
  destruct (list_eq_dec ascii_dec key (list_ascii_of_string "rows")) as [Hr|Hr];
    [split; [reflexivity | intros Hn; contradiction Hn; right; right; left; symmetry; exact Hr]|].
  cbn [orb]. split; [|reflexivity].
  intros [H|[H|[H|[]]]]; symmetry in H; contradiction.
Qed.

Lemma level_file_keys_witness :
  LevelIO._load_level_file
    (LevelIO.write_file empty_disk "a.json"
       (LevelIO.json_dumps
          (LevelIO.JObject [(list_ascii_of_string "level", LevelIO.JStrings small_level)])))
    "a.json"
  = LevelIO._normalise_rows small_level.
Proof.
  refine (proj1 (level_file_keys _ "a.json" (list_ascii_of_string "level") small_level
                   eq_refl _ eq_refl) _).
  - discriminate.
  - right. left. reflexivity.
Defined.

(** A level kept as plain text (any name not ending in [.json]) is read one
    row per line and padded: for rows without line boundaries, the last one
    not empty, the file of the rows joined by line feeds loads as the
    normalised rows. *)
Theorem text_level_by_lines (fs : LevelIO.FS) (path : string) (rows : list LevelIO.text) :
  LevelIO.is_json_path path = false ->
  Forall one_line rows ->
  last rows [] <> [] ->
  fs path = Some (join_lines rows) ->
  LevelIO._load_level_file fs path = LevelIO._normalise_rows rows.
Proof.
  intros Hjson Hall Hlast Hfile. unfold LevelIO._load_level_file.
  rewrite Hfile, Hjson. cbn [bind LevelIO.iterate].
  rewrite splitlines_join by assumption. reflexivity.
Qed.

Lemma text_level_by_lines_witness :
  LevelIO._load_level_file
    (LevelIO.write_file empty_disk "level.txt"
       (join_lines (map list_ascii_of_string ["  C"; ""; "XXXX"]%string)))
    "level.txt"
  = LevelIO._normalise_rows (map list_ascii_of_string ["  C"; ""; "XXXX"]%string).
Proof.
  apply text_level_by_lines.
  - reflexivity.
  - repeat constructor.
  - discriminate.
  - reflexivity.
Defined.

Lemma saved_disk_modelled (path : string) : modelled_file saved_disk path.
Proof.
  intros content Hfile _. unfold saved_disk, LevelIO.save_level, LevelIO.write_file in Hfile.
  destruct (String.eqb path LevelIO.DEFAULT_LEVEL_FILE); [|discriminate].
  injection Hfile as <-. eexists. split; [vm_compute; reflexivity | vm_compute; lia].
Qed.

(** [load_level] never hands out an empty or ragged level: when the
    candidate files are inside the modelled fragment (missing, text, or
    JSON documents of strings), the result has rows, all of one positive
    length, whatever those files hold. *)
Theorem load_level_well_formed (fs : LevelIO.FS) (env_path path : option string) :
  Forall (modelled_file fs) (level_candidates path env_path) ->
  fst (load_level fs env_path path) <> []
  /\ rectangular (fst (load_level fs env_path path)).
Proof. intros _. exact (first_level_shape fs (level_candidates path env_path)). Qed.

Lemma load_level_well_formed_witness :
  Forall (modelled_file saved_disk) (level_candidates None None)
  /\ load_level saved_disk None None = (small_level, Some LevelIO.DEFAULT_LEVEL_FILE)
  /\ rectangular (fst (load_level saved_disk None None)).
Proof.
  assert (H : Forall (modelled_file saved_disk) (level_candidates None None)).
  { apply Forall_forall. intros c _. apply saved_disk_modelled. }
  split; [exact H|]. split; [vm_compute; reflexivity|].
  exact (proj2 (load_level_well_formed saved_disk None None H)).
Defined.

(** When the candidate files are inside the modelled fragment: the source
    [load_level] reports is a candidate file that loads to the very level
    returned; without a source the level is the built-in one and no
    candidate, the default file among them, holds a level.  A non-empty
    explicit path that loads wins over the environment and the default. *)
Theorem load_level_source (fs : LevelIO.FS) (env_path path : option string) :
  Forall (modelled_file fs) (level_candidates path env_path) ->
  In LevelIO.DEFAULT_LEVEL_FILE (level_candidates path env_path)
  /\ (forall level source,
        load_level fs env_path path = (level, Some source) ->
        In source (level_candidates path env_path)
        /\ LevelIO._load_level_file fs source = Some level)
  /\ (forall level,
        load_level fs env_path path = (level, None) ->
        level = LevelIO.make_default_level
        /\ forall c, In c (level_candidates path env_path) ->
             LevelIO._load_level_file fs c = None \/ LevelIO._load_level_file fs c = Some [])
  /\ (forall p row rows,
        path = Some p -> p <> EmptyString ->
        LevelIO._load_level_file fs p = Some (row :: rows) ->
        load_level fs env_path path = (row :: rows, Some p)).
Proof.
  intros _. split; [apply default_file_is_candidate|].
  pose proof (first_level_source fs (level_candidates path env_path)) as Hsrc.
  fold (load_level fs env_path path) in Hsrc.
  split; [|split].
  - intros level source Heq. rewrite Heq in Hsrc. exact Hsrc.
  - intros level Heq. rewrite Heq in Hsrc. exact Hsrc.
  - intros p row rows -> Hne Hload. now apply load_explicit_path.
Qed.

Lemma load_level_source_witness :
  Forall (modelled_file saved_disk) (level_candidates (Some "custom_level.json"%string) None)
  /\ load_level saved_disk None (Some "custom_level.json"%string)
     = (small_level, Some "custom_level.json"%string)
  /\ LevelIO._load_level_file saved_disk "custom_level.json" = Some small_level.
Proof.
  assert (H : Forall (modelled_file saved_disk)
                (level_candidates (Some "custom_level.json"%string) None)).
  { apply Forall_forall. intros c _. apply saved_disk_modelled. }
  split; [exact H|].
  destruct (load_level_source saved_disk None (Some "custom_level.json"%string) H)
    as (_ & Hsrc & _).
  assert (E : load_level saved_disk None (Some "custom_level.json"%string)
              = (small_level, Some "custom_level.json"%string)) by (vm_compute; reflexivity).
  split; [exact E|]. exact (proj2 (Hsrc _ _ E)).
Defined.

(** * The level editor *)

Section Editor.
Import LevelEditor.

Lemma level_size (level : list LevelIO.text) :
  level <> [] -> rectangular level ->
  (0 < first_width level)
  /\ Forall (fun row => Z.of_nat (List.length row) = first_width level) level.
Proof.
  intros Hne (w & Hpos & Hall). destruct level as [|row rows]; [easy|].
  cbn [first_width]. inversion Hall as [|? ? Hrow Hrows]; subst.
  split; [lia|]. constructor; [reflexivity|].
  eapply Forall_impl; [|exact Hrows]. cbn beta. intros r Hr. lia.
Qed.

Lemma editor_rectangular (e : t) : editor_wf e -> rectangular (grid e).
Proof.
  intros (_ & _ & Hpos & Hall). exists (Z.to_nat (width e)). split; [lia|].
  eapply Forall_impl; [|exact Hall]. cbn beta. intros r Hr. lia.
Qed.

Lemma editor_of_level (level : list LevelIO.text) (e : t) :
  level <> [] -> rectangular level ->
  grid e = level -> height e = Z.of_nat (List.length level) -> width e = first_width level ->
  editor_wf e.
Proof.
  intros Hne Hrect Hg Hh Hw. destruct (level_size level Hne Hrect) as [Hpos Hall].
  unfold editor_wf. rewrite Hg, Hh, Hw. auto.
Qed.

Lemma init_wf (fs : LevelIO.FS) (env_path level_path : option string) :
  editor_wf (init fs env_path level_path).
Proof.
  unfold init.
  pose proof (first_level_shape fs (level_candidates level_path env_path)) as [Hne Hrect].
  fold (load_level fs env_path level_path) in Hne, Hrect.
  destruct (load_level fs env_path level_path) as [level source]. cbn [fst] in Hne, Hrect.
  apply (editor_of_level level); auto.
Qed.

Lemma reload_wf (fs : LevelIO.FS) (env_path : option string) (e : t) :
  editor_wf (_reload fs env_path e).
Proof.
  unfold _reload.
  pose proof (first_level_shape fs (level_candidates (Some (level_path e)) env_path))
    as [Hne Hrect].
  fold (load_level fs env_path (Some (level_path e))) in Hne, Hrect.
  destruct (load_level fs env_path (Some (level_path e))) as [level source].
  cbn [fst] in Hne, Hrect. apply (editor_of_level level); auto.
Qed.

Lemma Qmax_Qmin_between (c m : Q) :
  (0 <= m)%Q -> (0 <= Qmax 0 (Qmin c m) <= m)%Q.
Proof.
  intros Hm. unfold Qmax, Qmin.
  destruct (Qlt_bool m c) eqn:E1.
  - destruct (Qlt_bool 0 m) eqn:E2.
    + split; [exact Hm | apply Qle_refl].
    + split; [apply Qle_refl | exact Hm].
  - apply Qlt_bool_false_iff in E1. destruct (Qlt_bool 0 c) eqn:E2.
    + apply Qlt_bool_iff in E2. split; [apply Qlt_le_weak; exact E2 | exact E1].
    + split; [apply Qle_refl | exact Hm].
Qed.

Lemma clamp_camera_inside (e : t) : camera_inside (_clamp_camera e).
Proof.
  unfold camera_inside, _clamp_camera. cbn [camera_x camera_y width height with_camera].
  split; apply Qmax_Qmin_between;
    (change 0%Q with (inject_Z 0); rewrite <- Zle_Qle; lia).
Qed.

Lemma tile_at_pos_inside (pos : Z * Z) (e : t) (tx ty : Z) :
  _tile_at_pos pos e = Some (tx, ty) -> 0 <= tx < width e /\ 0 <= ty < height e.
Proof.
  unfold _tile_at_pos. destruct (grid e); [discriminate|]. destruct pos as [mx my].
  destruct (negb (collidepoint work_area mx my)); [discriminate|]. cbv zeta.
  generalize (Qfloor ((inject_Z mx + camera_x e - inject_Z (rx work_area)) / inject_Z TILE_SIZE)).
  generalize (Qfloor ((inject_Z my + camera_y e - inject_Z (ry work_area)) / inject_Z TILE_SIZE)).
  intros ty0 tx0.
  match goal with |- (if ?c then _ else _) = _ -> _ => destruct c eqn:Hc end; [|discriminate].
  intros Heq. injection Heq as <- <-.
  apply andb_true_iff in Hc. destruct Hc as [Hc Hc4].
  apply andb_true_iff in Hc. destruct Hc as [Hc Hc3].
  apply andb_true_iff in Hc. destruct Hc as [Hc1 Hc2].
  apply Z.leb_le in Hc1, Hc3. apply Z.ltb_lt in Hc2, Hc4. lia.
Qed.

Lemma set_tile_spec (tx ty : Z) (char : ascii) (e : t) :
  editor_wf e -> 0 <= tx < width e -> 0 <= ty < height e ->
  exists e',
    _set_tile tx ty char e = Some e' /\ editor_wf e'
    /\ level_path e' = level_path e /\ selected_index e' = selected_index e
    /\ grid_get (grid e') tx ty = Some char
    /\ forall tx' ty', 0 <= tx' -> 0 <= ty' -> (tx', ty') <> (tx, ty) ->
         grid_get (grid e') tx' ty' = grid_get (grid e) tx' ty'.
Proof.
  intros Hwf Hx Hy. pose proof Hwf as (Hne & Hh & Hpos & Hall).
  assert (Hrows : Forall (fun row => List.length row = Z.to_nat (width e)) (grid e)).
  { eapply Forall_impl; [|exact Hall]. cbn beta. intros r Hr. lia. }
  destruct (grid_get_total (grid e) (Z.to_nat (width e)) tx ty Hrows) as [current Hcur];
    [lia | lia |].
  unfold _set_tile. rewrite Hcur. cbn [bind].
  destruct (Ascii.eqb_spec current char) as [->|Hdiff]; cbn [negb].
  - exists e. repeat split; auto.
  - destruct (grid_set_Some (grid e) tx ty current char Hcur) as [rows Hrows'].
    rewrite Hrows'. cbn [bind]. eexists. split; [reflexivity|].
    destruct (grid_set_shape _ _ _ _ _ Hrows') as [Hlen Hshape].
    cbn [grid with_grid height width level_path selected_index].
    split.
    { unfold editor_wf. cbn [grid with_grid height width].
      split; [intros ->; destruct (grid e); [easy | discriminate]|].
      split; [lia|]. split; [exact Hpos|].
      eapply Forall_impl; [|exact (Hshape _ Hrows)]. cbn beta. intros r Hr. lia. }
    split; [reflexivity|]. split; [reflexivity|]. split.
    { apply (grid_get_set_same (grid e) rows tx ty char); [lia | lia | exact Hrows']. }
    intros tx' ty' Hx' Hy' Hneq.
    apply (grid_get_set_other (grid e) rows tx ty tx' ty' char); auto; lia.
Qed.

Lemma palette_index (i : Z) :
  0 <= i < Z.of_nat (List.length PALETTE) -> exists char, py_index PALETTE i = Some char.
Proof. apply py_index_inside_Some. Qed.

Lemma handle_mouse_spec (buttons : Buttons) (pos : Z * Z) (e : t) :
  editor_wf e ->
  0 <= selected_index e < Z.of_nat (List.length PALETTE) ->
  exists e',
    _handle_mouse buttons pos e = Some e' /\ editor_wf e'
    /\ level_path e' = level_path e /\ selected_index e' = selected_index e
    /\ (forall tx ty, 0 <= tx -> 0 <= ty -> _tile_at_pos pos e <> Some (tx, ty) ->
          grid_get (grid e') tx ty = grid_get (grid e) tx ty)
    /\ (button_middle buttons = true -> grid e' = grid e /\ camera_inside e')
    /\ (forall tx ty, button_middle buttons = false -> _tile_at_pos pos e = Some (tx, ty) ->
          (button_left buttons = true ->
             grid_get (grid e') tx ty = py_index PALETTE (selected_index e))
          /\ (button_left buttons = false -> button_right buttons = true ->
                grid_get (grid e') tx ty = Some " "%char)
          /\ (button_left buttons = false -> button_right buttons = false ->
                grid e' = grid e)).
Proof.
  intros Hwf Hsel. unfold _handle_mouse.
  destruct (button_middle buttons) eqn:Hmid.
  - (* dragging *)
    set (e1 := if negb (dragging e)
               then with_drag pos (camera_x e, camera_y e) (with_dragging true e) else e).
    assert (Hdrag : dragging e1 = true).
    { subst e1. destruct (dragging e) eqn:Hd; cbn [negb]; [exact Hd | reflexivity]. }
    assert (Hsame : grid e1 = grid e /\ height e1 = height e /\ width e1 = width e
                    /\ level_path e1 = level_path e /\ selected_index e1 = selected_index e).
    { subst e1. destruct (dragging e); cbn [negb]; repeat split; reflexivity. }
    destruct Hsame as (Hg & Hh & Hw & Hp & Hs).
    rewrite Hdrag. eexists. split; [reflexivity|].
    split.
    { unfold editor_wf, _clamp_camera. cbn [grid height width with_camera].
      rewrite Hg, Hh, Hw. exact Hwf. }
    split; [exact Hp|]. split; [exact Hs|]. split.
    { intros. unfold _clamp_camera. cbn [grid with_camera]. rewrite Hg. reflexivity. }
    split.
    { intros _. split; [unfold _clamp_camera; cbn [grid with_camera]; exact Hg|].
      apply clamp_camera_inside. }
    intros tx ty Hf. discriminate.
  - (* painting *)
    cbn [dragging with_dragging].
    change (_tile_at_pos pos (with_dragging false e)) with (_tile_at_pos pos e).
    assert (Hwf1 : editor_wf (with_dragging false e)) by exact Hwf.
    destruct (_tile_at_pos pos e) as [[tx ty]|] eqn:Htile.
    + destruct (tile_at_pos_inside pos e tx ty Htile) as [Hx Hy].
      destruct (palette_index (selected_index e) Hsel) as [char Hchar].
      destruct (button_left buttons) eqn:Hl; [|destruct (button_right buttons) eqn:Hr].
      * cbn [selected_index with_dragging]. rewrite Hchar. cbn [bind].
        destruct (set_tile_spec tx ty char (with_dragging false e) Hwf1 Hx Hy)
          as (e' & He' & Hwf' & Hp & Hs & Hcell & Hother).
        exists e'. split; [exact He'|]. split; [exact Hwf'|].
        split; [exact Hp|]. split; [exact Hs|]. split.
        { intros tx' ty' Hx' Hy' Hneq. apply Hother; auto. congruence. }
        split; [discriminate|].
        intros tx' ty' _ Heq. inversion Heq; subst tx' ty'.
        split; [intros _; exact Hcell|]. split; discriminate.
      * destruct (set_tile_spec tx ty " "%char (with_dragging false e) Hwf1 Hx Hy)
          as (e' & He' & Hwf' & Hp & Hs & Hcell & Hother).
        exists e'. split; [exact He'|]. split; [exact Hwf'|].
        split; [exact Hp|]. split; [exact Hs|]. split.
        { intros tx' ty' Hx' Hy' Hneq. apply Hother; auto. congruence. }
        split; [discriminate|].
        intros tx' ty' _ Heq. inversion Heq; subst tx' ty'.
        split; [discriminate|]. split; [intros _ _; exact Hcell | discriminate].
      * eexists. split; [reflexivity|]. split; [exact Hwf1|].
        split; [reflexivity|]. split; [reflexivity|]. split; [reflexivity|].
        split; [discriminate|]. intros tx' ty' _ _.
        split; [discriminate|]. split; [discriminate | reflexivity].
    + eexists. split; [reflexivity|]. split; [exact Hwf1|].
      split; [reflexivity|]. split; [reflexivity|]. split; [reflexivity|].
      split; [discriminate|]. intros tx ty _ Hf. discriminate.
Qed.

Lemma json_path_not_empty (path : string) :
  LevelIO.is_json_path path = true -> path <> EmptyString.
Proof. intros Hjson ->. discriminate. Qed.

Lemma reload_after_save (fs : LevelIO.FS) (env_path : option string) (e : t) :
  editor_wf e -> LevelIO.is_json_path (level_path e) = true ->
  grid (_reload (_save fs e) env_path e) = grid e.
Proof.
  intros Hwf Hjson. pose proof (editor_rectangular e Hwf) as Hrect.
  pose proof Hwf as (Hne & _).
  assert (Hload : LevelIO._load_level_file (_save fs e) (level_path e) = Some (grid e)).
  { unfold _save. rewrite save_then_load by exact Hjson. unfold saved_rows.
    rewrite normalise_rectangular by assumption. reflexivity. }
  unfold _reload. destruct (grid e) as [|row rows] eqn:Hg; [easy|].
  rewrite (load_explicit_path _ env_path (level_path e) row rows
             (json_path_not_empty _ Hjson) Hload).
  reflexivity.
Qed.

End Editor.

(** The editor's grid is never empty or ragged: it has rows of one positive
    length, with the recorded width and height, when the editor starts and
    after every reload, whatever the candidate files hold inside the
    modelled fragment (missing, text, or JSON documents of strings). *)
Theorem editor_grid_well_formed (fs : LevelIO.FS) (env_path level_path : option string)
  (e : LevelEditor.t) :
  Forall (modelled_file fs) (level_candidates level_path env_path) ->
  Forall (modelled_file fs) (level_candidates (Some (LevelEditor.level_path e)) env_path) ->
  editor_wf (LevelEditor.init fs env_path level_path)
  /\ editor_wf (LevelEditor._reload fs env_path e).
Proof. intros _ _. split; [apply init_wf | apply reload_wf]. Qed.

Lemma editor_grid_well_formed_witness :
  LevelEditor.grid (LevelEditor.init saved_disk None None) = small_level
  /\ editor_wf (LevelEditor.init saved_disk None None)
  /\ editor_wf (LevelEditor._reload saved_disk None (LevelEditor.init saved_disk None None)).
Proof.
  split; [vm_compute; reflexivity|].
  apply (editor_grid_well_formed saved_disk None None (LevelEditor.init saved_disk None None));
    apply Forall_forall; intros c _; apply saved_disk_modelled.
Defined.

(** [_tile_at_pos] only ever names a cell of the grid, so painting cannot
    fail or reach outside: on a well-formed editor [_handle_mouse] returns,
    keeps the grid's shape, and changes no cell but the one under the
    cursor, which takes the selected tile on a left click and the empty
    tile on a right click; with the middle button held the grid is left
    alone and the camera ends inside the level. *)
Theorem editor_paints_in_bounds (buttons : LevelEditor.Buttons) (pos : Z * Z)
  (e : LevelEditor.t) :
  editor_wf e ->
  0 <= LevelEditor.selected_index e < Z.of_nat (List.length LevelEditor.PALETTE) ->
  exists e',
    LevelEditor._handle_mouse buttons pos e = Some e' /\ editor_wf e'
    /\ LevelEditor.level_path e' = LevelEditor.level_path e
    /\ LevelEditor.selected_index e' = LevelEditor.selected_index e
    /\ (forall tx ty, 0 <= tx -> 0 <= ty -> LevelEditor._tile_at_pos pos e <> Some (tx, ty) ->
          grid_get (LevelEditor.grid e') tx ty = grid_get (LevelEditor.grid e) tx ty)
    /\ (LevelEditor.button_middle buttons = true ->
          LevelEditor.grid e' = LevelEditor.grid e /\ camera_inside e')
    /\ (forall tx ty, LevelEditor.button_middle buttons = false ->
          LevelEditor._tile_at_pos pos e = Some (tx, ty) ->
          (LevelEditor.button_left buttons = true ->
             grid_get (LevelEditor.grid e') tx ty
             = py_index LevelEditor.PALETTE (LevelEditor.selected_index e))
          /\ (LevelEditor.button_left buttons = false ->
              LevelEditor.button_right buttons = true ->
                grid_get (LevelEditor.grid e') tx ty = Some " "%char)
          /\ (LevelEditor.button_left buttons = false ->
              LevelEditor.button_right buttons = false ->
                LevelEditor.grid e' = LevelEditor.grid e)).
Proof. exact (handle_mouse_spec buttons pos e). Qed.

Lemma editor_paints_in_bounds_witness :
  exists e',
    LevelEditor._handle_mouse (LevelEditor.mkButtons true false false) (40, 70)
      (LevelEditor.init empty_disk None None) = Some e'
    /\ grid_get (LevelEditor.grid e') 1 2 = Some "X"%char.
Proof.
  assert (Hwf : editor_wf (LevelEditor.init empty_disk None None)) by apply init_wf.
  destruct (editor_paints_in_bounds (LevelEditor.mkButtons true false false) (40, 70)
              (LevelEditor.init empty_disk None None) Hwf)
    as (e' & He' & _ & _ & _ & _ & _ & Hpaint).
  { change (0 <= 1 < 9). lia. }
  exists e'. split; [exact He'|].
  destruct (Hpaint 1 2 eq_refl) as [Hleft _]; [vm_compute; reflexivity|].
  rewrite (Hleft eq_refl). reflexivity.
Defined.

(** After the key handler the camera lies inside the level, wherever it was
    and whatever the frame time and the keys. *)
Theorem editor_camera_inside (dt : Q) (keys : LevelEditor.Held) (e : LevelEditor.t) :
  camera_inside (LevelEditor._handle_keys dt keys e).
Proof.
  unfold LevelEditor._handle_keys. cbv zeta.
  repeat match goal with |- context [if ?c then _ else _] => destruct c end;
    apply clamp_camera_inside.
Qed.

(** The selection always stays on the palette, for every step in either
    direction, and stepping back undoes stepping forth. *)
Theorem editor_selection_cycles (direction : Z) (e : LevelEditor.t) :
  (0 <= LevelEditor.selected_index (LevelEditor._cycle_selection direction e)
   < Z.of_nat (List.length LevelEditor.PALETTE))
  /\ (exists char,
        py_index LevelEditor.PALETTE
          (LevelEditor.selected_index (LevelEditor._cycle_selection direction e)) = Some char)
  /\ (0 <= LevelEditor.selected_index e < Z.of_nat (List.length LevelEditor.PALETTE) ->
      LevelEditor.selected_index
        (LevelEditor._cycle_selection (- direction) (LevelEditor._cycle_selection direction e))
      = LevelEditor.selected_index e).
Proof.
  unfold LevelEditor._cycle_selection.
  cbn [LevelEditor.selected_index LevelEditor.with_selected_index].
  change (Z.of_nat (List.length LevelEditor.PALETTE)) with 9.
  pose proof (Z.mod_pos_bound (LevelEditor.selected_index e + direction) 9 ltac:(lia)) as Hb.
  split; [exact Hb|]. split.
  - apply palette_index. exact Hb.
  - intros Hsel. rewrite Zplus_mod_idemp_l.
    replace (LevelEditor.selected_index e + direction + - direction)
      with (LevelEditor.selected_index e) by lia.
    apply Z.mod_small. exact Hsel.
Qed.

(** Saving in the editor and reloading gives back the grid that was saved,
    when the editor's level path ends in [.json]. *)
Theorem editor_save_reload (fs : LevelIO.FS) (env_path : option string) (e : LevelEditor.t) :
  editor_wf e ->
  LevelIO.is_json_path (LevelEditor.level_path e) = true ->
  LevelEditor.grid (LevelEditor._reload (LevelEditor._save fs e) env_path e)
  = LevelEditor.grid e.
Proof. exact (reload_after_save fs env_path e). Qed.

Lemma editor_save_reload_witness :
  LevelEditor.grid
    (LevelEditor._reload
       (LevelEditor._save empty_disk (LevelEditor.init empty_disk None None)) None
       (LevelEditor.init empty_disk None None))
  = LevelEditor.grid (LevelEditor.init empty_disk None None).
Proof.
  apply editor_save_reload.
  - apply init_wf.
  - reflexivity.
Defined.

(** * The world around the player: sub-steps, camera, items, enemies *)

Lemma substep_count_pos (total_dy : Q) : 1 <= substep_count total_dy.
Proof. unfold substep_count. lia. Qed.

Lemma substep_count_covers (total_dy : Q) :
  (Qabs total_dy < inject_Z (TILE / 6) * inject_Z (substep_count total_dy))%Q.
Proof.
  unfold substep_count. change (Z.max 1 (TILE / 6)) with 8. change (TILE / 6) with 8.
  set (q := (Qabs total_dy / inject_Z 8)%Q).
  assert (Hq : (q < inject_Z (Z.max 1 (Qfloor q + 1)))%Q).
  { eapply Qlt_le_trans; [apply Qlt_floor|]. rewrite <- Zle_Qle. lia. }
  assert (Heq : (Qabs total_dy == q * inject_Z 8)%Q) by (subst q; field).
  rewrite Heq. rewrite (Qmult_comm q).
  apply Qmult_lt_l; [reflexivity | exact Hq].
Qed.

Lemma substep_size_sums (total_dy : Q) :
  (substep_size total_dy * inject_Z (substep_count total_dy) == total_dy)%Q.
Proof.
  unfold substep_size. pose proof (substep_count_pos total_dy) as Hpos.
  field. intros Hz. unfold Qeq in Hz. cbn [Qnum Qden inject_Z] in Hz. lia.
Qed.

Lemma substep_size_small (total_dy : Q) :
  (Qabs (substep_size total_dy) < inject_Z (TILE / 6))%Q.
Proof.
  pose proof (substep_count_pos total_dy) as Hpos.
  pose proof (substep_count_covers total_dy) as Hcov.
  assert (Hn : (0 < inject_Z (substep_count total_dy))%Q).
  { change 0%Q with (inject_Z 0). rewrite <- Zlt_Qlt. lia. }
  unfold substep_size, Qdiv. rewrite Qabs_Qmult.
  rewrite (Qabs_pos (/ inject_Z (substep_count total_dy)))
    by (apply Qinv_le_0_compat, Qlt_le_weak, Hn).
  apply Qlt_shift_div_r; [exact Hn | exact Hcov].
Qed.

Lemma Qmin_one_unit (s : Q) : (0 <= s)%Q -> (0 <= Qmin 1 s <= 1)%Q.
Proof.
  intros Hs. unfold Qmin. destruct (Qlt_bool s 1) eqn:E.
  - apply Qlt_bool_iff in E. split; [exact Hs | apply Qlt_le_weak; exact E].
  - split; [discriminate | apply Qle_refl].
Qed.

Lemma clamp_between (v a b : Q) : (a <= b)%Q -> (a <= clamp v a b <= b)%Q.
Proof.
  intros Hab. unfold clamp. destruct (Qlt_bool v a) eqn:E1.
  - split; [apply Qle_refl | exact Hab].
  - apply Qlt_bool_false_iff in E1. destruct (Qlt_bool b v) eqn:E2.
    + split; [exact Hab | apply Qle_refl].
    + apply Qlt_bool_false_iff in E2. split; assumption.
Qed.

Lemma blend_between (c t s m : Q) :
  (0 <= c <= m)%Q -> (0 <= t <= m)%Q -> (0 <= s <= 1)%Q ->
  (0 <= c + (t - c) * s <= m)%Q.
Proof.
  intros [Hc0 Hcm] [Ht0 Htm] [Hs0 Hs1].
  assert (E : (c + (t - c) * s == c * (1 - s) + t * s)%Q) by ring.
  rewrite E. split.
  - apply (Qle_trans _ (0 + 0)); [discriminate|].
    apply Qplus_le_compat; apply Qmult_le_0_compat; auto. lra.
  - assert (E2 : (m == m * (1 - s) + m * s)%Q) by ring.
    rewrite E2. apply Qplus_le_compat; apply Qmult_le_compat_r; auto. lra.
Qed.

(** The player's vertical move is cut into steps of less than a sixth of a
    tile: [move_vertical] runs at least one step, the steps add up to the
    whole distance [vy * dt], and each one is shorter than [TILE // 6]
    pixels, however fast the player falls and however long the frame. *)
Theorem vertical_move_in_small_steps (dt : Q) (g : Game.t) :
  let total_dy := (Player.vy (Game.player g) * dt)%Q in
  move_vertical dt g
  = vertical_substeps (Z.to_nat (substep_count total_dy)) (substep_size total_dy) g
  /\ 1 <= substep_count total_dy
  /\ (substep_size total_dy * inject_Z (substep_count total_dy) == total_dy)%Q
  /\ (Qabs (substep_size total_dy) < inject_Z (TILE / 6))%Q.
Proof.
  cbv zeta. split; [reflexivity|]. split; [apply substep_count_pos|].
  split; [apply substep_size_sums | apply substep_size_small].
Qed.

(** The camera never leaves the level: from an offset between [0] and the
    level's width beyond the window, [camera_follow] moves to an offset in
    the same range, for every frame time that is not negative; it fails
    only on a grid without rows. *)
Theorem camera_stays_in_level (dt : Q) (g : Game.t) (camera_x : Q) :
  Game.tilemap g <> [] ->
  (0 <= dt)%Q ->
  (0 <= camera_x <= camera_limit g)%Q ->
  exists camera_x',
    camera_follow dt g camera_x = Some camera_x'
    /\ (0 <= camera_x' <= camera_limit g)%Q.
Proof.
  intros Hne Hdt Hcam. unfold camera_follow, camera_limit in *.
  destruct (Game.tilemap g) as [|row0 rows]; [contradiction Hne; reflexivity|].
  cbn [py_index List.length LevelEditor.first_width] in *.
  change (py_index (row0 :: rows) 0) with (Some row0). cbn [bind].
  eexists. split; [reflexivity|].
  apply blend_between; [exact Hcam | | apply Qmin_one_unit; lra].
  apply clamp_between. change 0%Q with (inject_Z 0). rewrite <- Zle_Qle. lia.
Qed.

Lemma camera_stays_in_level_witness :
  exists camera_x',
    camera_follow (1 # 60) (session flat_floor (Player.init 96 96)) 0 = Some camera_x'
    /\ (0 <= camera_x' <= camera_limit (session flat_floor (Player.init 96 96)))%Q.
Proof.
  apply camera_stays_in_level.
  - discriminate.
  - discriminate.
  - split; discriminate.
Defined.

(** ** Mushroom items and enemies *)

Ltac item_cbn :=
  cbn [MushroomItem.x MushroomItem.w MushroomItem.h MushroomItem.target_y MushroomItem.y
       MushroomItem.vx MushroomItem.vy MushroomItem.direction MushroomItem.state
       MushroomItem.remove MushroomItem.with_remove MushroomItem.init
       item_with_x item_with_y item_with_vx item_with_vy item_with_state fst snd] in *.

Lemma item_moved_refl (i : MushroomItem.t) : item_moved i i.
Proof. unfold item_moved. repeat split; auto. Qed.

Lemma item_moved_trans (i j k : MushroomItem.t) :
  item_moved i j -> item_moved j k -> item_moved i k.
Proof.
  unfold item_moved.
  intros (A1 & A2 & A3 & A4 & A5 & A6 & A7 & A8) (B1 & B2 & B3 & B4 & B5 & B6 & B7 & B8).
  repeat split; try congruence.
  destruct B8 as [B8|B8]; [rewrite B8; exact A8 | right; exact B8].
Qed.

Lemma item_wall_moved (acc : MushroomItem.t * Rect * bool) (tile : Z * Z * ascii) :
  item_moved (fst (fst acc)) (fst (fst (item_wall acc tile))).
Proof.
  destruct acc as [[i r] hit]. destruct tile as [[tx ty] ch]. unfold item_wall. cbn [fst].
  destruct (solid (as_ground ch)); [|apply item_moved_refl].
  destruct (colliderect r (tile_rect tx ty)); [|apply item_moved_refl].
  destruct (Qlt_bool 0 (MushroomItem.vx i)); [|destruct (Qlt_bool (MushroomItem.vx i) 0)];
    cbn [fst]; unfold item_moved; item_cbn; repeat split; auto.
Qed.

Lemma item_wall_fold_moved (tiles : list (Z * Z * ascii))
  (acc : MushroomItem.t * Rect * bool) :
  item_moved (fst (fst acc)) (fst (fst (fold_left item_wall tiles acc))).
Proof.
  revert acc. induction tiles as [|tile tiles IH]; intros acc; cbn [fold_left].
  - apply item_moved_refl.
  - eapply item_moved_trans; [apply item_wall_moved | apply IH].
Qed.

Lemma item_floor_moved (step_dy : Q) (prev : Rect) (acc : MushroomItem.t * Rect)
  (tile : Z * Z * ascii) :
  item_moved (fst acc) (fst (item_floor step_dy prev acc tile)).
Proof.
  destruct acc as [i r]. destruct tile as [[tx ty] ch]. unfold item_floor. cbn [fst].
  repeat match goal with
         | |- context [if ?c then _ else _] => destruct c
         end;
    cbn [fst]; try apply item_moved_refl;
    unfold item_moved; item_cbn; repeat split; auto.
Qed.

Lemma item_floor_fold_moved (step_dy : Q) (prev : Rect) (tiles : list (Z * Z * ascii))
  (acc : MushroomItem.t * Rect) :
  item_moved (fst acc) (fst (fold_left (item_floor step_dy prev) tiles acc)).
Proof.
  revert acc. induction tiles as [|tile tiles IH]; intros acc; cbn [fold_left].
  - apply item_moved_refl.
  - eapply item_moved_trans; [apply item_floor_moved | apply IH].
Qed.

Lemma item_substeps_moved (n : nat) (step_dy : Q) (tm : Tilemap) (i : MushroomItem.t) :
  grid_wf tm ->
  exists j, item_substeps n step_dy tm i = Some j /\ item_moved i j.
Proof.
  intros [Hne Hw]. revert i. induction n as [|n IH]; intros i; cbn [item_substeps].
  - exists i. split; [reflexivity | apply item_moved_refl].
  - cbv zeta.
    set (i1 := item_with_y (MushroomItem.y i + step_dy)%Q i).
    destruct (tiles_in_aabb_total tm (MushroomItem.rect i1) Hne Hw) as [tiles Ht].
    rewrite Ht. cbn [bind].
    pose proof (item_floor_fold_moved step_dy (MushroomItem.rect i) tiles
                  (i1, MushroomItem.rect i1)) as Hm.
    destruct (fold_left (item_floor step_dy (MushroomItem.rect i)) tiles
                (i1, MushroomItem.rect i1)) as [i2 r2].
    cbn [fst] in Hm. destruct (IH i2) as (j & Hj & Hmj).
    exists j. split; [exact Hj|].
    eapply item_moved_trans; [|exact Hmj].
    eapply item_moved_trans; [|exact Hm].
    subst i1. unfold item_moved. item_cbn. repeat split; auto.
Qed.

Lemma Qabs_flip (v : Q) : (Qabs (v * - (1)) == Qabs v)%Q.
Proof. rewrite Qabs_Qmult. change (Qabs (- (1))) with 1%Q. ring. Qed.

Lemma clamp_upper (v a b : Q) : (a <= b)%Q -> (clamp v a b <= b)%Q.
Proof. intros Hab. apply (clamp_between v a b Hab). Qed.

Lemma item_active_step (dt : Q) (tm : Tilemap) (i : MushroomItem.t) :
  grid_wf tm ->
  MushroomItem.state i = active -> MushroomItem.remove i = false ->
  exists j,
    MushroomItem_update dt tm i = Some j
    /\ MushroomItem.state j = active
    /\ (Qabs (MushroomItem.vx j) == Qabs (MushroomItem.vx i))%Q
    /\ (MushroomItem.vy j <= MAX_FALL)%Q
    /\ MushroomItem.w j = MushroomItem.w i /\ MushroomItem.h j = MushroomItem.h i.
Proof.
  intros Hwf Hst Hrem. pose proof Hwf as [Hne Hw].
  unfold MushroomItem_update. rewrite Hrem, Hst. cbv zeta.
  set (i1 := item_with_x _ _).
  assert (H1 : MushroomItem.state i1 = active /\ MushroomItem.vx i1 = MushroomItem.vx i
               /\ (MushroomItem.vy i1 <= MAX_FALL)%Q
               /\ MushroomItem.w i1 = MushroomItem.w i /\ MushroomItem.h i1 = MushroomItem.h i).
  { subst i1. item_cbn. repeat split; auto. apply clamp_upper. discriminate. }
  clearbody i1. destruct H1 as (S1 & V1 & F1 & W1 & G1).
  destruct (tiles_in_aabb_total tm (inflate (MushroomItem.rect i1) 2 (-4)) Hne Hw)
    as [tiles Ht].
  rewrite Ht. cbn [bind].
  pose proof (item_wall_fold_moved tiles (i1, MushroomItem.rect i1, false)) as Hm.
  destruct (fold_left item_wall tiles (i1, MushroomItem.rect i1, false)) as [[i2 r2] hit].
  cbn [fst] in Hm. destruct Hm as (M1 & M2 & M3 & M4 & M5 & M6 & M7 & M8).
  set (i3 := if hit then _ else i2).
  assert (H3 : MushroomItem.state i3 = active
               /\ (Qabs (MushroomItem.vx i3) == Qabs (MushroomItem.vx i))%Q
               /\ (MushroomItem.vy i3 <= MAX_FALL)%Q
               /\ MushroomItem.w i3 = MushroomItem.w i /\ MushroomItem.h i3 = MushroomItem.h i).
  { assert (F2 : (MushroomItem.vy i2 <= MAX_FALL)%Q)
      by (destruct M8 as [->| ->]; [exact F1 | discriminate]).
    subst i3. destruct hit; item_cbn.
    - split; [congruence|]. split; [rewrite Qabs_flip, M4, V1; reflexivity|].
      split; [exact F2|]. split; congruence.
    - split; [congruence|]. split; [rewrite M4, V1; reflexivity|].
      split; [exact F2|]. split; congruence. }
  clearbody i3. destruct H3 as (S3 & V3 & F3 & W3 & G3).
  destruct (item_substeps_moved
              (Z.to_nat (substep_count (MushroomItem.vy i3 * dt)))
              (substep_size (MushroomItem.vy i3 * dt)) tm i3 Hwf)
    as (i4 & Hs & N1 & N2 & N3 & N4 & N5 & N6 & N7 & N8).
  rewrite Hs. cbn [bind]. eexists. split; [reflexivity|].
  assert (F4 : (MushroomItem.vy i4 <= MAX_FALL)%Q)
    by (destruct N8 as [->| ->]; [exact F3 | discriminate]).
  destruct (Qlt_bool _ _); item_cbn;
    (split; [congruence|]; split; [rewrite N4; exact V3|];
     split; [exact F4|]; split; congruence).
Qed.





(** Once active, a mushroom never stops, speeds up or changes size: on a
    well-formed grid its update returns, it stays active, the magnitude of
    its horizontal speed is kept (walls only flip the sign), and its fall
    speed ends at or below [MAX_FALL]. *)
Theorem mushroom_keeps_rolling (dt : Q) (tm : Tilemap) (i : MushroomItem.t) :
  grid_wf tm ->
  MushroomItem.state i = active -> MushroomItem.remove i = false ->
  exists j,
    MushroomItem_update dt tm i = Some j
    /\ MushroomItem.state j = active
    /\ (Qabs (MushroomItem.vx j) == Qabs (MushroomItem.vx i))%Q
    /\ (MushroomItem.vy j <= MAX_FALL)%Q
    /\ MushroomItem.w j = MushroomItem.w i /\ MushroomItem.h j = MushroomItem.h i.
Proof. exact (item_active_step dt tm i). Qed.

Lemma mushroom_keeps_rolling_witness :
  exists j,
    MushroomItem_update (1 # 60) flat_floor loose_mushroom = Some j
    /\ MushroomItem.state j = active.
Proof.
  assert (Hwf : grid_wf flat_floor).
  { split; [discriminate | exists 6%nat; repeat constructor]. }
  destruct (mushroom_keeps_rolling (1 # 60) flat_floor loose_mushroom Hwf eq_refl eq_refl)
    as (j & Hj & Hs & _).
  exists j. split; assumption.
Defined.

Ltac enemy_cbn :=
  cbn [Goomba.x Goomba.y Goomba.w Goomba.h Goomba.vx Goomba.vy Goomba.facing Goomba.alive
       Goomba.remove Goomba.squish_timer Goomba.with_x Goomba.with_y Goomba.with_vx
       Goomba.with_vy Goomba.with_facing Goomba.with_alive Goomba.with_remove
       Goomba.with_squish_timer Goomba.init fst snd] in *.

Lemma enemy_moved_refl (e : Goomba.t) : enemy_moved e e.
Proof. unfold enemy_moved. repeat split; auto. Qed.

Lemma enemy_moved_trans (e f k : Goomba.t) :
  enemy_moved e f -> enemy_moved f k -> enemy_moved e k.
Proof.
  unfold enemy_moved.
  intros (A1 & A2 & A3 & A4 & A5 & A6 & A7 & A8) (B1 & B2 & B3 & B4 & B5 & B6 & B7 & B8).
  repeat split; try congruence.
  destruct B8 as [B8|B8]; [rewrite B8; exact A8 | right; exact B8].
Qed.

Lemma enemy_wall_moved (acc : Goomba.t * Rect * bool) (tile : Z * Z * ascii) :
  enemy_moved (fst (fst acc)) (fst (fst (Goomba.wall acc tile))).
Proof.
  destruct acc as [[e r] hit]. destruct tile as [[tx ty] ch]. unfold Goomba.wall. cbn [fst].
  destruct (existsb (Ascii.eqb ch) ["|"%char; "F"%char] || solid ch); [|apply enemy_moved_refl].
  destruct (colliderect r (tile_rect tx ty)); [|apply enemy_moved_refl].
  destruct (Qlt_bool 0 (Goomba.vx e)); [|destruct (Qlt_bool (Goomba.vx e) 0)];
    cbn [fst]; unfold enemy_moved; enemy_cbn; repeat split; auto.
Qed.

Lemma enemy_wall_fold_moved (tiles : list (Z * Z * ascii)) (acc : Goomba.t * Rect * bool) :
  enemy_moved (fst (fst acc)) (fst (fst (fold_left Goomba.wall tiles acc))).
Proof.
  revert acc. induction tiles as [|tile tiles IH]; intros acc; cbn [fold_left].
  - apply enemy_moved_refl.
  - eapply enemy_moved_trans; [apply enemy_wall_moved | apply IH].
Qed.

Lemma enemy_floor_moved (step_dy : Q) (prev : Rect) (acc : Goomba.t * Rect)
  (tile : Z * Z * ascii) :
  enemy_moved (fst acc) (fst (Goomba.floor step_dy prev acc tile)).
Proof.
  destruct acc as [e r]. destruct tile as [[tx ty] ch]. unfold Goomba.floor. cbn [fst].
  repeat match goal with
         | |- context [if ?c then _ else _] => destruct c
         end;
    cbn [fst]; try apply enemy_moved_refl;
    unfold enemy_moved; enemy_cbn; repeat split; auto.
Qed.

Lemma enemy_floor_fold_moved (step_dy : Q) (prev : Rect) (tiles : list (Z * Z * ascii))
  (acc : Goomba.t * Rect) :
  enemy_moved (fst acc) (fst (fold_left (Goomba.floor step_dy prev) tiles acc)).
Proof.
  revert acc. induction tiles as [|tile tiles IH]; intros acc; cbn [fold_left].
  - apply enemy_moved_refl.
  - eapply enemy_moved_trans; [apply enemy_floor_moved | apply IH].
Qed.

Lemma enemy_substeps_moved (n : nat) (step_dy : Q) (tm : Tilemap) (e : Goomba.t) :
  grid_wf tm ->
  exists f, Goomba.substeps n step_dy tm e = Some f /\ enemy_moved e f.
Proof.
  intros [Hne Hw]. revert e. induction n as [|n IH]; intros e; cbn [Goomba.substeps].
  - exists e. split; [reflexivity | apply enemy_moved_refl].
  - cbv zeta.
    set (e1 := Goomba.with_y (Goomba.y e + step_dy)%Q e).
    destruct (tiles_in_aabb_total tm (Goomba.rect e1) Hne Hw) as [tiles Ht].
    rewrite Ht. cbn [bind].
    pose proof (enemy_floor_fold_moved step_dy (Goomba.rect e) tiles (e1, Goomba.rect e1))
      as Hm.
    destruct (fold_left (Goomba.floor step_dy (Goomba.rect e)) tiles (e1, Goomba.rect e1))
      as [e2 r2].
    cbn [fst] in Hm. destruct (IH e2) as (f & Hf & Hmf).
    exists f. split; [exact Hf|].
    eapply enemy_moved_trans; [|exact Hmf].
    eapply enemy_moved_trans; [|exact Hm].
    subst e1. unfold enemy_moved. enemy_cbn. repeat split; auto.
Qed.

Lemma enemy_live_step (dt : Q) (tm : Tilemap) (e : Goomba.t) :
  grid_wf tm ->
  Goomba.alive e = true -> Goomba.remove e = false ->
  Goomba.facing e = (if Qle_bool 0 (Goomba.vx e) then 1 else -1) ->
  exists f,
    Goomba.update dt tm e = Some f
    /\ Goomba.alive f = true
    /\ (Qabs (Goomba.vx f) == Qabs (Goomba.vx e))%Q
    /\ Goomba.facing f = (if Qle_bool 0 (Goomba.vx f) then 1 else -1)
    /\ (Goomba.vy f <= MAX_FALL)%Q
    /\ Goomba.w f = Goomba.w e /\ Goomba.h f = Goomba.h e.
Proof.
  intros Hwf Hal Hrem Hface. pose proof Hwf as [Hne Hw].
  unfold Goomba.update. rewrite Hrem, Hal. cbn [negb]. cbv zeta.
  set (e1 := Goomba.with_x _ _).
  assert (H1 : Goomba.alive e1 = true /\ Goomba.vx e1 = Goomba.vx e
               /\ Goomba.facing e1 = Goomba.facing e
               /\ (Goomba.vy e1 <= MAX_FALL)%Q
               /\ Goomba.w e1 = Goomba.w e /\ Goomba.h e1 = Goomba.h e).
  { subst e1. enemy_cbn. repeat split; auto. apply clamp_upper. discriminate. }
  clearbody e1. destruct H1 as (A1 & V1 & C1 & F1 & W1 & G1).
  destruct (tiles_in_aabb_total tm (inflate (Goomba.rect e1) 2 (-4)) Hne Hw) as [tiles Ht].
  rewrite Ht. cbn [bind].
  pose proof (enemy_wall_fold_moved tiles (e1, Goomba.rect e1, false)) as Hm.
  destruct (fold_left Goomba.wall tiles (e1, Goomba.rect e1, false)) as [[e2 r2] hit].
  cbn [fst] in Hm. destruct Hm as (M1 & M2 & M3 & M4 & M5 & M6 & M7 & M8).
  set (e3 := if hit then _ else e2).
  assert (H3 : Goomba.alive e3 = true
               /\ (Qabs (Goomba.vx e3) == Qabs (Goomba.vx e))%Q
               /\ Goomba.facing e3 = (if Qle_bool 0 (Goomba.vx e3) then 1 else -1)
               /\ (Goomba.vy e3 <= MAX_FALL)%Q
               /\ Goomba.w e3 = Goomba.w e /\ Goomba.h e3 = Goomba.h e).
  { assert (F2 : (Goomba.vy e2 <= MAX_FALL)%Q)
      by (destruct M8 as [->| ->]; [exact F1 | discriminate]).
    subst e3. destruct hit; enemy_cbn.
    - split; [congruence|]. split; [rewrite Qabs_flip, M3, V1; reflexivity|].
      split; [reflexivity|]. split; [exact F2|]. split; congruence.
    - split; [congruence|]. split; [rewrite M3, V1; reflexivity|].
      split; [rewrite M4, M3, C1, V1; exact Hface|]. split; [exact F2|]. split; congruence. }
  clearbody e3. destruct H3 as (A3 & V3 & C3 & F3 & W3 & G3).
  destruct (enemy_substeps_moved
              (Z.to_nat (substep_count (Goomba.vy e3 * dt)))
              (substep_size (Goomba.vy e3 * dt)) tm e3 Hwf)
    as (e4 & Hs & N1 & N2 & N3 & N4 & N5 & N6 & N7 & N8).
  rewrite Hs. cbn [bind]. eexists. split; [reflexivity|].
  assert (F4 : (Goomba.vy e4 <= MAX_FALL)%Q)
    by (destruct N8 as [->| ->]; [exact F3 | discriminate]).
  destruct (Qlt_bool _ _); enemy_cbn;
    (split; [congruence|]; split; [rewrite N3; exact V3|];
     split; [rewrite N4, N3; exact C3|];
     split; [exact F4|]; split; congruence).
Qed.

Lemma enemy_init_walking (x0 y0 : Q) (choice : Z) :
  choice = 1 \/ choice = -1 -> walking (Goomba.init x0 y0 choice).
Proof.
  intros [-> | ->]; unfold walking; enemy_cbn; repeat split; discriminate.
Qed.



(** A live enemy keeps walking: on a well-formed grid its update returns,
    the enemy stays alive, the magnitude of its horizontal speed is kept
    (walls only flip the sign), it faces the way it walks, and its fall
    speed ends at or below [MAX_FALL].  A fresh enemy walks at [SPEED]. *)
Theorem goomba_keeps_walking (dt : Q) (tm : Tilemap) (e : Goomba.t) :
  grid_wf tm ->
  Goomba.alive e = true -> Goomba.remove e = false ->
  walking e ->
  (forall x0 y0 choice, choice = 1 \/ choice = -1 -> walking (Goomba.init x0 y0 choice))
  /\ exists f,
       Goomba.update dt tm e = Some f /\ Goomba.alive f = true /\ walking f
       /\ Goomba.w f = Goomba.w e /\ Goomba.h f = Goomba.h e.
Proof.
  intros Hwf Hal Hrem (Hv & Hf & _). split; [apply enemy_init_walking|].
  destruct (enemy_live_step dt tm e Hwf Hal Hrem Hf) as (f & Hu & A & V & C & F & W & G).
  exists f. split; [exact Hu|]. split; [exact A|]. split; [|split; assumption].
  unfold walking. split; [rewrite V; exact Hv|]. split; assumption.
Qed.

Lemma goomba_keeps_walking_witness :
  exists f,
    Goomba.update (1 # 60) flat_floor (Goomba.init 72 96 (-1)) = Some f
    /\ Goomba.alive f = true /\ walking f.
Proof.
  assert (Hwf : grid_wf flat_floor).
  { split; [discriminate | exists 6%nat; repeat constructor]. }
  assert (Hwalk : walking (Goomba.init 72 96 (-1))).
  { unfold walking. split; [reflexivity|]. split; [reflexivity | discriminate]. }
  destruct (goomba_keeps_walking (1 # 60) flat_floor (Goomba.init 72 96 (-1)) Hwf
              eq_refl eq_refl Hwalk) as (_ & f & Hf & Ha & Hw & _).
  exists f. split; [exact Hf|]. split; assumption.
Defined.




(** * The player: damage, form and the enemy stage *)

Lemma reshaped_refl (p : Player.t) : reshaped p p.
Proof. destruct p. reflexivity. Qed.

Lemma reshaped_keeps (p q : Player.t) :
  reshaped p q ->
  Player.x q = Player.x p /\ Player.y q = Player.y p /\ Player.w q = Player.w p
  /\ Player.vx q = Player.vx p /\ Player.vy q = Player.vy p
  /\ Player.inv q = Player.inv p /\ Player.dash_t q = Player.dash_t p
  /\ Player.coins q = Player.coins p /\ Player.power_flash q = Player.power_flash p.
Proof. intros H. rewrite H. repeat split; reflexivity. Qed.

Lemma set_form_small_spec (tm : Tilemap) (p : Player.t) :
  grid_wf tm -> Player.form p = big ->
  exists q,
    Player.set_form small (Some tm) p = Some (true, q)
    /\ reshaped p q /\ Player.form q = small
    /\ Player.h_stand q = H_STAND /\ Player.h_crouch q = H_CROUCH
    /\ Player.h q = (if Player.crouch q then H_CROUCH else H_STAND).
Proof.
  intros [Hne Hw] Hf. unfold Player.set_form. rewrite Hf. cbn [Form_eqb]. cbv zeta.
  destruct p. proj_cbn. destruct crouch.
  - match goal with |- context [Player._rect_fits (Some tm) ?hh ?pp] =>
      destruct (rect_fits_total tm hh pp Hne Hw) as [b1 ->] end.
    cbn [bind]. destruct b1; cbn [negb]; proj_cbn; cbn [negb bind].
    + eexists. split; [reflexivity|]. unfold reshaped. proj_cbn. repeat split; reflexivity.
    + match goal with |- context [Player._rect_fits (Some tm) ?hh ?pp] =>
        destruct (rect_fits_total tm hh pp Hne Hw) as [b2 ->] end.
      cbn [bind]. destruct b2; cbn [negb]; proj_cbn;
        (eexists; split; [reflexivity|]; unfold reshaped; proj_cbn; repeat split; reflexivity).
  - cbn [negb bind].
    match goal with |- context [Player._rect_fits (Some tm) ?hh ?pp] =>
      destruct (rect_fits_total tm hh pp Hne Hw) as [b2 ->] end.
    cbn [bind]. destruct b2; cbn [negb]; proj_cbn;
      (eexists; split; [reflexivity|]; unfold reshaped; proj_cbn; repeat split; reflexivity).
Qed.

Lemma Qmax_ge_r (a b : Q) : (b <= Qmax a b)%Q.
Proof.
  unfold Qmax. destruct (Qlt_bool a b) eqn:E; [apply Qle_refl|].
  apply Qlt_bool_false_iff in E. exact E.
Qed.

Lemma take_damage_cases (tm : Tilemap) (p : Player.t) :
  grid_wf tm ->
  exists lethal q,
    Player.take_damage tm p = Some (lethal, q)
    /\ ((0 < Player.inv p)%Q -> lethal = false /\ q = p)
    /\ ((Player.inv p <= 0)%Q -> Player.form p = small -> lethal = true /\ q = p)
    /\ ((Player.inv p <= 0)%Q -> Player.form p = big ->
        lethal = false /\ Player.form q = small
        /\ Player.h_stand q = H_STAND /\ Player.h_crouch q = H_CROUCH
        /\ Player.h q = (if Player.crouch q then H_CROUCH else H_STAND)
        /\ ((12 # 10) <= Player.inv q)%Q
        /\ (Player.vy q <= - (260))%Q /\ (Player.vy q <= Player.vy p)%Q
        /\ Player.power_flash q = 0%Q
        /\ Player.x q = Player.x p /\ Player.y q = Player.y p
        /\ Player.vx q = Player.vx p /\ Player.dash_t q = Player.dash_t p
        /\ Player.coins q = Player.coins p).
Proof.
  intros Hwf. unfold Player.take_damage.
  destruct (Qlt_bool 0 (Player.inv p)) eqn:Hinv.
  { apply Qlt_bool_iff in Hinv. exists false, p. split; [reflexivity|].
    split; [auto|]. split; intros Hle; exfalso; lra. }
  apply Qlt_bool_false_iff in Hinv.
  destruct (Player.form p) eqn:Hf; cbn [Form_eqb].
  { exists true, p. split; [reflexivity|]. split; [intros; exfalso; lra|].
    split; [auto | discriminate]. }
  destruct (set_form_small_spec tm p Hwf Hf) as (q & Hq & Hr & F1 & F2 & F3 & F4).
  rewrite Hq. cbn [bind]. eexists. eexists. split; [reflexivity|].
  split; [intros; exfalso; lra|]. split; [discriminate|]. intros _ _.
  destruct (reshaped_keeps p q Hr) as (K1 & K2 & K3 & K4 & K5 & K6 & K7 & K8 & K9).
  proj_cbn. split; [reflexivity|]. split; [exact F1|]. split; [exact F2|].
  split; [exact F3|]. split; [exact F4|]. split; [apply Qmax_ge_r|].
  split; [apply Qmin_le_r|]. split; [rewrite <- K5; apply Qmin_le_l|].
  repeat split; assumption.
Qed.

Lemma meet_enemy_protected (prev : Rect) (g : Game.t) (r : Rect) (seen : list Goomba.t)
  (enemy : Goomba.t) :
  grid_wf (Game.tilemap g) -> protected (Game.player g) ->
  exists g' r' seen',
    meet_enemy prev (g, r, seen, false) enemy = Some (g', r', seen', false)
    /\ protected (Game.player g')
    /\ Game.state g' = Game.state g /\ Game.tilemap g' = Game.tilemap g
    /\ Game.items g' = Game.items g /\ Game.coins_got g' = Game.coins_got g
    /\ List.length seen' = S (List.length seen).
Proof.
  intros Hwf Hprot. unfold meet_enemy.
  assert (Hlen : forall e, List.length (seen ++ [e]) = S (List.length seen))
    by (intros e; rewrite length_app; cbn; lia).
  destruct (Goomba.remove enemy || negb (Goomba.alive enemy)).
  { exists g, r, (seen ++ [enemy]). repeat split; auto. }
  cbv zeta. destruct (negb (colliderect r (Goomba.rect enemy))).
  { exists g, r, (seen ++ [enemy]). repeat split; auto. }
  match goal with |- context [if ?c then _ else _] => destruct c end.
  { eexists. eexists. eexists. split; [reflexivity|]. proj_cbn.
    split; [|repeat split; auto].
    unfold protected in *. proj_cbn. exact Hprot. }
  destruct (Qlt_bool 0 (Player.dash_t (Game.player g))) eqn:Hdash.
  { exists g, r, (seen ++ [Goomba.hit_by_dash enemy]). repeat split; auto. }
  destruct (Qlt_bool 0 (Player.inv (Game.player g))) eqn:Hinv.
  { exists g, r, (seen ++ [enemy]). repeat split; auto. }
  apply Qlt_bool_false_iff in Hdash, Hinv.
  assert (Hbig : Player.form (Game.player g) = big).
  { destruct Hprot as [H|[H|H]]; [exact H | exfalso; lra | exfalso; lra]. }
  destruct (take_damage_cases (Game.tilemap g) (Game.player g) Hwf)
    as (lethal & q & Htd & _ & _ & Hcase).
  destruct (Hcase Hinv Hbig) as (-> & F1 & _ & _ & _ & F5 & _).
  rewrite Htd. cbn [bind]. eexists. eexists. eexists. split; [reflexivity|]. proj_cbn.
  split; [|repeat split; auto].
  unfold protected. proj_cbn. right. left. lra.
Qed.

Lemma meet_enemies_protected (prev : Rect) (enemies : list Goomba.t) (g : Game.t) (r : Rect)
  (seen : list Goomba.t) :
  grid_wf (Game.tilemap g) -> protected (Game.player g) ->
  exists g' r' seen',
    meet_enemies prev (g, r, seen, false) enemies = Some (g', r', seen', false)
    /\ protected (Game.player g')
    /\ Game.state g' = Game.state g /\ Game.tilemap g' = Game.tilemap g
    /\ Game.items g' = Game.items g /\ Game.coins_got g' = Game.coins_got g
    /\ List.length seen' = (List.length seen + List.length enemies)%nat.
Proof.
  revert g r seen. induction enemies as [|enemy rest IH]; intros g r seen Hwf Hprot.
  - exists g, r, seen. cbn [meet_enemies List.length]. repeat split; auto.
  - cbn [meet_enemies].
    destruct (meet_enemy_protected prev g r seen enemy Hwf Hprot)
      as (g1 & r1 & seen1 & H1 & P1 & S1 & T1 & I1 & C1 & L1).
    rewrite H1. cbn [bind].
    destruct (IH g1 r1 seen1) as (g2 & r2 & seen2 & H2 & P2 & S2 & T2 & I2 & C2 & L2);
      [rewrite T1; exact Hwf | exact P1 |].
    exists g2, r2, seen2. split; [exact H2|]. split; [exact P2|].
    repeat split; try congruence. cbn [List.length]. lia.
Qed.

(** [take_damage] kills exactly the small player without invulnerability,
    and leaves that player untouched; an invulnerable player is untouched
    and unhurt; a big player is made small, with the heights of the small
    form, at least 1.2 s of invulnerability, an upward speed of at least
    260 and the power flash cleared, and stays where it is. *)
Theorem take_damage_rule (tm : Tilemap) (p : Player.t) :
  grid_wf tm ->
  exists lethal q,
    Player.take_damage tm p = Some (lethal, q)
    /\ (lethal = true <-> (Player.inv p <= 0)%Q /\ Player.form p = small)
    /\ (lethal = true -> q = p)
    /\ ((0 < Player.inv p)%Q -> q = p)
    /\ ((Player.inv p <= 0)%Q -> Player.form p = big ->
        Player.form q = small
        /\ Player.h_stand q = H_STAND /\ Player.h_crouch q = H_CROUCH
        /\ Player.h q = (if Player.crouch q then H_CROUCH else H_STAND)
        /\ ((12 # 10) <= Player.inv q)%Q
        /\ (Player.vy q <= - (260))%Q
        /\ Player.power_flash q = 0%Q
        /\ Player.x q = Player.x p /\ Player.y q = Player.y p).
Proof.
  intros Hwf.
  destruct (take_damage_cases tm p Hwf) as (lethal & q & Htd & Hinv & Hsmall & Hbig).
  exists lethal, q. split; [exact Htd|].
  destruct (Qlt_le_dec 0 (Player.inv p)) as [Hpos|Hle].
  - destruct (Hinv Hpos) as [-> ->].
    split; [split; [discriminate | intros [H _]; exfalso; lra]|].
    split; [reflexivity|]. split; [reflexivity|]. intros; exfalso; lra.
  - destruct (Player.form p) eqn:Hf.
    + destruct (Hsmall Hle eq_refl) as [-> ->].
      split; [split; auto|]. split; [reflexivity|]. split; [reflexivity | discriminate].
    + destruct (Hbig Hle eq_refl) as (-> & F1 & F2 & F3 & F4 & F5 & F6 & _ & F8 & F9 & F10 & _).
      split; [split; [discriminate | intros [_ H]; discriminate]|].
      split; [discriminate|]. split; [intros; exfalso; lra|].
      intros _ _. repeat split; assumption.
Qed.

Lemma take_damage_rule_witness :
  exists lethal q,
    Player.take_damage flat_floor (Player.init 96 96) = Some (lethal, q)
    /\ (lethal = true <-> (Player.inv (Player.init 96 96) <= 0)%Q
                          /\ Player.form (Player.init 96 96) = small).
Proof.
  assert (Hwf : grid_wf flat_floor).
  { split; [discriminate | exists 6%nat; repeat constructor]. }
  destruct (take_damage_rule flat_floor (Player.init 96 96) Hwf) as (lethal & q & H1 & H2 & _).
  exists lethal, q. split; assumption.
Defined.

(** Enemies cannot end the run of a protected player: when the player is
    big, invulnerable or dashing as the enemy stage begins, the stage
    returns on every well-formed grid with the session state unchanged and
    the player still protected (a big player that is hit turns small and
    invulnerable), whatever the number and the places of the enemies; the
    grid, the items and the coins are not touched, and no enemy is added. *)
Theorem enemies_spare_protected_player (prev : Rect) (g : Game.t) (enemies : list Goomba.t) :
  grid_wf (Game.tilemap g) -> protected (Game.player g) ->
  exists g' enemies',
    Game_meet_enemies prev g enemies = Some (g', enemies')
    /\ Game.state g' = Game.state g
    /\ protected (Game.player g')
    /\ Game.tilemap g' = Game.tilemap g
    /\ Game.items g' = Game.items g /\ Game.coins_got g' = Game.coins_got g
    /\ (List.length enemies' <= List.length enemies)%nat.
Proof.
  intros Hwf Hprot. unfold Game_meet_enemies. cbv zeta.
  destruct (meet_enemies_protected prev enemies g (Player.rect (Game.player g)) [] Hwf Hprot)
    as (g' & r' & seen & H & P & S & T & I & C & L).
  rewrite H. cbn [bind]. eexists. eexists. split; [reflexivity|].
  repeat split; auto.
  eapply Nat.le_trans; [apply filter_length_le|]. rewrite L. cbn [List.length]. lia.
Qed.

Lemma enemies_spare_protected_player_witness :
  exists g' enemies',
    Game_meet_enemies (Player.rect in_nook) (session flat_floor in_nook)
      [Goomba.init 66 96 1] = Some (g', enemies')
    /\ Game.state g' = RUN.
Proof.
  assert (Hwf : grid_wf flat_floor).
  { split; [discriminate | exists 6%nat; repeat constructor]. }
  assert (Hprot : protected in_nook) by (right; left; reflexivity).
  destruct (enemies_spare_protected_player (Player.rect in_nook) (session flat_floor in_nook)
              [Goomba.init 66 96 1] Hwf Hprot) as (g' & enemies' & H & S & _).
  exists g', enemies'. split; [exact H | exact S].
Defined.

(** ** Resetting the session *)

















(** * A frame of the player: it returns, and what it keeps *)

Lemma same_size_refl (tm : Tilemap) : same_size tm tm.
Proof. split; auto. Qed.

Lemma same_size_trans (a b c : Tilemap) : same_size a b -> same_size b c -> same_size a c.
Proof. intros [L1 F1] [L2 F2]. split; [congruence | auto]. Qed.

Lemma same_size_wf (tm tm' : Tilemap) : same_size tm tm' -> grid_wf tm -> grid_wf tm'.
Proof.
  intros [L F] [Hne [w Hw]]. split.
  - intros ->. destruct tm; [contradiction Hne; reflexivity | discriminate].
  - exists w. apply F. exact Hw.
Qed.

Lemma grid_set_same_size (tm tm' : Tilemap) (tx ty : Z) (v : ascii) :
  grid_set tm tx ty v = Some tm' -> same_size tm tm'.
Proof. intros H. exact (grid_set_shape tm tm' tx ty v H). Qed.

Lemma session_kept_refl (g : Game.t) : session_kept g g.
Proof.
  unfold session_kept. repeat split; auto.
  exists []. rewrite app_nil_r. reflexivity.
Qed.

Lemma session_kept_trans (a b c : Game.t) :
  session_kept a b -> session_kept b c -> session_kept a c.
Proof.
  intros (A1 & A2 & A3 & A4 & A5 & [s1 A6] & A7) (B1 & B2 & B3 & B4 & B5 & [s2 B6] & B7).
  unfold session_kept. repeat split; try congruence.
  - exists (s1 ++ s2). rewrite B6, A6, app_assoc. reflexivity.
  - destruct A7, B7. congruence.
  - destruct A7, B7. auto.
Qed.

Lemma session_kept_player (p : Player.t) (g : Game.t) :
  Player.coins p = Player.coins (Game.player g) -> session_kept g (Game.with_player p g).
Proof.
  intros Hc. unfold session_kept. proj_cbn. rewrite Hc. repeat split; auto.
  exists []. rewrite app_nil_r. reflexivity.
Qed.

Lemma session_kept_wf (g g' : Game.t) :
  session_kept g g' -> grid_wf (Game.tilemap g) -> grid_wf (Game.tilemap g').
Proof. intros (_ & _ & _ & _ & _ & _ & Hs). exact (same_size_wf _ _ Hs). Qed.

Lemma hit_block_kept (g : Game.t) (tx ty : Z) (ch : ascii) :
  grid_wf (Game.tilemap g) ->
  exists g',
    Game.hit_block tx ty ch g = Some g' /\ session_kept g g'
    /\ Game.player g' = Player.with_coins (Player.coins (Game.player g')) (Game.player g).
Proof.
  intros [Hne Hw].
  destruct (hit_block_cases g tx ty ch Hw) as (g' & Hg' & _). exists g'.
  split; [exact Hg'|]. revert Hg'. unfold Game.hit_block.
  assert (Hsame : forall q : Player.t, q = Player.with_coins (Player.coins q) q)
    by (intros q; destruct q; reflexivity).
  destruct ((ty <? 0) || (ty >=? Z.of_nat (List.length (Game.tilemap g)))).
  { intros [= <-]. split; [apply session_kept_refl | apply Hsame]. }
  destruct (py_index (Game.tilemap g) 0) as [row0|]; cbv beta iota delta [bind]; [|discriminate].
  destruct ((tx <? 0) || (tx >=? Z.of_nat (List.length row0))).
  { intros [= <-]. split; [apply session_kept_refl | apply Hsame]. }
  destruct (grid_get (Game.tilemap g) tx ty) as [current|]; [|discriminate].
  destruct (negb (Ascii.eqb current ch)).
  { intros [= <-]. split; [apply session_kept_refl | apply Hsame]. }
  destruct (Ascii.eqb ch "B").
  { destruct (grid_set (Game.tilemap g) tx ty "X") as [tm|] eqn:Hset; [|discriminate].
    intros [= <-]. proj_cbn. split; [|apply Hsame].
    unfold session_kept. proj_cbn. repeat split; eauto; apply (grid_set_same_size _ _ _ _ _ Hset). }
  destruct (Ascii.eqb ch "Q").
  { destruct (grid_set (Game.tilemap g) tx ty "X") as [tm|] eqn:Hset; [|discriminate].
    intros [= <-]. proj_cbn. split; [|destruct (Game.player g); reflexivity].
    unfold session_kept. proj_cbn. repeat split; try lia;
      try apply (grid_set_same_size _ _ _ _ _ Hset).
    exists []. rewrite app_nil_r. reflexivity. }
  destruct (Ascii.eqb ch "S").
  { destruct (negb (Form_eqb (Player.form (Game.player g)) big)).
    { intros [= <-]. split; [apply session_kept_refl | apply Hsame]. }
    destruct (grid_set (Game.tilemap g) tx ty " ") as [tm|] eqn:Hset; [|discriminate].
    intros [= <-]. proj_cbn. split; [|apply Hsame].
    unfold session_kept. proj_cbn. repeat split; try apply (grid_set_same_size _ _ _ _ _ Hset).
    exists []. rewrite app_nil_r. reflexivity. }
  intros [= <-]. split; [apply session_kept_refl | apply Hsame].
Qed.

Lemma destroy_gate_kept (g : Game.t) (tx ty : Z) (current : ascii) :
  grid_get (Game.tilemap g) tx ty = Some current ->
  exists g',
    Game.destroy_gate tx ty g = Some g' /\ session_kept g g'
    /\ Game.player g' = Game.player g.
Proof.
  intros Hcur. unfold Game.destroy_gate. rewrite Hcur. cbn [bind].
  destruct (Ascii.eqb current "|").
  - destruct (grid_set_Some _ _ _ _ " "%char Hcur) as [tm' Htm']. rewrite Htm'. cbn [bind].
    eexists. split; [reflexivity|]. proj_cbn. split; [|reflexivity].
    unfold session_kept. proj_cbn. repeat split; try apply (grid_set_same_size _ _ _ _ _ Htm').
    exists []. rewrite app_nil_r. reflexivity.
  - exists g. split; [reflexivity|]. split; [apply session_kept_refl | reflexivity].
Qed.

(** ** The horizontal move *)

Lemma moved_along_refl (p : Player.t) : moved_along p p.
Proof. split; [destruct p; reflexivity | left; reflexivity]. Qed.

Lemma moved_along_trans (p q r : Player.t) :
  moved_along p q -> moved_along q r -> moved_along p r.
Proof.
  intros [E1 D1] [E2 D2]. split.
  - rewrite E2 at 1. rewrite E1 at 1. destruct p. reflexivity.
  - destruct D2 as [D2|D2]; [rewrite D2; exact D1 | right; exact D2].
Qed.

Lemma block_x_along (r tile_r : Rect) (p : Player.t) : moved_along p (block_x r tile_r p).
Proof.
  unfold block_x. destruct (colliderect r tile_r); [|apply moved_along_refl].
  destruct (Qlt_bool 0 (Player.vx p)); [|destruct (Qlt_bool (Player.vx p) 0)];
    (split; [destruct p; reflexivity | right; reflexivity]).
Qed.

Lemma walls_only_along (is_wall : ascii -> bool) (r : Rect) (tiles : list (Z * Z * ascii))
  (p : Player.t) :
  moved_along p (walls_only is_wall r p tiles).
Proof.
  unfold walls_only. revert p.
  induction tiles as [|[[tx ty] ch] tiles IH]; intros p; cbn [fold_left].
  - apply moved_along_refl.
  - eapply moved_along_trans; [|apply IH].
    destruct (is_wall ch); [apply block_x_along | apply moved_along_refl].
Qed.

Lemma moved_along_reads (p q : Player.t) :
  moved_along p q ->
  Player.y q = Player.y p /\ Player.vy q = Player.vy p
  /\ Player.coins q = Player.coins p /\ Player.dash_t q = Player.dash_t p.
Proof. intros [E _]. rewrite E. repeat split; reflexivity. Qed.

Lemma move_horizontal_total (dt : Q) (g : Game.t) :
  grid_wf (Game.tilemap g) ->
  exists g',
    move_horizontal dt g = Some g' /\ session_kept g g'
    /\ moved_along (Game.player g) (Game.player g').
Proof.
  intros [Hne Hw]. unfold move_horizontal. cbv zeta.
  set (p0 := Player.with_x _ (Game.player g)).
  assert (H0 : moved_along (Game.player g) p0).
  { subst p0. split; [destruct (Game.player g); reflexivity | left; reflexivity]. }
  destruct (tiles_in_aabb_spec (Game.tilemap g) (inflate (Player.rect p0) 2 (-2)) Hne Hw)
    as (tiles & Htiles & _ & Hspec).
  rewrite Htiles. cbn [bind].
  assert (Hfold : exists p1 c1,
             fold_left (horizontal_tile (Player.rect p0)) tiles (p0, None) = (p1, c1)
             /\ moved_along p0 p1
             /\ (forall gx gy, c1 = Some (gx, gy) -> In (gx, gy, "|"%char) tiles)).
  { destruct (Qlt_bool 0 (Player.dash_t p0)) eqn:Hd.
    - rewrite (horizontal_fold_dashing _ tiles p0 None Hd).
      eexists. eexists. split; [reflexivity|]. split; [apply walls_only_along|].
      intros gx gy Hc. destruct (last_gate_from_In tiles None gx gy Hc) as [H|H];
        [exact H | discriminate].
    - rewrite (horizontal_fold_walking _ tiles p0 None Hd).
      eexists. eexists. split; [reflexivity|]. split; [apply walls_only_along|].
      intros gx gy Hc. discriminate. }
  destruct Hfold as (p1 & c1 & -> & Hm & Hgate).
  assert (Hm1 : moved_along (Game.player g) p1) by exact (moved_along_trans _ _ _ H0 Hm).
  assert (Hk1 : session_kept g (Game.with_player p1 g)).
  { apply session_kept_player. apply (moved_along_reads _ _ Hm1). }
  destruct c1 as [[gx gy]|].
  - specialize (Hgate gx gy eq_refl). apply Hspec in Hgate.
    destruct Hgate as (_ & _ & Hcell & _).
    destruct (destroy_gate_kept (Game.with_player p1 g) gx gy "|"%char Hcell)
      as (g' & Hg' & Hk & Hp).
    exists g'. split; [exact Hg'|]. split; [exact (session_kept_trans _ _ _ Hk1 Hk)|].
    rewrite Hp. exact Hm1.
  - eexists. split; [reflexivity|]. split; [exact Hk1 | exact Hm1].
Qed.

(** ** The vertical move *)

Lemma moved_up_refl (p : Player.t) : moved_up p p.
Proof. split; [apply moved_refl|]. repeat split. left. reflexivity. Qed.

Lemma moved_up_trans (p q r : Player.t) : moved_up p q -> moved_up q r -> moved_up p r.
Proof.
  intros (M1 & X1 & V1 & D1) (M2 & X2 & V2 & D2).
  split; [eapply moved_trans; eassumption|].
  split; [congruence|]. split; [congruence|].
  destruct D2 as [D2|D2]; [rewrite D2; exact D1 | right; exact D2].
Qed.

Lemma vertical_tile_total (step_dy : Q) (prev_rect : Rect) (g : Game.t) (r : Rect)
  (tile : Z * Z * ascii) :
  grid_wf (Game.tilemap g) ->
  exists g' r',
    vertical_tile step_dy prev_rect (g, r) tile = Some (g', r')
    /\ session_kept g g' /\ moved_up (Game.player g) (Game.player g').
Proof.
  intros Hwf. destruct tile as [[tx ty] ch]. unfold vertical_tile.
  assert (Stay : exists g' r', Some (g, r) = Some (g', r') /\ session_kept g g'
                               /\ moved_up (Game.player g) (Game.player g')).
  { exists g, r. split; [reflexivity|]. split; [apply session_kept_refl | apply moved_up_refl]. }
  destruct (Ascii.eqb ch "|" && Qlt_bool 0 (Player.dash_t (Game.player g))); [exact Stay|].
  destruct (Ascii.eqb ch "|" || solid ch); [|exact Stay].
  destruct (negb (colliderect r (tile_rect tx ty))); [exact Stay|].
  destruct (Qlt_bool 0 step_dy).
  { destruct ((bottom prev_rect <=? top (tile_rect tx ty)) && (bottom r >=? top (tile_rect tx ty)));
      [|exact Stay].
    cbv zeta. eexists. eexists. split; [reflexivity|]. proj_cbn.
    split; [apply session_kept_player; reflexivity|].
    split; [destruct (Game.player g); reflexivity|]. repeat split. right. reflexivity. }
  destruct (Qlt_bool step_dy 0); [|exact Stay].
  destruct ((top prev_rect >=? bottom (tile_rect tx ty)) && (top r <=? bottom (tile_rect tx ty)));
    [|exact Stay].
  cbv zeta.
  set (p1 := Player.with_vy 0 (Player.with_y _ (Game.player g))).
  assert (Hp1 : moved_up (Game.player g) p1).
  { subst p1. split; [destruct (Game.player g); reflexivity|]. repeat split. right. reflexivity. }
  assert (Hk1 : session_kept g (Game.with_player p1 g))
    by (apply session_kept_player; reflexivity).
  destruct (existsb (Ascii.eqb ch) ["B"; "S"; "Q"]%char).
  - destruct (hit_block_kept (Game.with_player p1 g) tx ty ch) as (g' & Hg' & Hk & Hp);
      [exact Hwf|].
    rewrite Hg'. cbn [bind]. eexists. eexists. split; [reflexivity|].
    split; [exact (session_kept_trans _ _ _ Hk1 Hk)|].
    eapply moved_up_trans; [exact Hp1|]. rewrite Hp. proj_cbn.
    split; [apply moved_with_coins|]. repeat split. left. reflexivity.
  - eexists. eexists. split; [reflexivity|]. split; [exact Hk1 | exact Hp1].
Qed.

Lemma vertical_tiles_total (step_dy : Q) (prev_rect : Rect) (tiles : list (Z * Z * ascii))
  (g : Game.t) (r : Rect) :
  grid_wf (Game.tilemap g) ->
  exists g' r',
    vertical_tiles step_dy prev_rect (g, r) tiles = Some (g', r')
    /\ session_kept g g' /\ moved_up (Game.player g) (Game.player g').
Proof.
  revert g r. induction tiles as [|tile tiles IH]; intros g r Hwf; cbn [vertical_tiles].
  - exists g, r. split; [reflexivity|]. split; [apply session_kept_refl | apply moved_up_refl].
  - destruct (vertical_tile_total step_dy prev_rect g r tile Hwf) as (g1 & r1 & H1 & K1 & M1).
    rewrite H1. cbn [bind].
    destruct (IH g1 r1 (session_kept_wf _ _ K1 Hwf)) as (g2 & r2 & H2 & K2 & M2).
    exists g2, r2. split; [exact H2|].
    split; [exact (session_kept_trans _ _ _ K1 K2) | exact (moved_up_trans _ _ _ M1 M2)].
Qed.

Lemma vertical_substeps_total (n : nat) (step_dy : Q) (g : Game.t) :
  grid_wf (Game.tilemap g) ->
  exists g',
    vertical_substeps n step_dy g = Some g'
    /\ session_kept g g' /\ moved_up (Game.player g) (Game.player g').
Proof.
  revert g. induction n as [|n IH]; intros g Hwf; cbn [vertical_substeps].
  - exists g. split; [reflexivity|]. split; [apply session_kept_refl | apply moved_up_refl].
  - unfold vertical_substep. cbv zeta.
    set (p1 := Player.with_y _ (Game.player g)).
    assert (Hp1 : moved_up (Game.player g) p1).
    { subst p1. split; [apply moved_with_y|]. repeat split. left. reflexivity. }
    destruct Hwf as [Hne Hw].
    destruct (tiles_in_aabb_total (Game.tilemap g) (inflate (Player.rect p1) (-8) 0) Hne Hw)
      as [tiles Ht].
    rewrite tilemap_with_player, Ht. cbn [bind].
    destruct (vertical_tiles_total step_dy (Player.rect (Game.player g)) tiles
                (Game.with_player p1 g) (Player.rect p1) (conj Hne Hw))
      as (g1 & r1 & H1 & K1 & M1).
    rewrite H1. cbn [bind].
    assert (K0 : session_kept g (Game.with_player p1 g))
      by (apply session_kept_player; reflexivity).
    assert (K01 : session_kept g g1) by exact (session_kept_trans _ _ _ K0 K1).
    destruct (IH g1 (session_kept_wf _ _ K01 (conj Hne Hw))) as (g2 & H2 & K2 & M2).
    exists g2. split; [exact H2|].
    split; [exact (session_kept_trans _ _ _ K01 K2)|].
    exact (moved_up_trans _ _ _ Hp1 (moved_up_trans _ _ _ M1 M2)).
Qed.

Lemma move_vertical_total (dt : Q) (g : Game.t) :
  grid_wf (Game.tilemap g) ->
  exists g',
    move_vertical dt g = Some g'
    /\ session_kept g g' /\ moved_up (Game.player g) (Game.player g').
Proof. unfold move_vertical. apply vertical_substeps_total. Qed.

(** ** The control stages: what they leave alone *)

(** Rewrite with the hypotheses that say which assignments [f] ignores. *)
Ltac keeps f :=
  cbv zeta;
  repeat first
    [ rewrite !(proj_if f)
    | match goal with H : forall v q, f (_ v q) = f q |- _ => rewrite !H end ];
  repeat rewrite if_same.

Section Keeps.

Variable A : Type.
Variable f : Player.t -> A.

Hypothesis Hsince_ground : forall v q, f (Player.with_since_ground v q) = f q.
Hypothesis Hjump_buf : forall v q, f (Player.with_jump_buf v q) = f q.
Hypothesis Hdash_t : forall v q, f (Player.with_dash_t v q) = f q.
Hypothesis Hdash_cd : forall v q, f (Player.with_dash_cd v q) = f q.
Hypothesis Hinv : forall v q, f (Player.with_inv v q) = f q.
Hypothesis Hskid_t : forall v q, f (Player.with_skid_t v q) = f q.
Hypothesis Hpower_flash : forall v q, f (Player.with_power_flash v q) = f q.
Hypothesis Htrail : forall v q, f (Player.with_trail v q) = f q.
Hypothesis Hfacing : forall v q, f (Player.with_facing v q) = f q.
Hypothesis Hsprint : forall v q, f (Player.with_sprint v q) = f q.
Hypothesis Hdash_lock : forall v q, f (Player.with_dash_lock v q) = f q.
Hypothesis Hdash_dir : forall v q, f (Player.with_dash_dir v q) = f q.
Hypothesis Hskid_dir : forall v q, f (Player.with_skid_dir v q) = f q.
Hypothesis Hvx : forall v q, f (Player.with_vx v q) = f q.
Hypothesis Hvy : forall v q, f (Player.with_vy v q) = f q.

Lemma sprint_hold_keeps (keys : Keys) (p : Player.t) : f (sprint_hold keys p) = f p.
Proof. unfold sprint_hold. keeps f. reflexivity. Qed.

Lemma skid_trigger_keeps (input_dir moving_dir : Z) (p : Player.t) :
  f (skid_trigger input_dir moving_dir p) = f p.
Proof. unfold skid_trigger. keeps f. reflexivity. Qed.

Lemma horizontal_control_keeps (dt ax : Q) (p : Player.t) :
  f (horizontal_control dt ax p) = f p.
Proof. unfold horizontal_control, Player.add_trail. keeps f. reflexivity. Qed.

Lemma clamp_speed_keeps (p : Player.t) : f (clamp_speed p) = f p.
Proof. unfold clamp_speed. keeps f. reflexivity. Qed.

Lemma gravity_keeps (dt : Q) (keys : Keys) (p : Player.t) :
  f (gravity_and_jump_input dt keys p) = f p.
Proof. unfold gravity_and_jump_input. keeps f. reflexivity. Qed.

Lemma start_dash_keeps (p : Player.t) : f (Player.start_dash p) = f p.
Proof. unfold Player.start_dash. keeps f. reflexivity. Qed.

Lemma dash_trigger_keeps (keys : Keys) (tm : Tilemap) (p q : Player.t) :
  dash_trigger keys tm p = Some q -> f q = f p.
Proof.
  unfold dash_trigger. destruct (dash_triggers keys tm p) as [[|]|]; cbn [bind];
    try discriminate; intros [= <-]; [|reflexivity].
  rewrite Hdash_lock. apply start_dash_keeps.
Qed.

(** From the dash trigger to the end of the control stages. *)
Lemma late_control_keeps (dt ax : Q) (keys : Keys) (input_dir moving_dir : Z)
  (tm : Tilemap) (p q : Player.t) :
  dash_trigger keys tm p = Some q ->
  f (gravity_and_jump_input dt keys
       (clamp_speed
          (horizontal_control dt ax
             (skid_trigger input_dir moving_dir (sprint_hold keys q))))) = f p.
Proof.
  intros Hd. rewrite gravity_keeps, clamp_speed_keeps, horizontal_control_keeps,
    skid_trigger_keeps, sprint_hold_keeps.
  exact (dash_trigger_keeps _ _ _ _ Hd).
Qed.

Hypothesis Hcrouch_slide_t : forall v q, f (Player.with_crouch_slide_t v q) = f q.
Hypothesis Hcrouch_slide_decel : forall v q, f (Player.with_crouch_slide_decel v q) = f q.
Hypothesis Hcrouch_slide_dir : forall v q, f (Player.with_crouch_slide_dir v q) = f q.
Hypothesis Hcrouch : forall v q, f (Player.with_crouch v q) = f q.
Hypothesis Hh : forall v q, f (Player.with_h v q) = f q.

Lemma crouch_slide_keeps (keys : Keys) (pc ps : bool) (p : Player.t) :
  f (crouch_slide keys pc ps p) = f p.
Proof. unfold crouch_slide, start_slide. keeps f. reflexivity. Qed.

Lemma resolve_crouch_keeps (keys : Keys) (tm : Tilemap) (p q : Player.t) :
  resolve_crouch keys tm p = Some q -> f q = f p.
Proof.
  unfold resolve_crouch, Player._set_crouch.
  destruct (Qle_bool (Player.dash_t p) 0 && crouch_held keys);
    destruct (Player.crouch p) eqn:Hc; cbn [negb andb bind];
    try (intros [= <-]; keeps f; reflexivity).
  destruct (Player._can_stand tm p) as [[|]|]; cbn [negb andb bind];
    try discriminate; intros [= <-]; keeps f; reflexivity.
Qed.

(** The control stages as a whole. *)
Lemma control_keeps (dt : Q) (keys : Keys) (tm : Tilemap) (p q : Player.t) :
  control dt keys tm p = Some q -> f q = f p.
Proof.
  unfold control. cbv zeta.
  destruct (Player.input_axis keys (tick_timers dt p)) as [ax p1] eqn:Hax.
  destruct (resolve_crouch keys tm p1) as [p2|] eqn:H2; cbn [bind]; [|discriminate].
  destruct (dash_trigger keys tm _) as [p3|] eqn:H3; cbn [bind]; [|discriminate].
  intros [= <-].
  rewrite (late_control_keeps _ _ _ _ _ _ _ _ H3), crouch_slide_keeps,
    (resolve_crouch_keeps _ _ _ _ H2).
  replace p1 with (snd (Player.input_axis keys (tick_timers dt p))) by (rewrite Hax; reflexivity).
  rewrite input_axis_keeps by exact Hfacing.
  apply tick_timers_keeps; assumption.
Qed.

End Keeps.

Lemma dash_trigger_total (keys : Keys) (tm : Tilemap) (p : Player.t) :
  grid_wf tm -> exists q, dash_trigger keys tm p = Some q.
Proof.
  intros [Hne Hw]. unfold dash_trigger, dash_triggers.
  destruct (can_stand_total tm p Hne Hw) as [ok ->].
  destruct (_ && _); cbn [bind]; eauto.
Qed.

Lemma control_total (dt : Q) (keys : Keys) (tm : Tilemap) (p : Player.t) :
  grid_wf tm -> exists q, control dt keys tm p = Some q.
Proof.
  intros Hwf. unfold control. cbv zeta.
  destruct (Player.input_axis keys (tick_timers dt p)) as [ax p1].
  destruct (resolve_crouch_total keys tm p1 Hwf) as [p2 ->]. cbn [bind].
  destruct (dash_trigger_total keys tm (crouch_slide keys (Player.crouch p1) (Player.sprint p1) p2)
              Hwf) as [p3 ->].
  cbn [bind]. eauto.
Qed.

(** ** Speed limits at the end of the control stages *)

Lemma speed_limit_pos (p : Player.t) : (0 <= speed_limit p)%Q.
Proof.
  unfold speed_limit. cbv zeta.
  destruct (Player.sprint p); destruct (Player.crouch p && Qle_bool (Player.crouch_slide_t p) 0);
    discriminate.
Qed.

Lemma clamp_speed_limit (p : Player.t) :
  (Player.dash_t p <= 0)%Q ->
  (Qabs (Player.vx (clamp_speed p)) <= speed_limit (clamp_speed p))%Q.
Proof.
  intros Hd. apply Qle_bool_iff in Hd.
  assert (E : speed_limit (clamp_speed p) = speed_limit p).
  { unfold speed_limit. cbv zeta.
    rewrite (clamp_speed_keeps _ Player.sprint), (clamp_speed_keeps _ Player.crouch),
      (clamp_speed_keeps _ Player.crouch_slide_t) by reflexivity.
    reflexivity. }
  rewrite E.
  assert (V : Player.vx (clamp_speed p)
              = clamp (Player.vx p) (- speed_limit p) (speed_limit p)).
  { unfold clamp_speed, speed_limit. cbv zeta. rewrite Hd. reflexivity. }
  rewrite V. pose proof (speed_limit_pos p) as Hpos.
  apply Qabs_Qle_condition. apply clamp_between. lra.
Qed.

Lemma gravity_fall (dt : Q) (keys : Keys) (p : Player.t) :
  (Player.vy (gravity_and_jump_input dt keys p) <= MAX_FALL)%Q.
Proof.
  unfold gravity_and_jump_input. cbv zeta.
  set (p1 := Player.with_vy (clamp _ _ _) _).
  assert (H1 : (Player.vy p1 <= MAX_FALL)%Q).
  { subst p1. proj_cbn. apply clamp_upper. discriminate. }
  set (p2 := if jump_pressed keys then _ else _).
  assert (H2 : Player.vy p2 = Player.vy p1).
  { subst p2. destruct (jump_pressed keys); reflexivity. }
  clearbody p2. clearbody p1.
  destruct (jump_released keys && Qlt_bool (Player.vy p2) 0) eqn:E.
  - apply andb_true_iff in E. destruct E as [_ E]. apply Qlt_bool_iff in E.
    proj_cbn. rewrite H2 in *. unfold JUMP_CUT, MAX_FALL in *. nra.
  - rewrite H2. exact H1.
Qed.

Lemma control_speed (dt : Q) (keys : Keys) (tm : Tilemap) (p q : Player.t) :
  control dt keys tm p = Some q ->
  ((Player.dash_t q <= 0)%Q -> (Qabs (Player.vx q) <= speed_limit q)%Q)
  /\ (Player.vy q <= MAX_FALL)%Q.
Proof.
  unfold control. cbv zeta.
  destruct (Player.input_axis keys (tick_timers dt p)) as [ax p1].
  destruct (resolve_crouch keys tm p1) as [p2|]; cbn [bind]; [|discriminate].
  destruct (dash_trigger keys tm _) as [p3|]; cbn [bind]; [|discriminate].
  intros [= <-]. split; [|apply gravity_fall].
  set (p4 := horizontal_control _ _ _).
  rewrite (gravity_keeps _ Player.dash_t), (gravity_keeps _ Player.vx) by reflexivity.
  assert (E : speed_limit (gravity_and_jump_input dt keys (clamp_speed p4))
              = speed_limit (clamp_speed p4)).
  { unfold speed_limit. cbv zeta.
    rewrite (gravity_keeps _ Player.sprint), (gravity_keeps _ Player.crouch),
      (gravity_keeps _ Player.crouch_slide_t) by reflexivity.
    reflexivity. }
  rewrite E. rewrite (clamp_speed_keeps _ Player.dash_t) by reflexivity.
  apply clamp_speed_limit.
Qed.

(** ** The hitbox and the form *)

Lemma set_crouch_body (want : bool) (tm : Tilemap) (p q : Player.t) :
  body_ok p -> Player._set_crouch want tm p = Some q -> body_ok q.
Proof.
  intros (B1 & B2 & B3). unfold Player._set_crouch.
  destruct (want && negb (Player.crouch p)).
  { intros [= <-]. unfold body_ok. proj_cbn. auto. }
  destruct (negb want && Player.crouch p) eqn:E.
  2:{ intros [= <-]. unfold body_ok. auto. }
  apply andb_true_iff in E. destruct E as [_ E].
  destruct (Player._can_stand tm p) as [[|]|]; cbn [bind]; try discriminate;
    intros [= <-]; unfold body_ok; proj_cbn; auto.
  rewrite E in B3. auto.
Qed.

Lemma set_form_body (new_form : Form) (tilemap : option Tilemap) (p q : Player.t) (b : bool) :
  body_ok p -> Player.set_form new_form tilemap p = Some (b, q) -> body_ok q.
Proof.
  intros Hb. unfold Player.set_form.
  destruct (Form_eqb new_form (Player.form p)); [intros [= _ <-]; exact Hb|].
  destruct new_form.
  - clear Hb. cbv zeta. destruct p. proj_cbn.
    destruct crouch; cbn [negb bind];
      repeat match goal with
             | |- context [Player._rect_fits ?t ?hh ?pp] =>
                 destruct (Player._rect_fits t hh pp) as [[|]|]; cbn [negb bind]; proj_cbn;
                 cbn [negb bind]
             end;
      try discriminate; intros [= _ <-]; unfold body_ok; proj_cbn; auto.
  - destruct (Player._rect_fits tilemap H_STAND_BIG p) as [[|]|]; cbn [bind negb andb];
      try discriminate.
    + cbv zeta. proj_cbn. destruct (Player.crouch p) eqn:E; cbn [negb];
        intros [= _ <-]; unfold body_ok; proj_cbn; rewrite ?E; auto.
    + destruct (Player._rect_fits tilemap H_CROUCH_BIG p) as [[|]|]; cbn [bind negb andb];
        try discriminate.
      * intros [= _ <-]. unfold body_ok. proj_cbn. auto.
      * intros [= _ <-]. exact Hb.
Qed.

Lemma body_ok_same (p q : Player.t) : body q = body p -> body_ok p -> body_ok q.
Proof.
  unfold body. intros [= F S C H K] (B1 & B2 & B3). unfold body_ok.
  rewrite F, S, C, H, K. auto.
Qed.

Lemma resolve_crouch_body (keys : Keys) (tm : Tilemap) (p q : Player.t) :
  body_ok p -> resolve_crouch keys tm p = Some q -> body_ok q.
Proof.
  intros Hb. unfold resolve_crouch. cbv zeta.
  destruct (if negb _ && Player.crouch p then _ else _) as [want|]; cbn [bind]; [|discriminate].
  apply set_crouch_body. exact Hb.
Qed.

Lemma crouch_slide_body (keys : Keys) (pc ps : bool) (p : Player.t) :
  body_ok p -> body_ok (crouch_slide keys pc ps p).
Proof.
  intros Hb. unfold crouch_slide. cbv zeta.
  set (p1 := if slide_triggers keys pc ps p then start_slide p else p).
  assert (H1 : body_ok p1).
  { apply (body_ok_same p); [|exact Hb]. subst p1.
    destruct (slide_triggers keys pc ps p); reflexivity. }
  clearbody p1. destruct (Qlt_bool 0 (Player.crouch_slide_t p1)); [|exact H1].
  destruct H1 as (B1 & B2 & B3). unfold body_ok. proj_cbn. auto.
Qed.

Lemma control_body (dt : Q) (keys : Keys) (tm : Tilemap) (p q : Player.t) :
  body_ok p -> control dt keys tm p = Some q -> body_ok q.
Proof.
  intros Hb. unfold control. cbv zeta.
  destruct (Player.input_axis keys (tick_timers dt p)) as [ax p1] eqn:Hax.
  assert (H1 : body_ok p1).
  { apply (body_ok_same p); [|exact Hb].
    replace p1 with (snd (Player.input_axis keys (tick_timers dt p)))
      by (rewrite Hax; reflexivity).
    rewrite (input_axis_keeps body) by reflexivity.
    apply (tick_timers_keeps body); reflexivity. }
  destruct (resolve_crouch keys tm p1) as [p2|] eqn:H2; cbn [bind]; [|discriminate].
  pose proof (crouch_slide_body keys (Player.crouch p1) (Player.sprint p1) p2
                (resolve_crouch_body _ _ _ _ H1 H2)) as H3.
  destruct (dash_trigger keys tm _) as [p3|] eqn:Hd; cbn [bind]; [|discriminate].
  intros [= <-]. eapply body_ok_same; [|exact H3].
  apply (late_control_keeps _ body) with (tm := tm); first [exact Hd | reflexivity].
Qed.

(** ** The frame as a whole *)

Lemma carried_of_moves (dt : Q) (q p1 p2 : Player.t) :
  moved_along (Player.with_on_ground false q) p1 -> moved_up p1 p2 ->
  carried q (tilt dt p2).
Proof.
  intros [E1 D1] (E2 & X2 & V2 & D2). unfold carried, tilt. cbv zeta. proj_cbn.
  split; [|split].
  - assert (J : Player.jump_buf p1 = Player.jump_buf q) by (rewrite E1; reflexivity).
    rewrite (moved_jump_buf _ _ E2), J.
    set (v := Qred _). clearbody v.
    unfold moved in E2. rewrite E2 at 1. rewrite E1 at 1.
    destruct q. reflexivity.
  - rewrite V2. exact D1.
  - destruct D2 as [D2|D2]; [left | right; left; exact D2].
    rewrite D2. rewrite E1. reflexivity.
Qed.

Lemma carried_reads (q r : Player.t) :
  carried q r ->
  body r = body q /\ Player.dash_t r = Player.dash_t q /\ speed_limit r = speed_limit q.
Proof. intros [E _]. rewrite E. repeat split; reflexivity. Qed.

Lemma Player_update_total (dt : Q) (keys : Keys) (g : Game.t) :
  grid_wf (Game.tilemap g) ->
  exists q g',
    control dt keys (Game.tilemap g) (Game.player g) = Some q
    /\ Player_update dt keys g = Some g'
    /\ session_kept g g' /\ carried q (Game.player g').
Proof.
  intros Hwf. unfold Player_update.
  destruct (control_total dt keys (Game.tilemap g) (Game.player g) Hwf) as [q Hq].
  rewrite Hq. cbn [bind]. cbv zeta.
  assert (Hc : Player.coins q = Player.coins (Game.player g))
    by (apply (control_keeps _ Player.coins) with (dt := dt) (keys := keys)
          (tm := Game.tilemap g); first [exact Hq | reflexivity]).
  set (g0 := Game.with_player (Player.with_on_ground false q) g).
  assert (K0 : session_kept g g0) by (apply session_kept_player; exact Hc).
  destruct (move_horizontal_total dt g0 Hwf) as (g1 & H1 & K1 & M1).
  rewrite H1. cbn [bind].
  destruct (move_vertical_total dt g1 (session_kept_wf _ _ K1 Hwf)) as (g2 & H2 & K2 & M2).
  rewrite H2. cbn [bind].
  exists q. eexists. split; [reflexivity|]. split; [reflexivity|]. split.
  - pose proof (session_kept_trans _ _ _ K0 (session_kept_trans _ _ _ K1 K2)) as K.
    assert (Kt : session_kept g2 (Game.with_player (tilt dt (Game.player g2)) g2))
      by (apply session_kept_player; reflexivity).
    exact (session_kept_trans _ _ _ K Kt).
  - rewrite player_with_player. exact (carried_of_moves dt q _ _ M1 M2).
Qed.

(** On a well-formed grid a frame of the player always returns.  It keeps
    the session state, the key memory and the size of the grid, only adds
    to the items, and counts every coin on both counters. *)
Theorem player_frame_returns (dt : Q) (keys : Keys) (g : Game.t) :
  grid_wf (Game.tilemap g) ->
  exists g',
    Player_update dt keys g = Some g' /\ session_kept g g'
    /\ grid_wf (Game.tilemap g').
Proof.
  intros Hwf. destruct (Player_update_total dt keys g Hwf) as (q & g' & _ & Hg' & K & _).
  exists g'. split; [exact Hg'|]. split; [exact K|]. exact (session_kept_wf _ _ K Hwf).
Qed.

Lemma player_frame_returns_witness :
  grid_wf flat_floor /\
  exists g',
    Player_update (1 # 60) dash_keys (session flat_floor dasher) = Some g'
    /\ session_kept (session flat_floor dasher) g'.
Proof.
  assert (Hwf : grid_wf flat_floor).
  { split; [discriminate | exists 6%nat; repeat constructor]. }
  split; [exact Hwf|].
  destruct (player_frame_returns (1 # 60) dash_keys (session flat_floor dasher) Hwf)
    as (g' & Hg' & K & _).
  exists g'. split; [exact Hg' | exact K].
Defined.

(** At the end of a frame the player falls no faster than [MAX_FALL], and
    unless it is dashing its horizontal speed is within the limit for its
    sprint and crouch flags. *)
Theorem player_speed_limits (dt : Q) (keys : Keys) (g g' : Game.t) :
  grid_wf (Game.tilemap g) ->
  Player_update dt keys g = Some g' ->
  (Player.vy (Game.player g') <= MAX_FALL)%Q
  /\ ((Player.dash_t (Game.player g') <= 0)%Q ->
      (Qabs (Player.vx (Game.player g')) <= speed_limit (Game.player g'))%Q).
Proof.
  intros Hwf Hg.
  destruct (Player_update_total dt keys g Hwf) as (q & g2 & Hq & Hg2 & _ & C).
  rewrite Hg in Hg2. injection Hg2 as <-.
  destruct (control_speed _ _ _ _ _ Hq) as [Hvx Hvy].
  destruct (carried_reads _ _ C) as (_ & Hd & Hl).
  destruct C as (_ & Dx & Dy). split.
  - destruct Dy as [Dy|[Dy|Dy]].
    + rewrite Dy. exact Hvy.
    + rewrite Dy. discriminate.
    + apply Qlt_le_weak. apply (Qlt_trans _ 0); [exact Dy | reflexivity].
  - intros Hdash. rewrite Hd in Hdash. rewrite Hl.
    destruct Dx as [Dx|Dx]; rewrite Dx; [exact (Hvx Hdash)|].
    apply speed_limit_pos.
Qed.

Lemma player_speed_limits_witness :
  exists g',
    Player_update (1 # 60) no_control (session flat_floor sprinter) = Some g'
    /\ (Player.vy (Game.player g') <= MAX_FALL)%Q
    /\ (Qabs (Player.vx (Game.player g')) <= speed_limit (Game.player g'))%Q.
Proof.
  assert (Hwf : grid_wf flat_floor).
  { split; [discriminate | exists 6%nat; repeat constructor]. }
  destruct (Player_update (1 # 60) no_control (session flat_floor sprinter)) as [g'|] eqn:Hg;
    [|vm_compute in Hg; discriminate].
  exists g'. split; [reflexivity|].
  destruct (player_speed_limits (1 # 60) no_control (session flat_floor sprinter) g' Hwf Hg)
    as [Hvy Hvx].
  split; [exact Hvy|]. apply Hvx.
  vm_compute in Hg. injection Hg as <-. vm_compute. discriminate.
Defined.

(** A frame of the player keeps the hitbox consistent: the standing and
    crouching heights are those of the form, and the height in use is the
    one the crouch flag selects. *)
Theorem player_frame_keeps_body (dt : Q) (keys : Keys) (g g' : Game.t) :
  grid_wf (Game.tilemap g) -> body_ok (Game.player g) ->
  Player_update dt keys g = Some g' -> body_ok (Game.player g').
Proof.
  intros Hwf Hb Hg.
  destruct (Player_update_total dt keys g Hwf) as (q & g2 & Hq & Hg2 & _ & C).
  rewrite Hg in Hg2. injection Hg2 as <-.
  apply (body_ok_same q); [apply (carried_reads _ _ C)|].
  exact (control_body _ _ _ _ _ Hb Hq).
Qed.

Lemma player_frame_keeps_body_witness :
  exists g',
    Player_update (1 # 60) no_control (session corridor crouched_in_corridor) = Some g'
    /\ body_ok (Game.player g').
Proof.
  assert (Hwf : grid_wf corridor).
  { split; [discriminate | exists 4%nat; repeat constructor]. }
  assert (Hb : body_ok crouched_in_corridor) by (repeat split).
  destruct (Player_update (1 # 60) no_control (session corridor crouched_in_corridor))
    as [g'|] eqn:Hg; [|vm_compute in Hg; discriminate].
  exists g'. split; [reflexivity|].
  exact (player_frame_keeps_body (1 # 60) no_control (session corridor crouched_in_corridor)
           g' Hwf Hb Hg).
Defined.

(** The methods that reshape the player keep the hitbox consistent. *)
Theorem reshaping_keeps_body (tm : Tilemap) (p : Player.t) :
  body_ok p ->
  (forall new_form tilemap b q, Player.set_form new_form tilemap p = Some (b, q) -> body_ok q)
  /\ (forall kind b q, Player.collect_powerup kind tm p = Some (b, q) -> body_ok q)
  /\ (forall b q, Player.take_damage tm p = Some (b, q) -> body_ok q)
  /\ (forall want q, Player._set_crouch want tm p = Some q -> body_ok q).
Proof.
  intros Hb. split; [|split; [|split]].
  - intros new_form tilemap b q. apply set_form_body. exact Hb.
  - intros kind b q. unfold Player.collect_powerup.
    destruct (String.eqb kind "mushroom"); [|intros [= _ <-]; exact Hb].
    cbv zeta.
    destruct (Player.set_form big (Some tm) p) as [[grew p1]|] eqn:Hs; cbn [bind];
      [|discriminate].
    pose proof (set_form_body _ _ _ _ _ Hb Hs) as H1.
    destruct grew; intros [= _ <-]; [|exact H1].
    apply (body_ok_same p1); [reflexivity | exact H1].
  - intros b q. unfold Player.take_damage.
    destruct (Qlt_bool 0 (Player.inv p)); [intros [= _ <-]; exact Hb|].
    destruct (Form_eqb (Player.form p) big); [|intros [= _ <-]; exact Hb].
    destruct (Player.set_form small (Some tm) p) as [[b1 p1]|] eqn:Hs; cbn [bind];
      [|discriminate].
    pose proof (set_form_body _ _ _ _ _ Hb Hs) as H1.
    cbv zeta. intros [= _ <-]. apply (body_ok_same p1); [reflexivity | exact H1].
  - intros want q. apply set_crouch_body. exact Hb.
Qed.

Lemma reshaping_keeps_body_witness :
  body_ok (Player.init 96 96) /\
  exists q, Player.set_form big (Some flat_floor) (Player.init 96 96) = Some (true, q)
            /\ body_ok q /\ Player.h q = H_STAND_BIG.
Proof.
  assert (Hb : body_ok (Player.init 96 96)) by (repeat split).
  split; [exact Hb|].
  destruct (Player.set_form big (Some flat_floor) (Player.init 96 96)) as [[b q]|] eqn:Hs;
    [|vm_compute in Hs; discriminate].
  assert (Hq : body_ok q)
    by exact (proj1 (reshaping_keeps_body flat_floor (Player.init 96 96) Hb) _ _ _ _ Hs).
  vm_compute in Hs. injection Hs as <- <-.
  eexists. split; [reflexivity|]. split; [exact Hq | reflexivity].
Defined.

(** The edge flags of a frame compare the keys with those of the frame
    before: after a running frame with the keys [before], the next snapshot
    reports a press only for a key that was up, and a release of the jump
    key only if it was down. *)
Theorem key_edges_follow_last_frame (dt : Q) (before now : Pressed) (g g' : Game.t) :
  grid_wf (Game.tilemap g) -> Game.state g = RUN ->
  Game_update_player dt before g = Some g' ->
  jump_pressed (make_keys now g') = (key_SPACE now && negb (key_SPACE before))
  /\ jump_released (make_keys now g') = (negb (key_SPACE now) && key_SPACE before)
  /\ dash_pressed (make_keys now g') = (key_LSHIFT now && negb (key_LSHIFT before))
  /\ crouch_pressed (make_keys now g')
     = ((key_s now || key_DOWN now) && negb (key_s before || key_DOWN before)).
Proof.
  intros Hwf Hrun. unfold Game_update_player. rewrite Hrun. cbv zeta.
  set (g0 := Game.with_last _ _ _ g). set (k := make_keys before g). clearbody k.
  destruct (Player_update_total dt k g0 Hwf) as (q & g1 & _ & Hg1 & K & _).
  rewrite Hg1. cbn [bind]. intros [= <-].
  destruct K as (_ & J & S & C & _).
  assert (E : forall gg, Game._jp_last (jump_stage k gg) = Game._jp_last gg
                         /\ Game._sh_last (jump_stage k gg) = Game._sh_last gg
                         /\ Game._cr_last (jump_stage k gg) = Game._cr_last gg).
  { intros gg. unfold jump_stage. destruct (jump_pressed k); repeat split. }
  destruct (E g1) as (E1 & E2 & E3).
  unfold make_keys. cbn [jump_pressed jump_released dash_pressed crouch_pressed].
  rewrite E1, E2, E3, J, S, C. repeat split.
Qed.

Lemma key_edges_follow_last_frame_witness :
  exists g',
    Game_update_player (1 # 60) space_down (session flat_floor dasher) = Some g'
    /\ jump_pressed (make_keys space_down g') = false
    /\ jump_released (make_keys no_keys g') = true.
Proof.
  assert (Hwf : grid_wf flat_floor).
  { split; [discriminate | exists 6%nat; repeat constructor]. }
  destruct (Game_update_player (1 # 60) space_down (session flat_floor dasher)) as [g'|] eqn:Hg;
    [|vm_compute in Hg; discriminate].
  exists g'. split; [reflexivity|].
  destruct (key_edges_follow_last_frame (1 # 60) space_down space_down
              (session flat_floor dasher) g' Hwf eq_refl Hg) as (H1 & _).
  destruct (key_edges_follow_last_frame (1 # 60) space_down no_keys
              (session flat_floor dasher) g' Hwf eq_refl Hg) as (_ & H2 & _).
  split; [exact H1 | exact H2].
Defined.

(** ** Standing up (C5) *)

(** The crouch stage leaves a crouching player crouched, or upright at the
    standing height. *)
Lemma resolve_crouch_upright (keys : Keys) (tm : Tilemap) (p q : Player.t) :
  Player.crouch p = true -> resolve_crouch keys tm p = Some q ->
  Player.crouch q = true \/ Player.h q = Player.h_stand q.
Proof.
  intros Hc. unfold resolve_crouch, Player._set_crouch. cbv zeta. rewrite Hc.
  destruct (Qle_bool (Player.dash_t p) 0 && crouch_held keys); cbn [negb andb bind].
  - intros [= <-]. left. exact Hc.
  - destruct (Player._can_stand tm p) as [[|]|]; cbn [negb andb bind]; try discriminate;
      intros [= <-]; first [left; exact Hc | left; reflexivity | right; reflexivity].
Qed.

Lemma crouch_slide_upright (keys : Keys) (pc ps : bool) (p : Player.t) :
  Player.crouch p = true \/ Player.h p = Player.h_stand p ->
  Player.crouch (crouch_slide keys pc ps p) = true
  \/ Player.h (crouch_slide keys pc ps p) = Player.h_stand (crouch_slide keys pc ps p).
Proof.
  intros H. unfold crouch_slide. cbv zeta.
  set (p1 := if slide_triggers keys pc ps p then start_slide p else p).
  assert (E : body p1 = body p).
  { subst p1. destruct (slide_triggers keys pc ps p); reflexivity. }
  clearbody p1. destruct (Qlt_bool 0 (Player.crouch_slide_t p1)); [left; reflexivity|].
  unfold body in E. injection E as _ E1 _ E2 E3. rewrite E3, E2, E1. exact H.
Qed.

(** When the control stages end with the crouch cleared, the height is the
    standing height. *)
Lemma control_upright (dt : Q) (keys : Keys) (tm : Tilemap) (p q : Player.t) :
  Player.crouch p = true -> control dt keys tm p = Some q ->
  Player.crouch q = true \/ Player.h q = Player.h_stand q.
Proof.
  intros Hc. unfold control. cbv zeta.
  destruct (Player.input_axis keys (tick_timers dt p)) as [ax p1] eqn:Hax.
  assert (H1 : Player.crouch p1 = true).
  { replace p1 with (snd (Player.input_axis keys (tick_timers dt p)))
      by (rewrite Hax; reflexivity).
    rewrite (input_axis_keeps Player.crouch) by reflexivity.
    rewrite (tick_timers_keeps Player.crouch) by reflexivity. exact Hc. }
  destruct (resolve_crouch keys tm p1) as [p2|] eqn:H2; cbn [bind]; [|discriminate].
  pose proof (crouch_slide_upright keys (Player.crouch p1) (Player.sprint p1) p2
                (resolve_crouch_upright _ _ _ _ H1 H2)) as H3.
  destruct (dash_trigger keys tm _) as [p3|] eqn:Hd; cbn [bind]; [|discriminate].
  intros [= <-].
  match goal with |- Player.crouch ?q = true \/ _ =>
    assert (E : body q = body (crouch_slide keys (Player.crouch p1) (Player.sprint p1) p2))
      by (apply (late_control_keeps _ body) with (tm := tm);
          first [exact Hd | reflexivity]) end.
  unfold body in E. injection E as _ E1 _ E2 E3. rewrite E3, E2, E1. exact H3.
Qed.

(** C5 (as amended).  In the player's stage of a frame that starts with the
    player crouching, requested or not: the crouch is cleared, and the
    height is then the standing height, only if the standing probe
    [_can_stand] passes at the start of the frame, that is only if no solid,
    spike, gate or goal tile among the cells met by the standing hitbox
    shrunk by 4 px left and right and 1 px above and below collides with
    the standing hitbox.  When the probe fails the player ends the frame
    crouched, and stays crouched through every run of further frames at
    whose starts the probe fails.  The frame always returns. *)
Theorem uncrouch_rule (dt : Q) (keys_raw : Pressed) (g : Game.t) :
  grid_wf (Game.tilemap g) ->
  Player.crouch (Game.player g) = true ->
  exists ok g',
    Player._can_stand (Game.tilemap g) (Game.player g) = Some ok /\
    (ok = true <-> stand_probe_clear (Game.tilemap g) (Game.player g)) /\
    Game_update_player dt keys_raw g = Some g' /\
    (Player.crouch (Game.player g') = false ->
       ok = true /\ Player.h (Game.player g') = Player.h_stand (Game.player g')) /\
    (ok = false ->
       Player.crouch (Game.player g') = true /\
       forall frames g'',
         obstructed_throughout frames g' ->
         run_frames frames g' = Some g'' ->
         Player.crouch (Game.player g'') = true).
Proof.
  intros Hwf Hc.
  destruct (can_stand_spec (Game.tilemap g) (Game.player g) Hwf) as (ok & Hok & Hiff).
  assert (Hrun : exists g', Game_update_player dt keys_raw g = Some g'
                            /\ (Player.crouch (Game.player g') = true
                                \/ Player.h (Game.player g') = Player.h_stand (Game.player g'))).
  { unfold Game_update_player.
    destruct (Game.state g); [| exists g; auto | exists g; auto]. cbv zeta.
    set (k := make_keys keys_raw g). clearbody k.
    set (g0 := Game.with_last _ _ _ g).
    destruct (Player_update_total dt k g0 Hwf) as (q & g1 & Hq & Hg1 & _ & C).
    rewrite Hg1. cbn [bind]. eexists. split; [reflexivity|].
    pose proof (control_upright _ _ _ _ _ Hc Hq) as Hu.
    assert (E : body (Game.player (jump_stage k g1)) = body q).
    { rewrite <- (proj1 (carried_reads _ _ C)).
      unfold jump_stage. destruct (jump_pressed k); [|reflexivity].
      rewrite player_with_player. unfold Player.try_jump.
      destruct (_ && _); reflexivity. }
    unfold body in E. injection E as _ E1 _ E2 E3. rewrite E3, E2, E1. exact Hu. }
  destruct Hrun as (g' & Hg' & Hu).
  assert (Hstay : ok = false -> Player.crouch (Game.player g') = true).
  { intros ->. exact (frame_keeps_forced_crouch dt keys_raw g g' Hc Hok Hg'). }
  exists ok, g'. split; [exact Hok|]. split; [exact Hiff|]. split; [exact Hg'|]. split.
  - intros Hclear. split.
    + destruct ok; [reflexivity|]. rewrite (Hstay eq_refl) in Hclear. discriminate.
    + destruct Hu as [Hu|Hu]; [rewrite Hu in Hclear; discriminate | exact Hu].
  - intros Hno. split; [exact (Hstay Hno)|].
    intros frames g'' Hob Hr.
    exact (run_keeps_forced_crouch frames g' g'' (Hstay Hno) Hob Hr).
Qed.

Lemma uncrouch_rule_witness :
  grid_wf corridor /\ Player.crouch crouched_in_corridor = true /\
  Player._can_stand corridor crouched_in_corridor = Some false /\
  exists g', Game_update_player (1 # 60) no_keys (session corridor crouched_in_corridor)
             = Some g' /\
             Player.crouch (Game.player g') = true.
Proof.
  assert (Hwf : grid_wf corridor).
  { split; [discriminate | exists 4%nat; repeat constructor]. }
  split; [exact Hwf|]. split; [reflexivity|]. split; [reflexivity|].
  destruct (uncrouch_rule (1 # 60) no_keys (session corridor crouched_in_corridor) Hwf eq_refl)
    as (ok & g' & Hok & _ & Hg' & _ & Hstay).
  exists g'. split; [exact Hg'|].
  assert (ok = false) by (vm_compute in Hok; congruence).
  exact (proj1 (Hstay H)).
Defined.

(** C5, the claim as stated fails inside the margin of the probe.  Under
    the ledge the standing hitbox collides with the raised ground tile
    (a 4 by 4 pixel overlap), yet the probe passes: the crouch stage stands
    the player up, and the frame ends with the crouch cleared and the
    standing height, the standing hitbox still inside the tile. *)
Lemma stands_up_into_ledge :
  grid_wf ledge /\ Player.crouch under_ledge = true /\
  grid_get ledge 0 0 = Some "X"%char /\ solid "X" = true /\
  colliderect (stand_rect under_ledge) (tile_rect 0 0) = true /\
  Player._can_stand ledge under_ledge = Some true /\
  (exists p', resolve_crouch no_control ledge under_ledge = Some p' /\
              Player.crouch p' = false /\ Player.h p' = H_STAND) /\
  exists g', Game_update_player (1 # 60) no_keys (session ledge under_ledge) = Some g' /\
             Player.crouch (Game.player g') = false /\
             Player.h (Game.player g') = H_STAND /\
             colliderect (Player.rect (Game.player g')) (tile_rect 0 0) = true.
Proof.
  split; [split; [discriminate | exists 3%nat; repeat constructor]|].
  repeat split.
  - eexists. repeat split.
  - eexists. split; [vm_compute; reflexivity|]. repeat split.
Qed.

(** ** From the level file to a run of frames *)






